(** * Multi-scale sliding-window QR scanner

    A shallow embedding of [scanWithSlidingWindow] (src/utils/qrScanner.ts)
    and the properties of its probing strategy.

    The browser primitives the function calls (the jsQR decoder, canvas
    creation, [drawImage], [getImageData], [toDataURL]) are opaque: they are
    the fields of a [Browser] record the scanner is parameterised by.  JS
    numbers are kept behind the [JSNumber] interface, whose instance
    [binary64] is IEEE-754 double precision, the arithmetic JS really runs.
    Loops that the source writes with [for (...; ...; v += step)] are
    evaluated with fuel, so that a loop that never leaves is visible as
    [Diverge] for every amount of fuel.

    The development goes on to what the application does with a scan: the
    reading of a decoded payload ([parseWifiString] of utils/wifiParser.ts,
    [handleDecode] of utils/handleDecode.ts and of the QRReader component)
    and the handlers that feed the scanner ([processImageFile],
    [processPdf], [handleFileChange] and [handlePaste]), with the state of
    the component passed along explicitly. *)

From Stdlib Require Import ZArith List Bool String Lia QArith Qround Sorted.
From Stdlib Require Import Floats.PrimFloat Floats.SpecFloat Floats.FloatOps.
From Stdlib Require Import Ascii DecimalString.
Import ListNotations.

Set Implicit Arguments.
Set Warnings "-inexact-float,-notation-for-abbreviation".
Open Scope Z_scope.

(* ================================================================== *)
(** ** JS numbers *)

(** The operations the scanner applies to values of type [number]. *)
Class JSNumber (num : Type) : Type := {
  of_int : Z -> num;            (* an integer-valued number *)
  nadd : num -> num -> num;     (* a + b *)
  nsub : num -> num -> num;     (* a - b *)
  nmul : num -> num -> num;     (* a * b *)
  ndiv : num -> num -> num;     (* a / b *)
  nleb : num -> num -> bool;    (* a <= b *)
  floor : num -> option Z       (* Math.floor(a); None when a is NaN or infinite *)
}.

Module Binary64.

(** The double nearest to an integer (round to nearest, ties to even). *)
Definition of_Z (z : Z) : float :=
  SF2Prim (binary_normalize prec emax z 0 false).

(** The integer value of a finite double's floor. *)
Definition floorZ (x : float) : option Z :=
  match Prim2SF x with
  | S754_zero _ => Some 0
  | S754_finite s m e =>
      let v := if s then Z.neg m else Z.pos m in
      Some (if 0 <=? e then v * 2 ^ e else v / 2 ^ (- e))
  | S754_infinity _ | S754_nan => None
  end.

(** The exact rational value of a finite double. *)
Definition toQ (x : float) : option Q :=
  match Prim2SF x with
  | S754_zero _ => Some 0%Q
  | S754_finite s m e =>
      let v := if s then Z.neg m else Z.pos m in
      Some (if 0 <=? e then inject_Z (v * 2 ^ e)
            else Qmake v (Z.to_pos (2 ^ (- e))))
  | S754_infinity _ | S754_nan => None
  end.

(** The double [x] is exactly the rational [q]. *)
Definition exactly (x : float) (q : Q) : Prop :=
  match toQ x with
  | Some v => (v == q)%Q
  | None => False
  end.

End Binary64.

#[export] Instance binary64 : JSNumber float := {|
  of_int := Binary64.of_Z;
  nadd := PrimFloat.add;
  nsub := PrimFloat.sub;
  nmul := PrimFloat.mul;
  ndiv := PrimFloat.div;
  nleb := PrimFloat.leb;
  floor := Binary64.floorZ
|}.

(** Exact rational arithmetic: what the loop would do without rounding. *)
#[export] Instance exactQ : JSNumber Q := {|
  of_int := inject_Z;
  nadd := Qplus;
  nsub := Qminus;
  nmul := Qmult;
  ndiv := Qdiv;
  nleb := Qle_bool;
  floor := fun q => Some (Qfloor q)
|}.

(* ================================================================== *)
(** ** Data model *)

(** What a call of the decoder does: a [QRCode] carrying [data], [null],
    or an exception. *)
Inductive jsqr_result : Type :=
| Code (data : string)
| NoCode
| Throws.

Definition payload (r : jsqr_result) : option string :=
  match r with
  | Code s => Some s
  | NoCode | Throws => None
  end.

(** How a block of the function is left. *)
Inductive completion : Type :=
| Normal                 (* fell through to the next statement *)
| Return (b : bool)      (* [return b] *)
| Throw                  (* an exception escapes the function *)
| Diverge                (* the loop is still running when the fuel is spent *)
| NonFinite.             (* a scaled dimension or step is NaN or infinite:
                            outside the model *)

Section Scanner.

Variable num : Type.
Context {NUM : JSNumber num}.

(** [Pixels] is the content of a [Uint8ClampedArray] of RGBA bytes,
    [Bitmap] the content of the scaled canvas after [drawImage]. *)
Variables Pixels Bitmap : Type.

Record ImageData : Type := {
  data : Pixels;
  width : Z;
  height : Z
}.

Record ScannerSettings : Type := {
  useAdvancedScanning : bool;
  debugMode : bool;
  minScale : num;
  maxScale : num;
  scaleStep : num;
  windowOverlap : num;
  windowSizes : list Z
}.

(** Operations drawn on the debug canvas. *)
Inductive draw_op : Type :=
| PutImageData (img : ImageData)
| StrokeRect (strokeStyle : string) (lineWidth : Z) (x y w h : num).

(** The debug canvas behind [debugCanvasRef.current]. *)
Record HTMLCanvasElement : Type := {
  cv_width : Z;
  cv_height : Z;
  cv_2d : bool;                (* getContext('2d') is not null *)
  cv_ops : list draw_op        (* what was drawn since the last resize *)
}.

Record Browser : Type := {
  jsQR : Pixels -> Z -> Z -> jsqr_result;
  (* document.createElement('canvas') sized w x h yields a 2d context *)
  getContext2d : Z -> Z -> bool;
  (* putImageData on the temporary canvas, then drawImage scaled *)
  drawImage : ImageData -> Z -> Z -> Bitmap;
  (* None: getImageData throws *)
  getImageData : Bitmap -> Z -> Z -> Z -> Z -> option Pixels;
  toDataURL : HTMLCanvasElement -> string
}.

(** Where the decoder is invoked. *)
Inductive site : Type :=
| Native
| Frame (scale : num) (scaledWidth scaledHeight : Z)
| Window (scale : num) (scaledWidth scaledHeight : Z) (windowSize x y : Z).

(** Everything one call of the scanner does that can be observed. *)
Record world : Type := {
  debugCanvas : option HTMLCanvasElement;   (* debugCanvasRef.current *)
  probes : list site;                       (* decode attempts, oldest first *)
  resampled : list (num * Z * Z);           (* scaled canvases drawn *)
  visited : list num;                       (* iterations of the scale loop *)
  decoded : list string;                    (* calls of onDecode *)
  debugImages : list (option string)        (* calls of onDebugImage *)
}.

Definition log_probe (s : site) (w : world) : world :=
  {| debugCanvas := debugCanvas w; probes := probes w ++ [s];
     resampled := resampled w; visited := visited w;
     decoded := decoded w; debugImages := debugImages w |}.

Definition log_resample (scale : num) (sw sh : Z) (w : world) : world :=
  {| debugCanvas := debugCanvas w; probes := probes w;
     resampled := resampled w ++ [(scale, sw, sh)]; visited := visited w;
     decoded := decoded w; debugImages := debugImages w |}.

Definition log_visit (scale : num) (w : world) : world :=
  {| debugCanvas := debugCanvas w; probes := probes w;
     resampled := resampled w; visited := visited w ++ [scale];
     decoded := decoded w; debugImages := debugImages w |}.

Definition onDecode (s : string) (w : world) : world :=
  {| debugCanvas := debugCanvas w; probes := probes w;
     resampled := resampled w; visited := visited w;
     decoded := decoded w ++ [s]; debugImages := debugImages w |}.

Definition onDebugImage (url : option string) (w : world) : world :=
  {| debugCanvas := debugCanvas w; probes := probes w;
     resampled := resampled w; visited := visited w;
     decoded := decoded w; debugImages := debugImages w ++ [url] |}.

Definition set_canvas (c : option HTMLCanvasElement) (w : world) : world :=
  {| debugCanvas := c; probes := probes w;
     resampled := resampled w; visited := visited w;
     decoded := decoded w; debugImages := debugImages w |}.

Definition draw (op : draw_op) (w : world) : world :=
  match debugCanvas w with
  | Some cv =>
      set_canvas (Some {| cv_width := cv_width cv; cv_height := cv_height cv;
                          cv_2d := cv_2d cv; cv_ops := cv_ops cv ++ [op] |}) w
  | None => w
  end.

(** [s || null] on a string. *)
Definition or_null (s : string) : option string :=
  if String.eqb s EmptyString then None else Some s.

Variable B : Browser.
Variable imageData : ImageData.
Variable scannerSettings : ScannerSettings.

(** [getImageData] on the scaled canvas followed by [jsQR], as the body
    of a [try] block: a throw of either is one [Throws]. *)
Definition probe (bm : Bitmap) (x y w h : Z) : jsqr_result :=
  match getImageData B bm x y w h with
  | Some d => jsQR B d w h
  | None => Throws
  end.

Definition probed_rect (scale : num) (windowSize x y : Z) : draw_op :=
  StrokeRect "rgba(255, 0, 0, 0.5)" 2
    (ndiv (of_int x) scale) (ndiv (of_int y) scale)
    (ndiv (of_int windowSize) scale) (ndiv (of_int windowSize) scale).

Definition found_rect (scale : num) (windowSize x y : Z) : draw_op :=
  StrokeRect "rgba(0, 255, 0, 1)" 3
    (ndiv (of_int x) scale) (ndiv (of_int y) scale)
    (ndiv (of_int windowSize) scale) (ndiv (of_int windowSize) scale).

(** [debugCanvasRef.current?.toDataURL() || null] *)
Definition debug_url (w : world) : option string :=
  match debugCanvas w with
  | Some cv => or_null (toDataURL B cv)
  | None => None
  end.

Section AtScale.

(** [debugContext] is not null. *)
Variable debugContext : bool.
Variable scale : num.
Variables scaledWidth scaledHeight : Z.
Variable bm : Bitmap.

(** The body of the innermost loop (lines 96-139). *)
Definition scanWindow (windowSize x y : Z) (w : world) : completion * world :=
  let w1 := if debugContext && debugMode scannerSettings
            then draw (probed_rect scale windowSize x y) w else w in
  let w2 := log_probe (Window scale scaledWidth scaledHeight windowSize x y) w1 in
  match probe bm x y windowSize windowSize with
  | Code s =>
      let w3 := onDecode s w2 in
      let w4 := if debugContext && debugMode scannerSettings
                then let w' := draw (found_rect scale windowSize x y) w3 in
                     onDebugImage (debug_url w') w'
                else w3 in
      (Return true, w4)
  | NoCode | Throws => (Normal, w2)
  end.

(** [for (let x = 0; x <= scaledWidth - windowSize; x += stepSize)] *)
Fixpoint loopX (fuel : nat) (windowSize stepSize y x : Z) (w : world)
  {struct fuel} : completion * world :=
  if x <=? scaledWidth - windowSize then
    match fuel with
    | O => (Diverge, w)
    | S fuel' =>
        match scanWindow windowSize x y w with
        | (Normal, w') => loopX fuel' windowSize stepSize y (x + stepSize) w'
        | r => r
        end
    end
  else (Normal, w).

(** [for (let y = 0; y <= scaledHeight - windowSize; y += stepSize)] *)
Fixpoint loopY (F fuel : nat) (windowSize stepSize y : Z) (w : world)
  {struct fuel} : completion * world :=
  if y <=? scaledHeight - windowSize then
    match fuel with
    | O => (Diverge, w)
    | S fuel' =>
        match loopX F windowSize stepSize y 0 w with
        | (Normal, w') => loopY F fuel' windowSize stepSize (y + stepSize) w'
        | r => r
        end
    end
  else (Normal, w).

(** [Math.floor(windowSize * (1 - scannerSettings.windowOverlap))] *)
Definition stepSizeOf (windowSize : Z) : option Z :=
  floor (nmul (of_int windowSize)
              (nsub (of_int 1) (windowOverlap scannerSettings))).

(** [for (const windowSize of scannerSettings.windowSizes)] *)
Fixpoint loopSizes (F : nat) (sizes : list Z) (w : world)
  : completion * world :=
  match sizes with
  | [] => (Normal, w)
  | windowSize :: rest =>
      match stepSizeOf windowSize with
      | None => (NonFinite, w)
      | Some stepSize =>
          match loopY F F windowSize stepSize 0 w with
          | (Normal, w') => loopSizes F rest w'
          | r => r
          end
      end
  end.

End AtScale.

(** [Math.floor(imageData.width * scale)], [Math.floor(imageData.height * scale)] *)
Definition scaledDims (scale : num) : option (Z * Z) :=
  match floor (nmul (of_int (width imageData)) scale),
        floor (nmul (of_int (height imageData)) scale) with
  | Some sw, Some sh => Some (sw, sh)
  | _, _ => None
  end.

(** The body of the scale loop (lines 47-142). *)
Definition scanScale (F : nat) (debugContext : bool) (scale : num) (w : world)
  : completion * world :=
  let w := log_visit scale w in
  match scaledDims scale with
  | None => (NonFinite, w)
  | Some (scaledWidth, scaledHeight) =>
      if (scaledWidth <=? 0) || (scaledHeight <=? 0) then (Normal, w)
      else if negb (getContext2d B scaledWidth scaledHeight) then (Normal, w)
      else if negb (getContext2d B (width imageData) (height imageData))
      then (Normal, w)
      else
        let bm := drawImage B imageData scaledWidth scaledHeight in
        let w := log_resample scale scaledWidth scaledHeight w in
        let w := log_probe (Frame scale scaledWidth scaledHeight) w in
        match probe bm 0 0 scaledWidth scaledHeight with
        | Code s => (Return true, onDecode s w)
        | NoCode | Throws =>
            loopSizes debugContext scale scaledWidth scaledHeight bm F
                      (windowSizes scannerSettings) w
        end
  end.

(** [for (let scale = minScale; scale <= maxScale; scale += scaleStep)] *)
Fixpoint loopScale (F fuel : nat) (debugContext : bool) (scale : num) (w : world)
  {struct fuel} : completion * world :=
  if nleb scale (maxScale scannerSettings) then
    match fuel with
    | O => (Diverge, w)
    | S fuel' =>
        match scanScale F debugContext scale w with
        | (Normal, w') =>
            loopScale F fuel' debugContext
                      (nadd scale (scaleStep scannerSettings)) w'
        | r => r
        end
    end
  else (Normal, w).

(** Lines 27-43: the debug canvas is resized to the image and, when it
    has a 2d context, the image is drawn on it.  The result tells whether
    [debugContext] is not null. *)
Definition debugSetup (w : world) : bool * world :=
  match debugCanvas w with
  | Some cv =>
      if debugMode scannerSettings then
        let cv' := {| cv_width := width imageData;
                      cv_height := height imageData;
                      cv_2d := cv_2d cv; cv_ops := [] |} in
        let w' := set_canvas (Some cv') w in
        if cv_2d cv then (true, draw (PutImageData imageData) w')
        else (false, w')
      else (false, w)
  | None => (false, w)
  end.

(** Lines 145-148. *)
Definition debugFinish (debugContext : bool) (w : world) : world :=
  if debugContext && debugMode scannerSettings then
    match debugCanvas w with
    | Some cv => onDebugImage (Some (toDataURL B cv)) w
    | None => w
    end
  else w.

Definition initial (debugCanvasRef : option HTMLCanvasElement) : world :=
  {| debugCanvas := debugCanvasRef; probes := [Native]; resampled := [];
     visited := []; decoded := []; debugImages := [] |}.

(** The whole function.  [jsQR] is an imported function, so the guard
    [if (!jsQR) return false] of line 11 never fires. *)
Definition scanWithSlidingWindow (F : nat)
    (debugCanvasRef : option HTMLCanvasElement) : completion * world :=
  let w0 := initial debugCanvasRef in
  match jsQR B (data imageData) (width imageData) (height imageData) with
  | Throws => (Throw, w0)
  | Code s => (Return true, onDecode s w0)
  | NoCode =>
      if negb (useAdvancedScanning scannerSettings) then (Return false, w0)
      else
        let '(debugContext, w1) := debugSetup w0 in
        match loopScale F F debugContext (minScale scannerSettings) w1 with
        | (Normal, w2) => (Return false, debugFinish debugContext w2)
        | r => r
        end
  end.

(* ------------------------------------------------------------------ *)
(** *** The probing order, as the specification words it

    Scale by scale; at a scale the whole resampled frame first, then the
    window sizes in their listed order; for a window size the rows from the
    top, and within a row the columns from the left. *)

(** What the decoder does when invoked at a site. *)
Definition outcome (s : site) : jsqr_result :=
  match s with
  | Native => jsQR B (data imageData) (width imageData) (height imageData)
  | Frame _ sw sh => probe (drawImage B imageData sw sh) 0 0 sw sh
  | Window _ sw sh windowSize x y =>
      probe (drawImage B imageData sw sh) x y windowSize windowSize
  end.

(** 0, step, 2 step, ... up to [limit] inclusive; nothing when [limit < 0]. *)
Definition positions (limit step : Z) : list Z :=
  if 0 <=? limit
  then map (fun i => Z.of_nat i * step) (seq 0 (Z.to_nat (limit / step) + 1))
  else [].

Definition rowOrder (scale : num) (sw sh windowSize stepSize y : Z) : list site :=
  map (fun x => Window scale sw sh windowSize x y)
      (positions (sw - windowSize) stepSize).

Definition windowOrder (scale : num) (sw sh windowSize stepSize : Z) : list site :=
  flat_map (rowOrder scale sw sh windowSize stepSize)
           (positions (sh - windowSize) stepSize).

Definition sizesOrder (scale : num) (sw sh : Z) (sizes : list Z) : list site :=
  flat_map (fun windowSize =>
              match stepSizeOf windowSize with
              | Some stepSize => windowOrder scale sw sh windowSize stepSize
              | None => []
              end) sizes.

(** A scale at which the frame is resampled and probed. *)
Definition resamples (sw sh : Z) : bool :=
  negb ((sw <=? 0) || (sh <=? 0))
  && getContext2d B sw sh
  && getContext2d B (width imageData) (height imageData).

Definition scaleOrder (scale : num) : list site :=
  match scaledDims scale with
  | Some (sw, sh) =>
      if resamples sw sh
      then Frame scale sw sh :: sizesOrder scale sw sh (windowSizes scannerSettings)
      else []
  | None => []
  end.

Definition probingOrder (scales : list num) : list site :=
  flat_map scaleOrder scales.

(** The first [n] values of [scale] under [scale += scaleStep]. *)
Fixpoint scaleSeq (n : nat) (scale : num) : list num :=
  match n with
  | O => []
  | S n' => scale :: scaleSeq n' (nadd scale (scaleStep scannerSettings))
  end.

(** The first site of a list at which the decoder yields a code, with the
    sites before it and the payload. *)
Fixpoint firstSuccess (l : list site) : option (list site * site * string) :=
  match l with
  | [] => None
  | s :: l' =>
      match outcome s with
      | Code p => Some ([], s, p)
      | NoCode | Throws =>
          match firstSuccess l' with
          | Some (pre, s', p) => Some (s :: pre, s', p)
          | None => None
          end
      end
  end.

End Scanner.

(* ================================================================== *)
(** ** Concrete browsers and inputs

    A mock browser whose pixel arrays are labels: the native image is
    labelled [[]], and the array [getImageData] cuts from the [sw] x [sh]
    frame at [(x, y)] with size [w] x [h] is labelled [[sw; sh; x; y; w; h]].
    The decoder is given by the labels it finds a code in. *)

Definition label : Type := list Z.

Definition label_eqb (a b : label) : bool :=
  if list_eq_dec Z.eq_dec a b then true else false.

Definition mockBrowser (num : Type) (decode : label -> jsqr_result)
  : Browser num label (Z * Z)%type :=
  {| jsQR := fun d _ _ => decode d;
     getContext2d := fun _ _ => true;
     drawImage := fun _ sw sh => (sw, sh);
     getImageData := fun bm x y w h => Some [fst bm; snd bm; x; y; w; h];
     toDataURL := fun _ => "data:image/png;base64,"%string |}.

Definition mockImage (w h : Z) : ImageData label :=
  {| data := []; width := w; height := h |}.

Definition mockCanvas (num : Type) : HTMLCanvasElement num label :=
  {| cv_width := 300; cv_height := 150; cv_2d := true; cv_ops := [] |}.

(** A decoder that finds nothing. *)
Definition blind (_ : label) : jsqr_result := NoCode.

(** A decoder that finds [p] exactly in the arrays labelled in [hits]. *)
Definition finds (hits : list label) (p : string) (d : label) : jsqr_result :=
  if existsb (label_eqb d) hits then Code p else NoCode.

(** The settings the application starts with (QRReader.tsx). *)
Definition defaultSettings : ScannerSettings float :=
  {| useAdvancedScanning := true; debugMode := false;
     minScale := 0.5%float; maxScale := 2%float; scaleStep := 0.25%float;
     windowOverlap := 0.25%float; windowSizes := [300; 500] |}.

(** The settings with [debugMode] replaced. *)
Definition withDebug (num : Type) (d : bool) (s : ScannerSettings num)
  : ScannerSettings num :=
  {| useAdvancedScanning := useAdvancedScanning s; debugMode := d;
     minScale := minScale s; maxScale := maxScale s; scaleStep := scaleStep s;
     windowOverlap := windowOverlap s; windowSizes := windowSizes s |}.

(** What a run shows of the scan itself, the diagnostics left out. *)
Definition observable (num Pixels : Type) (w : world num Pixels)
  : list (site num) * list (num * Z * Z) * list num * list string :=
  (probes w, resampled w, visited w, decoded w).

(** Two runs that end alike and show the same. *)
Definition same_obs (num Pixels : Type)
    (r1 r2 : completion * world num Pixels) : Prop :=
  fst r1 = fst r2 /\ observable (snd r1) = observable (snd r2).

(** Two browsers between which only the way a probe fails differs. *)
Record caught_alike (num Pixels Bitmap : Type)
    (B1 B2 : Browser num Pixels Bitmap) : Prop := {
  alike_context : forall w h, getContext2d B1 w h = getContext2d B2 w h;
  alike_draw : forall img w h, drawImage B1 img w h = drawImage B2 img w h;
  alike_url : forall cv, toDataURL B1 cv = toDataURL B2 cv;
  alike_probe : forall bm x y w h,
      payload (probe B1 bm x y w h) = payload (probe B2 bm x y w h)
}.

(** A decoder that throws on the arrays labelled in [bad] and behaves as
    [decode] elsewhere. *)
Definition throwing (bad : list label) (decode : label -> jsqr_result)
    (d : label) : jsqr_result :=
  if existsb (label_eqb d) bad then Throws else decode d.

(** As [throwing], with the absence signal in place of the exception. *)
Definition silenced (bad : list label) (decode : label -> jsqr_result)
    (d : label) : jsqr_result :=
  if existsb (label_eqb d) bad then NoCode else decode d.

(** The first of two decoders to find a code. *)
Definition orElse (f g : label -> jsqr_result) (d : label) : jsqr_result :=
  match f d with
  | Code p => Code p
  | NoCode | Throws => g d
  end.

(** The application's settings with advanced scanning switched off. *)
Definition basicSettings : ScannerSettings float :=
  {| useAdvancedScanning := false; debugMode := false;
     minScale := 0.5%float; maxScale := 2%float; scaleStep := 0.25%float;
     windowOverlap := 0.25%float; windowSizes := [300; 500] |}.

(** One scale, windows of one size side by side. *)
Definition tilingSettings (debug : bool) (windowSize : Z) : ScannerSettings float :=
  {| useAdvancedScanning := true; debugMode := debug;
     minScale := 1%float; maxScale := 1%float; scaleStep := 1%float;
     windowOverlap := 0%float; windowSizes := [windowSize] |}.

(** The application's settings without window sizes. *)
Definition frameOnlySettings : ScannerSettings float :=
  {| useAdvancedScanning := true; debugMode := false;
     minScale := 0.5%float; maxScale := 2%float; scaleStep := 0.25%float;
     windowOverlap := 0.25%float; windowSizes := [] |}.

(** The application's settings with the scale range turned around. *)
Definition emptyRangeSettings : ScannerSettings float :=
  {| useAdvancedScanning := true; debugMode := false;
     minScale := 2%float; maxScale := 0.5%float; scaleStep := 0.25%float;
     windowOverlap := 0.25%float; windowSizes := [300; 500] |}.

(** The application's settings with minScale at the top of its slider and
    windows that overlap by 99.9 percent. *)
Definition denseSettings : ScannerSettings float :=
  {| useAdvancedScanning := true; debugMode := false;
     minScale := 1%float; maxScale := 2%float; scaleStep := 0.25%float;
     windowOverlap := 0.999%float; windowSizes := [300; 500] |}.

(** Scales from 0.1 to 1.6 in steps of 0.1. *)
Definition tenthsSettings : ScannerSettings float :=
  {| useAdvancedScanning := true; debugMode := false;
     minScale := 0.1%float; maxScale := 1.6%float; scaleStep := 0.1%float;
     windowOverlap := 0.25%float; windowSizes := [300; 500] |}.

(** The same three doubles as exact rationals. *)
Definition tenthsSettingsQ : ScannerSettings Q :=
  {| useAdvancedScanning := true; debugMode := false;
     minScale := (3602879701896397 # 36028797018963968)%Q;
     maxScale := (3602879701896397 # 2251799813685248)%Q;
     scaleStep := (3602879701896397 # 36028797018963968)%Q;
     windowOverlap := (1 # 4)%Q; windowSizes := [300; 500] |}.

(** One scale and a scale step of zero. *)
Definition frozenSettings : ScannerSettings float :=
  {| useAdvancedScanning := true; debugMode := false;
     minScale := 1%float; maxScale := 1%float; scaleStep := 0%float;
     windowOverlap := 0.25%float; windowSizes := [300; 500] |}.

(** In a 600 x 600 frame cut into four windows of side 300, a decoder that
    finds one code in the top right window and another in the bottom left. *)
Definition twoCodes : label -> jsqr_result :=
  orElse (finds [[600; 600; 300; 0; 300; 300]] "top right")
         (finds [[600; 600; 0; 300; 300; 300]] "bottom left").

(* ------------------------------------------------------------------ *)
(** ** Loops as lists, and what a run owes to a probing order *)

(** A loop body run on each value of a list, left at the first completion
    that is not [Normal]. *)
Fixpoint runList (num Pixels A : Type)
    (body : A -> world num Pixels -> completion * world num Pixels)
    (l : list A) (w : world num Pixels) : completion * world num Pixels :=
  match l with
  | [] => (Normal, w)
  | a :: l' =>
      match body a w with
      | (Normal, w') => runList body l' w'
      | r => r
      end
  end.

(** A run [r] started in [w] follows the order [L]: it attempts the sites of
    [L] one after the other up to the first that yields a code, returns true
    there with that code's payload, and falls through when none does. *)
Definition follows (num Pixels Bitmap : Type) (B : Browser num Pixels Bitmap)
    (imageData : ImageData Pixels) (L : list (site num))
    (w : world num Pixels) (r : completion * world num Pixels) : Prop :=
  match firstSuccess B imageData L with
  | Some (pre, s, p) =>
      fst r = Return true
      /\ probes (snd r) = probes w ++ pre ++ [s]
      /\ decoded (snd r) = decoded w ++ [p]
  | None =>
      fst r = Normal
      /\ probes (snd r) = probes w ++ L
      /\ decoded (snd r) = decoded w
  end.

(** Every listed window size has a finite step of at least one pixel. *)
Definition steps_advance (num : Type) {NUM : JSNumber num}
    (scannerSettings : ScannerSettings num) : Prop :=
  forall windowSize, In windowSize (windowSizes scannerSettings) ->
    exists stepSize,
      stepSizeOf scannerSettings windowSize = Some stepSize /\ 1 <= stepSize.

(** The frame has finite dimensions at each of the scales. *)
Definition dims_finite (num : Type) {NUM : JSNumber num} (Pixels : Type)
    (imageData : ImageData Pixels) (scales : list num) : Prop :=
  forall scale, In scale scales -> scaledDims imageData scale <> None.

(** Each of the scales passes the guard of the scale loop. *)
Definition in_range (num : Type) {NUM : JSNumber num}
    (scannerSettings : ScannerSettings num) (scales : list num) : Prop :=
  forall scale, In scale scales ->
    nleb scale (maxScale scannerSettings) = true.

(** The value of [scale] after [n] rounds of [scale += scaleStep]. *)
Fixpoint scaleAfter (num : Type) {NUM : JSNumber num}
    (scannerSettings : ScannerSettings num) (n : nat) (scale : num) : num :=
  match n with
  | O => scale
  | S n' => scaleAfter scannerSettings n' (nadd scale (scaleStep scannerSettings))
  end.

(** The windows among a list of sites, as (x, y, side). *)
Fixpoint windowsProbed (num : Type) (l : list (site num)) : list (Z * Z * Z) :=
  match l with
  | [] => []
  | Window _ _ _ windowSize x y :: l' => (x, y, windowSize) :: windowsProbed l'
  | _ :: l' => windowsProbed l'
  end.

(** The window [a] comes before [b] in row-major order: it is higher, or on
    the same row and further left. *)
Definition row_major (a b : Z * Z * Z) : Prop :=
  let '(x1, y1, _) := a in
  let '(x2, y2, _) := b in
  y1 < y2 \/ (y1 = y2 /\ x1 < x2).

(** The pixel (px, py) lies in the window. *)
Definition covers (r : Z * Z * Z) (px py : Z) : Prop :=
  let '(x, y, side) := r in
  x <= px < x + side /\ y <= py < y + side.

(* ------------------------------------------------------------------ *)
(** ** Notions the proofs use *)

(** A counting loop over [Z], as the loops over [x] and [y] are written. *)
Fixpoint forZ (num Pixels : Type)
    (body : Z -> world num Pixels -> completion * world num Pixels)
    (fuel : nat) (limit step v : Z) (w : world num Pixels) {struct fuel}
  : completion * world num Pixels :=
  if v <=? limit then
    match fuel with
    | O => (Diverge, w)
    | S fuel' =>
        match body v w with
        | (Normal, w') => forZ body fuel' limit step (v + step) w'
        | r => r
        end
    end
  else (Normal, w).

(** [Q c w] says what holds of the world [w] when a block is left with the
    completion [c]; [holds Q r] applies it to a run. *)
Definition holds (num Pixels : Type)
    (Q : completion -> world num Pixels -> Prop)
    (r : completion * world num Pixels) : Prop :=
  Q (fst r) (snd r).

(** Nothing was handed to [onDebugImage]. *)
Definition silent (num Pixels : Type) (_ : completion)
    (w : world num Pixels) : Prop :=
  debugImages w = [].

Arguments silent {num Pixels} _ w.

(** With [debugMode] on, a canvas with a 2d context and data URLs that are
    not empty: what has been emitted when a block of the scan is left. *)
Definition emitted (num Pixels : Type) (k : completion)
    (w : world num Pixels) : Prop :=
  match k with
  | Normal => debugImages w = [] /\ debugCanvas w <> None
  | Return true =>
      match last (probes w) (Native num) with
      | Window _ _ _ _ _ _ => exists url, debugImages w = [Some url]
      | Frame _ _ _ => debugImages w = []
      | Native _ => False
      end
  | Return false | Throw => False
  | Diverge | NonFinite => True
  end.

Arguments emitted {num Pixels} k w.

(** Every attempt so far failed; or the last attempt, and only it, found a
    code, which is the one payload delivered. *)
Definition first_hit (num Pixels Bitmap : Type)
    (B : Browser num Pixels Bitmap) (imageData : ImageData Pixels)
    (k : completion) (w : world num Pixels) : Prop :=
  match k with
  | Normal =>
      decoded w = []
      /\ forall s, In s (probes w) -> payload (outcome B imageData s) = None
  | Return true =>
      exists pre s p,
        probes w = pre ++ [s]
        /\ decoded w = [p]
        /\ outcome B imageData s = Code p
        /\ forall s', In s' pre -> payload (outcome B imageData s') = None
  | Return false | Throw => False
  | Diverge | NonFinite => True
  end.

(** The windows of side [side] probed over a frame of side [k * side]. *)
Definition grid (side k : Z) : list (Z * Z * Z) :=
  flat_map (fun y => map (fun x => (x, y, side))
                         (positions (k * side - side) side))
           (positions (k * side - side) side).

(* ------------------------------------------------------------------ *)
(** ** Further notions on a run of the scanner *)

(** What the callbacks have been handed when a block of the scan is left
    with the completion [k]: one payload when it is left by [return true]
    and none otherwise, and one diagnostic image at most. *)
Definition handed_over (num Pixels : Type) (k : completion)
    (w : world num Pixels) : Prop :=
  match k with
  | Return true =>
      (exists p, decoded w = [p]) /\ (List.length (debugImages w) <= 1)%nat
  | Return false =>
      decoded w = [] /\ (List.length (debugImages w) <= 1)%nat
  | Normal | Throw | Diverge | NonFinite =>
      decoded w = [] /\ debugImages w = []
  end.

Arguments handed_over {num Pixels} k w.

(** The site lies in the frame it is cut from, and that frame is the image
    resampled at the scale of the site. *)
Definition inside_frame (num : Type) {NUM : JSNumber num} (Pixels : Type)
    (imageData : ImageData Pixels) (s : site num) : Prop :=
  match s with
  | Native _ => True
  | Frame scale sw sh =>
      scaledDims imageData scale = Some (sw, sh) /\ 0 < sw /\ 0 < sh
  | Window scale sw sh windowSize x y =>
      scaledDims imageData scale = Some (sw, sh)
      /\ 0 <= x /\ x + windowSize <= sw
      /\ 0 <= y /\ y + windowSize <= sh
  end.

(** No listed window size has a negative step. *)
Definition steps_forward (num : Type) {NUM : JSNumber num}
    (scannerSettings : ScannerSettings num) : Prop :=
  forall windowSize stepSize,
    In windowSize (windowSizes scannerSettings) ->
    stepSizeOf scannerSettings windowSize = Some stepSize -> 0 <= stepSize.

(** The red outlines of the windows among a list of sites. *)
Fixpoint outlines (num : Type) {NUM : JSNumber num} (Pixels : Type)
    (l : list (site num)) : list (draw_op num Pixels) :=
  match l with
  | [] => []
  | Window scale _ _ windowSize x y :: l' =>
      probed_rect Pixels scale windowSize x y :: outlines Pixels l'
  | _ :: l' => outlines Pixels l'
  end.

(** The green outline of the window a block left with [k] has found a
    code in. *)
Definition found_mark (num : Type) {NUM : JSNumber num} (Pixels : Type)
    (k : completion) (l : list (site num)) : list (draw_op num Pixels) :=
  match k, last l (Native num) with
  | Return true, Window scale _ _ windowSize x y =>
      [found_rect Pixels scale windowSize x y]
  | _, _ => []
  end.

(** The diagnostic images that a block left with [k] has handed over, [cv]
    being the debug canvas it leaves: its picture when a window was found
    or when the scan ends without a code, and none otherwise. *)
Definition pictures (num Pixels Bitmap : Type) (B : Browser num Pixels Bitmap)
    (k : completion) (l : list (site num)) (cv : HTMLCanvasElement num Pixels)
  : list (option string) :=
  match k with
  | Return true =>
      match last l (Native num) with
      | Window _ _ _ _ _ _ => [or_null (toDataURL B cv)]
      | _ => []
      end
  | Return false => [Some (toDataURL B cv)]
  | _ => []
  end.

(** The debug canvas, sized as the image, shows the image, the outlines of
    the windows probed so far and the mark of the window found; the images
    handed over are pictures of it. *)
Definition canvas_shows (num : Type) {NUM : JSNumber num}
    (Pixels Bitmap : Type) (B : Browser num Pixels Bitmap)
    (imageData : ImageData Pixels) (k : completion) (w : world num Pixels)
  : Prop :=
  exists cv,
    debugCanvas w = Some cv
    /\ cv_width cv = width imageData
    /\ cv_height cv = height imageData
    /\ cv_2d cv = true
    /\ cv_ops cv = PutImageData num imageData
                     :: outlines Pixels (probes w)
                     ++ found_mark Pixels k (probes w)
    /\ debugImages w = pictures B k (probes w) cv.

(* ================================================================== *)
(** ** Decoded payloads

    [parseWifiString] (utils/wifiParser.ts), [handleDecode]
    (utils/handleDecode.ts) and the [handleDecode] of the QRReader
    component.  A JS string is modelled as a [string], a sequence of code
    units below 256; on such strings the line terminators that [.] of a
    regular expression refuses are LF and CR. *)

Open Scope string_scope.

(** [s.substring(n)] *)
Fixpoint dropString (n : nat) (s : string) : string :=
  match n, s with
  | O, _ => s
  | S n', String _ s' => dropString n' s'
  | S _, EmptyString => EmptyString
  end.

(** [s.split(sep)] for a separator of one code unit. *)
Fixpoint splitString (sep : Ascii.ascii) (s : string) : list string :=
  match s with
  | EmptyString => [EmptyString]
  | String c s' =>
      if Ascii.eqb c sep then EmptyString :: splitString sep s'
      else match splitString sep s' with
           | field :: fields => String c field :: fields
           | [] => [String c EmptyString]
           end
  end.

(** A string as a condition: the empty string is falsy. *)
Definition nonEmpty (s : string) : bool := negb (String.eqb s EmptyString).

(** The [WifiCredentials] interface, over the values its fields hold. *)
Record WifiCredentials (V : Type) : Type := {
  ssid : V;
  type : V;
  password : option V;
  encryptionType : option V
}.

(** [Partial<WifiCredentials>] as [parseWifiString] fills it. *)
Record PartialCredentials : Type := {
  partial_ssid : option string;
  partial_type : option string;
  partial_password : option string
}.

(** The body of [fields.forEach] (wifiParser.ts, lines 12-23), on the
    credentials collected so far and [ssidFound]. *)
Definition wifiField (acc : PartialCredentials * bool) (field : string)
  : PartialCredentials * bool :=
  let '(credentials, ssidFound) := acc in
  if String.prefix "S:" field then
    ({| partial_ssid := Some (dropString 2 field);
        partial_type := partial_type credentials;
        partial_password := partial_password credentials |}, true)
  else if String.prefix "T:" field then
    ({| partial_ssid := partial_ssid credentials;
        partial_type := Some (dropString 2 field);
        partial_password := partial_password credentials |}, ssidFound)
  else if String.prefix "P:" field then
    ({| partial_ssid := partial_ssid credentials;
        partial_type := partial_type credentials;
        partial_password := Some (dropString 2 field) |}, ssidFound)
  else (credentials, ssidFound).

(** [parseWifiString] (wifiParser.ts). *)
Definition parseWifiString (data : string) : option (WifiCredentials string) :=
  if negb (String.prefix "WIFI:" data) then None
  else
    let fields := splitString ";"%char (dropString 5 data) in
    let '(credentials, ssidFound) :=
      fold_left wifiField fields
                ({| partial_ssid := None; partial_type := None;
                    partial_password := None |}, false) in
    match partial_ssid credentials with
    | Some s =>
        if ssidFound && nonEmpty s then
          Some {| ssid := s;
                  type := match partial_type credentials with
                          | Some t => if nonEmpty t then t else "nopass"%string
                          | None => "nopass"%string
                          end;
                  password := partial_password credentials;
                  encryptionType := None |}
        else None
    | None => None
    end.

(** What [JSON.parse] returns. *)
#[local] Set Warnings "-register-all".
Inductive json : Type :=
| JNull
| JBool (b : bool)
| JNumber (x : float)
| JString (s : string)
| JArray (items : list json)
| JObject (members : list (string * json)).

(** A value read off a property: [None] is [undefined]. *)
Definition jsvalue : Type := option json.

(** [v.key] for a value that is not null.  Of the members of an object
    with one key the last stands. *)
Definition getMember (v : json) (key : string) : jsvalue :=
  match v with
  | JObject members =>
      fold_left (fun found m => if String.eqb (fst m) key then Some (snd m)
                                else found)
                members None
  | _ => None
  end.

(** A value as a condition. *)
Definition truthy (v : jsvalue) : bool :=
  match v with
  | None | Some JNull => false
  | Some (JBool b) => b
  | Some (JNumber x) => negb (PrimFloat.eqb x 0) && PrimFloat.eqb x x
  | Some (JString s) => nonEmpty s
  | Some (JArray _) | Some (JObject _) => true
  end.

(** [v || d] *)
Definition orElseValue (v d : jsvalue) : jsvalue := if truthy v then v else d.

(** [.] of a regular expression without the [s] flag refuses these. *)
Definition lineTerminator (c : Ascii.ascii) : bool :=
  Ascii.eqb c "010"%char || Ascii.eqb c "013"%char.

(** [(.*?);] at the head of [s]: the text before the first [;], when no
    line terminator comes before it. *)
Fixpoint lazyUntilSemicolon (s : string) : option string :=
  match s with
  | EmptyString => None
  | String c s' =>
      if Ascii.eqb c ";"%char then Some EmptyString
      else if lineTerminator c then None
      else match lazyUntilSemicolon s' with
           | Some captured => Some (String c captured)
           | None => None
           end
  end.

(** [s.match(/X:(.*?);/)] for [tag] the text "X:": the capture of the
    leftmost match, [None] when there is none. *)
Fixpoint matchTag (tag : string) (s : string) : option string :=
  match (if String.prefix tag s
         then lazyUntilSemicolon (dropString (String.length tag) s)
         else None) with
  | Some captured => Some captured
  | None =>
      match s with
      | EmptyString => None
      | String _ s' => matchTag tag s'
      end
  end.

(** [DecodedDataType] without its [null]. *)
Inductive DecodedDataType : Type := Text | Url | Wifi | Json.

Record HandleDecodeResult : Type := {
  decodedData : string;
  dataType : DecodedDataType;
  wifiCredentials : option (WifiCredentials jsvalue)
}.

(** The credentials read off a JSON value (handleDecode.ts, lines 19-24,
    and QRReader.tsx, lines 89-94). *)
Definition jsonCredentials (jsonData : json) : WifiCredentials jsvalue :=
  {| ssid := getMember jsonData "ssid";
     password := Some (getMember jsonData "password");
     type := orElseValue (getMember jsonData "type") (Some (JString "WPA"));
     encryptionType :=
       Some (orElseValue (getMember jsonData "encryptionType")
                         (Some (JString "WPA"))) |}.

(** The credentials read off the matches of a WIFI: string
    (handleDecode.ts, lines 45-50, and QRReader.tsx, lines 108-113). *)
Definition matchedCredentials (ssidMatch passwordMatch : string)
    (typeMatch : option string) : WifiCredentials jsvalue :=
  {| ssid := Some (JString ssidMatch);
     password := Some (Some (JString passwordMatch));
     type := match typeMatch with
             | Some t => Some (JString t)
             | None => Some (JString "WPA")
             end;
     encryptionType := Some (match typeMatch with
                             | Some t => Some (JString t)
                             | None => Some (JString "WPA")
                             end) |}.

(** The [catch] block of [handleDecode] (handleDecode.ts, lines 33-76). *)
Definition handleDecode_catch (data : string) : HandleDecodeResult :=
  if String.prefix "WIFI:" data then
    match matchTag "S:" data, matchTag "P:" data with
    | Some ssidMatch, Some passwordMatch =>
        {| decodedData := data; dataType := Wifi;
           wifiCredentials :=
             Some (matchedCredentials ssidMatch passwordMatch
                                      (matchTag "T:" data)) |}
    | _, _ =>
        {| decodedData := data; dataType := Wifi; wifiCredentials := None |}
    end
  else if String.prefix "http://" data || String.prefix "https://" data then
    {| decodedData := data; dataType := Url; wifiCredentials := None |}
  else
    {| decodedData := data; dataType := Text; wifiCredentials := None |}.

(** [handleDecode] (handleDecode.ts).  [JSON_parse] is [JSON.parse], [None]
    when it throws; reading [jsonData.ssid] throws when [jsonData] is
    null, and the [catch] block takes over as well. *)
Definition handleDecode (JSON_parse : string -> option json) (data : string)
  : HandleDecodeResult :=
  match JSON_parse data with
  | None | Some JNull => handleDecode_catch data
  | Some jsonData =>
      if truthy (getMember jsonData "ssid")
         && truthy (getMember jsonData "password")
      then {| decodedData := data; dataType := Json;
              wifiCredentials := Some (jsonCredentials jsonData) |}
      else {| decodedData := data; dataType := Json;
              wifiCredentials := None |}
  end.

(** [text] occurs in [s]: [s.indexOf(text) !== -1]. *)
Fixpoint occursIn (text s : string) : bool :=
  String.prefix text s
  || match s with
     | EmptyString => false
     | String _ s' => occursIn text s'
     end.

(** The code unit [c] occurs in [s]. *)
Fixpoint hasChar (c : Ascii.ascii) (s : string) : bool :=
  match s with
  | EmptyString => false
  | String c' s' => Ascii.eqb c' c || hasChar c s'
  end.

(** [s] has no [;] and no line terminator: [(.*?);] runs through it. *)
Fixpoint plainValue (s : string) : bool :=
  match s with
  | EmptyString => true
  | String c s' =>
      negb (Ascii.eqb c ";"%char) && negb (lineTerminator c) && plainValue s'
  end.

(** The last of the [fields] that starts with [tag], without the tag. *)
Definition lastField (tag : string) (fields : list string) : option string :=
  fold_left (fun found field =>
               if String.prefix tag field
               then Some (dropString (String.length tag) field) else found)
            fields None.

(* ================================================================== *)
(** ** The QRReader component

    The state of components/QRReader.tsx that the file and paste handlers
    write, and the handlers themselves with [processImageFile]
    (utils/imageProcessor.ts) and [processPdf] (utils/pdfProcessor.ts) as
    the component calls them: the callbacks they are given are the
    component's state setters and its [handleDecode].  A state setter
    replaces the value; a handler is followed from its start to its end,
    no other handler running in between. *)

Record PdfProcessingState : Type := {
  processing : bool;
  message : string;
  currentPage : nat;
  totalPages : nat
}.

Record QRReaderState : Type := {
  st_decodedData : option string;
  st_dataType : option DecodedDataType;
  st_wifiCredentials : option (WifiCredentials jsvalue);
  st_error : option string;
  st_isLoading : bool;
  st_pdfProcessingState : PdfProcessingState;
  st_debugImage : option string
}.

Definition setDecodedData (v : option string) (st : QRReaderState)
  : QRReaderState :=
  {| st_decodedData := v; st_dataType := st_dataType st;
     st_wifiCredentials := st_wifiCredentials st; st_error := st_error st;
     st_isLoading := st_isLoading st;
     st_pdfProcessingState := st_pdfProcessingState st;
     st_debugImage := st_debugImage st |}.

Definition setDataType (v : option DecodedDataType) (st : QRReaderState)
  : QRReaderState :=
  {| st_decodedData := st_decodedData st; st_dataType := v;
     st_wifiCredentials := st_wifiCredentials st; st_error := st_error st;
     st_isLoading := st_isLoading st;
     st_pdfProcessingState := st_pdfProcessingState st;
     st_debugImage := st_debugImage st |}.

Definition setWifiCredentials (v : option (WifiCredentials jsvalue))
    (st : QRReaderState) : QRReaderState :=
  {| st_decodedData := st_decodedData st; st_dataType := st_dataType st;
     st_wifiCredentials := v; st_error := st_error st;
     st_isLoading := st_isLoading st;
     st_pdfProcessingState := st_pdfProcessingState st;
     st_debugImage := st_debugImage st |}.

Definition setError (v : option string) (st : QRReaderState) : QRReaderState :=
  {| st_decodedData := st_decodedData st; st_dataType := st_dataType st;
     st_wifiCredentials := st_wifiCredentials st; st_error := v;
     st_isLoading := st_isLoading st;
     st_pdfProcessingState := st_pdfProcessingState st;
     st_debugImage := st_debugImage st |}.

Definition setIsLoading (v : bool) (st : QRReaderState) : QRReaderState :=
  {| st_decodedData := st_decodedData st; st_dataType := st_dataType st;
     st_wifiCredentials := st_wifiCredentials st; st_error := st_error st;
     st_isLoading := v;
     st_pdfProcessingState := st_pdfProcessingState st;
     st_debugImage := st_debugImage st |}.

Definition setPdfProcessingState (v : PdfProcessingState) (st : QRReaderState)
  : QRReaderState :=
  {| st_decodedData := st_decodedData st; st_dataType := st_dataType st;
     st_wifiCredentials := st_wifiCredentials st; st_error := st_error st;
     st_isLoading := st_isLoading st;
     st_pdfProcessingState := v;
     st_debugImage := st_debugImage st |}.

Definition setDebugImage (v : option string) (st : QRReaderState)
  : QRReaderState :=
  {| st_decodedData := st_decodedData st; st_dataType := st_dataType st;
     st_wifiCredentials := st_wifiCredentials st; st_error := st_error st;
     st_isLoading := st_isLoading st;
     st_pdfProcessingState := st_pdfProcessingState st;
     st_debugImage := v |}.

(** The [catch] block of the component's [handleDecode] (QRReader.tsx,
    lines 96-124). *)
Definition QRReader_handleDecode_catch (data : string) (st : QRReaderState)
  : QRReaderState :=
  let st := setDataType None st in
  if String.prefix "WIFI:" data then
    let st := setDataType (Some Wifi) st in
    match matchTag "S:" data, matchTag "P:" data with
    | Some ssidMatch, Some passwordMatch =>
        setWifiCredentials
          (Some (matchedCredentials ssidMatch passwordMatch
                                    (matchTag "T:" data))) st
    | _, _ => st
    end
  else if String.prefix "http://" data || String.prefix "https://" data then
    setDataType (Some Url) st
  else setDataType (Some Text) st.

(** [handleDecode] of components/QRReader.tsx (lines 80-125). *)
Definition QRReader_handleDecode (JSON_parse : string -> option json)
    (data : string) (st : QRReaderState) : QRReaderState :=
  let st := setDecodedData (Some data) st in
  match JSON_parse data with
  | None => QRReader_handleDecode_catch data st
  | Some jsonData =>
      let st := setDataType (Some Json) st in
      match jsonData with
      | JNull => QRReader_handleDecode_catch data st
      | _ =>
          if truthy (getMember jsonData "ssid")
             && truthy (getMember jsonData "password")
          then setWifiCredentials (Some (jsonCredentials jsonData)) st
          else st
      end
  end.

(** What the component shows of a payload: [decodedData], [dataType] and
    [wifiCredentials]. *)
Definition shown (st : QRReaderState)
  : option string * option DecodedDataType
    * option (WifiCredentials jsvalue) :=
  (st_decodedData st, st_dataType st, st_wifiCredentials st).

(** The same three, as a result of the [handleDecode] of
    utils/handleDecode.ts gives them. *)
Definition resultOf (r : HandleDecodeResult)
  : option string * option DecodedDataType
    * option (WifiCredentials jsvalue) :=
  (Some (decodedData r), Some (dataType r), wifiCredentials r).

(** [{ processing: false, message: '', currentPage: 0, totalPages: 0 }] *)
Definition idlePdfState : PdfProcessingState :=
  {| processing := false; message := ""; currentPage := 0; totalPages := 0 |}.

(** The resets at the head of [handleFileChange] and [handlePaste]. *)
Definition resetState (st : QRReaderState) : QRReaderState :=
  setPdfProcessingState idlePdfState
    (setWifiCredentials None
       (setDataType None (setDecodedData None (setError None st)))).

(** [`${n}`] for a page number. *)
Definition decimal (n : nat) : string :=
  NilEmpty.string_of_uint (Nat.to_uint n).

(** What a rejected promise or a [throw] carries: an [Error] with its
    [message], or some other value. *)
Inductive thrown : Type :=
| ErrorObject (msg : string)
| OtherValue.

(** [pdfError.message || 'Could not read PDF file.'] and its [else]
    (pdfProcessor.ts, lines 129-133). *)
Definition pdfErrorMessage (e : thrown) : string :=
  match e with
  | ErrorObject msg => if nonEmpty msg then msg else "Could not read PDF file."
  | OtherValue => "An unknown error occurred while reading the PDF."
  end.

(** How the page loop of [processPdf] is left. *)
Inductive pdfLoop : Type :=
| LoopEnds (qrFound : bool)   (* by its guard or by [break] *)
| LoopThrows (e : thrown)     (* a rejection reaches the outer [catch] *)
| LoopStuck (c : completion). (* the scan of a page does not return *)

Section Component.

Variable num : Type.
Context {NUM : JSNumber num}.
Variables Pixels Bitmap : Type.
Variable B : Browser num Pixels Bitmap.
Variable JSON_parse : string -> option json.
Variable scannerSettings : ScannerSettings num.
Variable F : nat.

                            (* None: [drawImage] or [getImageData] throws *)


(** What one page of a document comes to. *)
Inductive PdfPage : Type :=
| GetPageRejects (e : thrown)  (* [pdf.getPage] rejects or [getViewport] throws *)
| NoCanvas                     (* [canvasRef.current] or its context is missing *)
| RenderRejects (e : thrown)   (* [page.render(...).promise] rejects *)
| GrabThrows                   (* [context.getImageData] throws *)
| Rendered (imageData : ImageData Pixels).

(** What the result of [reader.readAsArrayBuffer] and [pdfjs.getDocument]
    on it come to. *)
Inductive PdfLoad : Type :=
| NotArrayBuffer               (* the result is missing or no ArrayBuffer *)
| GetDocumentThrows            (* [pdfjs.getDocument] throws *)
| DocumentRejects (e : thrown) (* [loadingTask.promise] rejects *)
| Document (pages : list PdfPage).

(** What [reader.readAsArrayBuffer] comes to. *)
Inductive PdfRead : Type :=
| PdfReadFails                 (* [reader.onerror] *)
| PdfReadLoads (load : PdfLoad).

(** The effects of a scan on the component: [onDecode] is the component's
    [handleDecode] and [onDebugImage] its [setDebugImage]; the two write
    different parts of the state. *)
Definition deliver (w : world num Pixels) (st : QRReaderState)
  : QRReaderState :=
  fold_left (fun st url => setDebugImage url st) (debugImages w)
    (fold_left (fun st data => QRReader_handleDecode JSON_parse data st)
               (decoded w) st).

(** A call of [scanWithSlidingWindow] by the component: how it is left, the
    state after it, and the debug canvas as the scan leaves it. *)
Definition scanFor (imageData : ImageData Pixels)
    (debugCanvasRef : option (HTMLCanvasElement num Pixels))
    (st : QRReaderState)
  : completion * QRReaderState * option (HTMLCanvasElement num Pixels) :=
  let '(c, w) := scanWithSlidingWindow B imageData scannerSettings F
                                       debugCanvasRef in
  (c, deliver w st, debugCanvas w).



(** The loop over the pages (pdfProcessor.ts, lines 77-120), from page
    [pageNum] on; [pages] are the pages still to come. *)
Fixpoint processPages (pageNum numPages : nat) (pages : list PdfPage)
    (debugCanvasRef : option (HTMLCanvasElement num Pixels))
    (st : QRReaderState)
  : pdfLoop * QRReaderState * option (HTMLCanvasElement num Pixels) :=
  match pages with
  | [] => (LoopEnds false, st, debugCanvasRef)
  | page :: rest =>
      let st :=
        setPdfProcessingState
          {| message := "Processing page " ++ decimal pageNum ++ " of "
                        ++ decimal numPages;
             processing := true; currentPage := pageNum;
             totalPages := numPages |} st in
      match page with
      | GetPageRejects e => (LoopThrows e, st, debugCanvasRef)
      | NoCanvas =>
          (LoopEnds false, setError (Some "Could not prepare canvas.") st,
           debugCanvasRef)
      | RenderRejects e => (LoopThrows e, st, debugCanvasRef)
      | GrabThrows =>
          processPages (S pageNum) numPages rest debugCanvasRef
            (setError (Some ("Error processing page " ++ decimal pageNum
                             ++ ".")) st)
      | Rendered imageData =>
          match scanFor imageData debugCanvasRef st with
          | (Return true, st, ref) => (LoopEnds true, st, ref)
          | (Return false, st, ref) | (Normal, st, ref) =>
              processPages (S pageNum) numPages rest ref st
          | (Throw, st, ref) =>
              processPages (S pageNum) numPages rest ref
                (setError (Some ("Error processing page " ++ decimal pageNum
                                 ++ ".")) st)
          | (c, st, ref) => (LoopStuck c, st, ref)
          end
      end
  end.

(** Lines 138-139 and 144-145 of pdfProcessor.ts. *)
Definition pdfDone (st : QRReaderState) : QRReaderState :=
  setIsLoading false (setPdfProcessingState idlePdfState st).

(** [reader.onload] of [processPdf] (pdfProcessor.ts, lines 67-140). *)
Definition reader_onload (file : PdfLoad)
    (debugCanvasRef : option (HTMLCanvasElement num Pixels))
    (st : QRReaderState)
  : completion * QRReaderState * option (HTMLCanvasElement num Pixels) :=
  match file with
  | NotArrayBuffer =>
      (Normal, pdfDone (setError (Some "Could not read PDF file data.") st),
       debugCanvasRef)
  | GetDocumentThrows => (Throw, st, debugCanvasRef)
  | DocumentRejects e =>
      (Normal, pdfDone (setError (Some (pdfErrorMessage e)) st),
       debugCanvasRef)
  | Document pages =>
      let numPages := List.length pages in
      let st :=
        setPdfProcessingState
          {| message := "Processing pages..."; processing := true;
             currentPage := 0; totalPages := numPages |} st in
      match processPages 1 numPages pages debugCanvasRef st with
      | (LoopEnds true, st, ref) => (Normal, pdfDone st, ref)
      | (LoopEnds false, st, ref) =>
          (Normal,
           pdfDone (setError (Some "No QR code found in the PDF.") st), ref)
      | (LoopThrows e, st, ref) =>
          (Normal, pdfDone (setError (Some (pdfErrorMessage e)) st), ref)
      | (LoopStuck c, st, ref) => (c, st, ref)
      end
  end.

(** [processPdf] (pdfProcessor.ts); [pdfjs] tells whether the library is
    loaded. *)
Definition processPdf (pdfjs : bool) (file : PdfRead)
    (debugCanvasRef : option (HTMLCanvasElement num Pixels))
    (st : QRReaderState)
  : completion * QRReaderState * option (HTMLCanvasElement num Pixels) :=
  if negb pdfjs then
    (Normal,
     setError
       (Some "PDF processing library not loaded yet. Please try again in a moment.")
       st,
     debugCanvasRef)
  else
    let st :=
      setIsLoading true
        (setPdfProcessingState
           {| processing := true; message := "Reading PDF...";
              currentPage := 0; totalPages := 0 |}
           (setWifiCredentials None
              (setDataType None
                 (setDecodedData None (setError None (setDebugImage None st))))))
    in
    match file with
    | PdfReadFails =>
        (Normal,
         pdfDone (setError (Some "An error occurred while reading the file.")
                           st),
         debugCanvasRef)
    | PdfReadLoads load => reader_onload load debugCanvasRef st
    end.







(** How the scan of an image ends; the debug canvas has no part in it. *)
Definition scanResult (imageData : ImageData Pixels) : completion :=
  fst (scanWithSlidingWindow B imageData scannerSettings F None).

(** A page that is scanned and holds no code. *)
Definition quiet (page : PdfPage) : Prop :=
  match page with
  | Rendered imageData => scanResult imageData = Return false
  | _ => False
  end.

(** A page whose pixels cannot be read or whose scan throws. *)
Definition fails (page : PdfPage) : Prop :=
  match page with
  | GrabThrows => True
  | Rendered imageData => scanResult imageData = Throw
  | _ => False
  end.

(** A page after which the loop goes on to the next. *)
Definition passed_over (page : PdfPage) : Prop := quiet page \/ fails page.

End Component.

Close Scope string_scope.

(* ------------------------------------------------------------------ *)
(** ** Concrete documents *)

(** The state the component starts with (QRReader.tsx, lines 32-39). *)
Definition initialState : QRReaderState :=
  {| st_decodedData := None; st_dataType := None; st_wifiCredentials := None;
     st_error := None; st_isLoading := false;
     st_pdfProcessingState := idlePdfState; st_debugImage := None |}.

(** A decoder that finds a Wi-Fi code in a whole frame of 300 x 300 pixels
    and nowhere else. *)
Definition wifiOnSmallFrame : label -> jsqr_result :=
  finds [[300; 300; 0; 0; 300; 300]] "WIFI:T:WPA;S:mynet;P:secret;;".

(** A page of 600 x 600 pixels, on which that decoder finds nothing, and a
    page of 300 x 300 pixels, which it decodes. *)
Definition blankPage : PdfPage label := Rendered (mockImage 600 600).

Definition wifiPage : PdfPage label := Rendered (mockImage 300 300).

(* ------------------------------------------------------------------ *)
(** ** The settings panel

    [handleSettingChange] of components/QRReader.tsx and the changes that
    components/AdvancedOptions.tsx sends it. *)

(** A key of [ScannerSettings] with a value for it. *)
Inductive Setting (num : Type) : Type :=
| UseAdvancedScanning (value : bool)
| DebugMode (value : bool)
| MinScale (value : num)
| MaxScale (value : num)
| ScaleStep (value : num)
| WindowOverlap (value : num)
| WindowSizes (value : list Z).

Arguments UseAdvancedScanning {num} value.
Arguments DebugMode {num} value.
Arguments WindowSizes {num} value.

(** [handleSettingChange]: [{ ...prev, [setting]: value }]. *)
Definition handleSettingChange (num : Type) (change : Setting num)
    (prev : ScannerSettings num) : ScannerSettings num :=
  match change with
  | UseAdvancedScanning value =>
      {| useAdvancedScanning := value; debugMode := debugMode prev;
         minScale := minScale prev; maxScale := maxScale prev;
         scaleStep := scaleStep prev; windowOverlap := windowOverlap prev;
         windowSizes := windowSizes prev |}
  | DebugMode value =>
      {| useAdvancedScanning := useAdvancedScanning prev; debugMode := value;
         minScale := minScale prev; maxScale := maxScale prev;
         scaleStep := scaleStep prev; windowOverlap := windowOverlap prev;
         windowSizes := windowSizes prev |}
  | MinScale value =>
      {| useAdvancedScanning := useAdvancedScanning prev;
         debugMode := debugMode prev;
         minScale := value; maxScale := maxScale prev;
         scaleStep := scaleStep prev; windowOverlap := windowOverlap prev;
         windowSizes := windowSizes prev |}
  | MaxScale value =>
      {| useAdvancedScanning := useAdvancedScanning prev;
         debugMode := debugMode prev;
         minScale := minScale prev; maxScale := value;
         scaleStep := scaleStep prev; windowOverlap := windowOverlap prev;
         windowSizes := windowSizes prev |}
  | ScaleStep value =>
      {| useAdvancedScanning := useAdvancedScanning prev;
         debugMode := debugMode prev;
         minScale := minScale prev; maxScale := maxScale prev;
         scaleStep := value; windowOverlap := windowOverlap prev;
         windowSizes := windowSizes prev |}
  | WindowOverlap value =>
      {| useAdvancedScanning := useAdvancedScanning prev;
         debugMode := debugMode prev;
         minScale := minScale prev; maxScale := maxScale prev;
         scaleStep := scaleStep prev; windowOverlap := value;
         windowSizes := windowSizes prev |}
  | WindowSizes value =>
      {| useAdvancedScanning := useAdvancedScanning prev;
         debugMode := debugMode prev;
         minScale := minScale prev; maxScale := maxScale prev;
         scaleStep := scaleStep prev; windowOverlap := windowOverlap prev;
         windowSizes := value |}
  end.

(** The positions of the two sliders of AdvancedOptions.tsx: from 0.1 to
    1.0 in steps of 0.1, and from 1.0 to 4.0 in steps of 0.5. *)
Definition minScaleSlider : list float :=
  [0.1; 0.2; 0.3; 0.4; 0.5; 0.6; 0.7; 0.8; 0.9; 1]%float.

Definition maxScaleSlider : list float :=
  [1; 1.5; 2; 2.5; 3; 3.5; 4]%float.

(** A change that the panel sends: one of its two switches, or one of its
    two sliders at one of its positions. *)
Definition fromPanel (change : Setting float) : Prop :=
  match change with
  | UseAdvancedScanning _ | DebugMode _ => True
  | MinScale value => In value minScaleSlider
  | MaxScale value => In value maxScaleSlider
  | ScaleStep _ | WindowOverlap _ | WindowSizes _ => False
  end.

(** The settings after a series of changes, the first change first. *)
Definition settingsAfter (changes : list (Setting float))
  : ScannerSettings float :=
  fold_left (fun prev change => handleSettingChange change prev)
            changes defaultSettings.

(** The number of rounds of the scale loop from [scale] on, when the fuel
    is enough to see its guard fail. *)
Fixpoint scaleCount (num : Type) {NUM : JSNumber num}
    (scannerSettings : ScannerSettings num) (fuel : nat) (scale : num)
  : option nat :=
  if nleb scale (maxScale scannerSettings) then
    match fuel with
    | O => None
    | S fuel' =>
        option_map S
          (scaleCount scannerSettings fuel'
                      (nadd scale (scaleStep scannerSettings)))
    end
  else Some O.

(* ================================================================== *)
(** * Properties *)

(* ------------------------------------------------------------------ *)
(** ** The native pass and the gate *)

(** C1. When the decoder finds a payload in the unmodified input, the scan
    returns true after handing exactly that payload to [onDecode]; the only
    decode attempt is the native one, nothing is resampled, no scale is
    visited and no diagnostic image is emitted, whatever [debugMode] is. *)
Theorem native_pass_short_circuit :
  forall (num : Type) (NUM : JSNumber num) (Pixels Bitmap : Type)
         (B : Browser num Pixels Bitmap) (imageData : ImageData Pixels)
         (scannerSettings : ScannerSettings num) (F : nat)
         (debugCanvasRef : option (HTMLCanvasElement num Pixels)) (p : string),
    jsQR B (data imageData) (width imageData) (height imageData) = Code p ->
    scanWithSlidingWindow B imageData scannerSettings F debugCanvasRef =
      (Return true,
       {| debugCanvas := debugCanvasRef; probes := [Native num];
          resampled := []; visited := []; decoded := [p];
          debugImages := [] |}).
Proof.
  intros num NUM Pixels Bitmap B imageData scannerSettings F ref p Hnative.
  unfold scanWithSlidingWindow.
  rewrite Hnative.
  reflexivity.
Qed.

(** C9. With advanced scanning switched off and a native decode that finds
    nothing, the scan returns false having made the native attempt only:
    nothing is resampled and no window is probed, whatever the scale and
    window fields of the settings are. *)
Theorem advanced_scanning_disabled_stops :
  forall (num : Type) (NUM : JSNumber num) (Pixels Bitmap : Type)
         (B : Browser num Pixels Bitmap) (imageData : ImageData Pixels)
         (scannerSettings : ScannerSettings num) (F : nat)
         (debugCanvasRef : option (HTMLCanvasElement num Pixels)),
    useAdvancedScanning scannerSettings = false ->
    jsQR B (data imageData) (width imageData) (height imageData) = NoCode ->
    scanWithSlidingWindow B imageData scannerSettings F debugCanvasRef =
      (Return false,
       {| debugCanvas := debugCanvasRef; probes := [Native num];
          resampled := []; visited := []; decoded := [];
          debugImages := [] |}).
Proof.
  intros num NUM Pixels Bitmap B imageData scannerSettings F ref Hoff Hnative.
  unfold scanWithSlidingWindow.
  rewrite Hnative, Hoff.
  reflexivity.
Qed.

(** The native decode is outside any [try] block: when it throws, the
    exception leaves the function. *)
Lemma native_throw_escapes :
  forall (num : Type) (NUM : JSNumber num) (Pixels Bitmap : Type)
         (B : Browser num Pixels Bitmap) (imageData : ImageData Pixels)
         (scannerSettings : ScannerSettings num) (F : nat)
         (debugCanvasRef : option (HTMLCanvasElement num Pixels)),
    jsQR B (data imageData) (width imageData) (height imageData) = Throws ->
    fst (scanWithSlidingWindow B imageData scannerSettings F debugCanvasRef)
    = Throw.
Proof.
  intros num NUM Pixels Bitmap B imageData scannerSettings F ref Hnative.
  unfold scanWithSlidingWindow.
  rewrite Hnative.
  reflexivity.
Qed.

(* ------------------------------------------------------------------ *)
(** ** Diagnostics do not steer the scan *)

Section DebugIndependence.

Variable num : Type.
Context {NUM : JSNumber num}.
Variables Pixels Bitmap : Type.
Variable B : Browser num Pixels Bitmap.
Variable imageData : ImageData Pixels.
Variable scannerSettings : ScannerSettings num.
Variables d1 d2 : bool.

Local Notation W := (world num Pixels).

Lemma observable_draw (op : draw_op num Pixels) (w : W) :
  observable (draw op w) = observable w.
Proof.
  unfold draw. destruct (debugCanvas w); reflexivity.
Qed.

Lemma observable_onDebugImage (u : option string) (w : W) :
  observable (onDebugImage u w) = observable w.
Proof. reflexivity. Qed.

Lemma observable_log_probe (s : site num) (w1 w2 : W) :
  observable w1 = observable w2 ->
  observable (log_probe s w1) = observable (log_probe s w2).
Proof.
  unfold observable; simpl; intros H; inversion H; congruence.
Qed.

Lemma observable_onDecode (s : string) (w1 w2 : W) :
  observable w1 = observable w2 ->
  observable (onDecode s w1) = observable (onDecode s w2).
Proof.
  unfold observable; simpl; intros H; inversion H; congruence.
Qed.

Lemma observable_log_visit (s : num) (w1 w2 : W) :
  observable w1 = observable w2 ->
  observable (log_visit s w1) = observable (log_visit s w2).
Proof.
  unfold observable; simpl; intros H; inversion H; congruence.
Qed.

Lemma observable_log_resample (s : num) (a b : Z) (w1 w2 : W) :
  observable w1 = observable w2 ->
  observable (log_resample s a b w1) = observable (log_resample s a b w2).
Proof.
  unfold observable; simpl; intros H; inversion H; congruence.
Qed.

Lemma scanWindow_obs (c1 c2 : bool) scale sw sh bm windowSize x y (w1 w2 : W) :
  observable w1 = observable w2 ->
  same_obs
    (scanWindow B (withDebug d1 scannerSettings) c1 scale sw sh bm windowSize x y w1)
    (scanWindow B (withDebug d2 scannerSettings) c2 scale sw sh bm windowSize x y w2).
Proof.
  intros H. unfold scanWindow, same_obs.
  assert (Hp : forall (b1 b2 : bool) op,
             observable (log_probe (Window scale sw sh windowSize x y)
                                   (if b1 then draw op w1 else w1)) =
             observable (log_probe (Window scale sw sh windowSize x y)
                                   (if b2 then draw op w2 else w2))).
  { intros b1 b2 op. apply observable_log_probe.
    destruct b1, b2; rewrite ?observable_draw; assumption. }
  destruct (probe B bm x y windowSize windowSize) as [p| |];
    simpl; split; auto.
  pose proof (observable_onDecode p
                (Hp (c1 && d1) (c2 && d2)
                    (probed_rect Pixels scale windowSize x y))) as Hd.
  revert Hd.
  generalize (onDecode p (log_probe (Window scale sw sh windowSize x y)
                (if c1 && d1
                 then draw (probed_rect Pixels scale windowSize x y) w1
                 else w1))).
  generalize (onDecode p (log_probe (Window scale sw sh windowSize x y)
                (if c2 && d2
                 then draw (probed_rect Pixels scale windowSize x y) w2
                 else w2))).
  intros u2 u1 Hd.
  destruct (c1 && d1), (c2 && d2);
    rewrite ?observable_onDebugImage, ?observable_draw; assumption.
Qed.

Lemma loopX_obs (c1 c2 : bool) scale sw sh bm windowSize stepSize y :
  forall fuel x (w1 w2 : W),
    observable w1 = observable w2 ->
    same_obs
      (loopX B (withDebug d1 scannerSettings) c1 scale sw sh bm fuel
             windowSize stepSize y x w1)
      (loopX B (withDebug d2 scannerSettings) c2 scale sw sh bm fuel
             windowSize stepSize y x w2).
Proof.
  induction fuel as [|fuel IH]; intros x w1 w2 H; simpl;
    destruct (x <=? sw - windowSize); try (split; [reflexivity|assumption]).
  destruct (scanWindow_obs c1 c2 scale sw sh bm windowSize x y H) as [Hc Ho].
  destruct (scanWindow B (withDebug d1 scannerSettings) c1 scale sw sh bm
                       windowSize x y w1) as [k1 v1].
  destruct (scanWindow B (withDebug d2 scannerSettings) c2 scale sw sh bm
                       windowSize x y w2) as [k2 v2].
  simpl in Hc, Ho. subst k2.
  destruct k1; try (split; [reflexivity|assumption]).
  apply IH, Ho.
Qed.

Lemma loopY_obs (c1 c2 : bool) scale sw sh bm F windowSize stepSize :
  forall fuel y (w1 w2 : W),
    observable w1 = observable w2 ->
    same_obs
      (loopY B (withDebug d1 scannerSettings) c1 scale sw sh bm F fuel
             windowSize stepSize y w1)
      (loopY B (withDebug d2 scannerSettings) c2 scale sw sh bm F fuel
             windowSize stepSize y w2).
Proof.
  induction fuel as [|fuel IH]; intros y w1 w2 H; simpl;
    destruct (y <=? sh - windowSize); try (split; [reflexivity|assumption]).
  destruct (loopX_obs c1 c2 scale sw sh bm windowSize stepSize y F 0 H)
    as [Hc Ho].
  destruct (loopX B (withDebug d1 scannerSettings) c1 scale sw sh bm F
                  windowSize stepSize y 0 w1) as [k1 v1].
  destruct (loopX B (withDebug d2 scannerSettings) c2 scale sw sh bm F
                  windowSize stepSize y 0 w2) as [k2 v2].
  simpl in Hc, Ho. subst k2.
  destruct k1; try (split; [reflexivity|assumption]).
  apply IH, Ho.
Qed.

Lemma loopSizes_obs (c1 c2 : bool) scale sw sh bm F :
  forall sizes (w1 w2 : W),
    observable w1 = observable w2 ->
    same_obs
      (loopSizes B (withDebug d1 scannerSettings) c1 scale sw sh bm F sizes w1)
      (loopSizes B (withDebug d2 scannerSettings) c2 scale sw sh bm F sizes w2).
Proof.
  induction sizes as [|windowSize rest IH]; intros w1 w2 H; simpl;
    try (split; [reflexivity|assumption]).
  change (stepSizeOf (withDebug d1 scannerSettings) windowSize)
    with (stepSizeOf scannerSettings windowSize).
  change (stepSizeOf (withDebug d2 scannerSettings) windowSize)
    with (stepSizeOf scannerSettings windowSize).
  destruct (stepSizeOf scannerSettings windowSize) as [stepSize|];
    try (split; [reflexivity|assumption]).
  destruct (loopY_obs c1 c2 scale sw sh bm F windowSize stepSize F 0 H)
    as [Hc Ho].
  destruct (loopY B (withDebug d1 scannerSettings) c1 scale sw sh bm F F
                  windowSize stepSize 0 w1) as [k1 v1].
  destruct (loopY B (withDebug d2 scannerSettings) c2 scale sw sh bm F F
                  windowSize stepSize 0 w2) as [k2 v2].
  simpl in Hc, Ho. subst k2.
  destruct k1; try (split; [reflexivity|assumption]).
  apply IH, Ho.
Qed.

Lemma scanScale_obs (c1 c2 : bool) F scale (w1 w2 : W) :
  observable w1 = observable w2 ->
  same_obs
    (scanScale B imageData (withDebug d1 scannerSettings) F c1 scale w1)
    (scanScale B imageData (withDebug d2 scannerSettings) F c2 scale w2).
Proof.
  intros H. unfold scanScale.
  pose proof (observable_log_visit scale H) as Hv.
  destruct (scaledDims imageData scale) as [[sw sh]|];
    try (split; [reflexivity|assumption]).
  destruct ((sw <=? 0) || (sh <=? 0));
    try (split; [reflexivity|assumption]).
  destruct (negb (getContext2d B sw sh));
    try (split; [reflexivity|assumption]).
  destruct (negb (getContext2d B (width imageData) (height imageData)));
    try (split; [reflexivity|assumption]).
  pose proof (observable_log_probe (Frame scale sw sh)
                (observable_log_resample scale sw sh Hv)) as Hf.
  destruct (probe B (drawImage B imageData sw sh) 0 0 sw sh).
  - split; [reflexivity|]. simpl. apply observable_onDecode, Hf.
  - apply loopSizes_obs, Hf.
  - apply loopSizes_obs, Hf.
Qed.

Lemma loopScale_obs (c1 c2 : bool) F :
  forall fuel scale (w1 w2 : W),
    observable w1 = observable w2 ->
    same_obs
      (loopScale B imageData (withDebug d1 scannerSettings) F fuel c1 scale w1)
      (loopScale B imageData (withDebug d2 scannerSettings) F fuel c2 scale w2).
Proof.
  induction fuel as [|fuel IH]; intros scale w1 w2 H; simpl;
    destruct (nleb scale (maxScale scannerSettings));
    try (split; [reflexivity|assumption]).
  destruct (scanScale_obs c1 c2 F scale H) as [Hc Ho].
  destruct (scanScale B imageData (withDebug d1 scannerSettings) F c1 scale w1)
    as [k1 v1].
  destruct (scanScale B imageData (withDebug d2 scannerSettings) F c2 scale w2)
    as [k2 v2].
  simpl in Hc, Ho. subst k2.
  destruct k1; try (split; [reflexivity|assumption]).
  apply IH, Ho.
Qed.

Lemma observable_debugSetup (d : bool) (w : W) :
  observable (snd (debugSetup imageData (withDebug d scannerSettings) w))
  = observable w.
Proof.
  unfold debugSetup. destruct (debugCanvas w) as [cv|]; [|reflexivity].
  destruct d; simpl; [|reflexivity].
  destruct (cv_2d cv); reflexivity.
Qed.

Lemma observable_debugFinish (d c : bool) (w : W) :
  observable (debugFinish B (withDebug d scannerSettings) c w) = observable w.
Proof.
  unfold debugFinish.
  destruct (c && debugMode (withDebug d scannerSettings)); [|reflexivity].
  destruct (debugCanvas w); reflexivity.
Qed.

Lemma scan_obs (F : nat) (ref1 ref2 : option (HTMLCanvasElement num Pixels)) :
  same_obs
    (scanWithSlidingWindow B imageData (withDebug d1 scannerSettings) F ref1)
    (scanWithSlidingWindow B imageData (withDebug d2 scannerSettings) F ref2).
Proof.
  unfold scanWithSlidingWindow.
  destruct (jsQR B (data imageData) (width imageData) (height imageData));
    try (split; reflexivity).
  change (useAdvancedScanning (withDebug d1 scannerSettings))
    with (useAdvancedScanning scannerSettings).
  change (useAdvancedScanning (withDebug d2 scannerSettings))
    with (useAdvancedScanning scannerSettings).
  destruct (negb (useAdvancedScanning scannerSettings));
    try (split; reflexivity).
  pose proof (observable_debugSetup d1 (initial ref1)) as H1.
  pose proof (observable_debugSetup d2 (initial ref2)) as H2.
  destruct (debugSetup imageData (withDebug d1 scannerSettings) (initial ref1))
    as [c1 v1].
  destruct (debugSetup imageData (withDebug d2 scannerSettings) (initial ref2))
    as [c2 v2].
  simpl in H1, H2.
  change (minScale (withDebug d1 scannerSettings))
    with (minScale scannerSettings).
  change (minScale (withDebug d2 scannerSettings))
    with (minScale scannerSettings).
  assert (H : observable v1 = observable v2)
    by (rewrite H1, H2; reflexivity).
  destruct (loopScale_obs c1 c2 F F (minScale scannerSettings) H) as [Hc Ho].
  destruct (loopScale B imageData (withDebug d1 scannerSettings) F F c1
                      (minScale scannerSettings) v1) as [k1 u1].
  destruct (loopScale B imageData (withDebug d2 scannerSettings) F F c2
                      (minScale scannerSettings) v2) as [k2 u2].
  simpl in Hc, Ho. subst k2.
  destruct k1; try (split; [reflexivity|assumption]).
  split; [reflexivity|]. simpl.
  rewrite !observable_debugFinish. assumption.
Qed.

End DebugIndependence.

(** C10. Two runs on the same image that differ only in [debugMode] end the
    same way (the same return value, or both still running, or both thrown
    out of) and hand the same payloads to [onDecode]; they also make the
    same decode attempts, resample the same frames and visit the same
    scales.  Only the diagnostic output can differ. *)
Theorem debug_mode_does_not_change_result :
  forall (num : Type) (NUM : JSNumber num) (Pixels Bitmap : Type)
         (B : Browser num Pixels Bitmap) (imageData : ImageData Pixels)
         (scannerSettings : ScannerSettings num) (F : nat)
         (debugCanvasRef : option (HTMLCanvasElement num Pixels)),
    let on := scanWithSlidingWindow B imageData
                (withDebug true scannerSettings) F debugCanvasRef in
    let off := scanWithSlidingWindow B imageData
                 (withDebug false scannerSettings) F debugCanvasRef in
    fst on = fst off
    /\ decoded (snd on) = decoded (snd off)
    /\ probes (snd on) = probes (snd off)
    /\ resampled (snd on) = resampled (snd off)
    /\ visited (snd on) = visited (snd off).
Proof.
  intros num NUM Pixels Bitmap B imageData scannerSettings F ref on off.
  destruct (scan_obs B imageData scannerSettings true false F ref ref)
    as [Hc Ho].
  fold on in Hc, Ho. fold off in Hc, Ho.
  unfold observable in Ho. inversion Ho.
  repeat split; assumption.
Qed.

(* ------------------------------------------------------------------ *)
(** ** A probe that throws is a probe that finds nothing *)

Section CaughtProbes.

Variable num : Type.
Context {NUM : JSNumber num}.
Variables Pixels Bitmap : Type.
Variables B1 B2 : Browser num Pixels Bitmap.
Variable imageData : ImageData Pixels.
Variable scannerSettings : ScannerSettings num.
Hypothesis alike : caught_alike B1 B2.

Local Notation W := (world num Pixels).

Lemma debug_url_alike (w : W) : debug_url B1 w = debug_url B2 w.
Proof.
  unfold debug_url. destruct (debugCanvas w); [|reflexivity].
  rewrite (alike_url alike). reflexivity.
Qed.

Lemma scanWindow_alike c scale sw sh bm windowSize x y (w : W) :
  scanWindow B1 scannerSettings c scale sw sh bm windowSize x y w =
  scanWindow B2 scannerSettings c scale sw sh bm windowSize x y w.
Proof.
  unfold scanWindow.
  pose proof (alike_probe alike bm x y windowSize windowSize) as Hp.
  destruct (probe B1 bm x y windowSize windowSize),
           (probe B2 bm x y windowSize windowSize);
    simpl in Hp; try discriminate; try reflexivity.
  injection Hp as ->. rewrite debug_url_alike. reflexivity.
Qed.

Lemma loopX_alike c scale sw sh bm windowSize stepSize y :
  forall fuel x (w : W),
    loopX B1 scannerSettings c scale sw sh bm fuel windowSize stepSize y x w =
    loopX B2 scannerSettings c scale sw sh bm fuel windowSize stepSize y x w.
Proof.
  induction fuel as [|fuel IH]; intros x w; simpl; [reflexivity|].
  rewrite scanWindow_alike.
  destruct (x <=? sw - windowSize); [|reflexivity].
  destruct (scanWindow B2 scannerSettings c scale sw sh bm windowSize x y w)
    as [k v].
  destruct k; try reflexivity. apply IH.
Qed.

Lemma loopY_alike c scale sw sh bm F windowSize stepSize :
  forall fuel y (w : W),
    loopY B1 scannerSettings c scale sw sh bm F fuel windowSize stepSize y w =
    loopY B2 scannerSettings c scale sw sh bm F fuel windowSize stepSize y w.
Proof.
  induction fuel as [|fuel IH]; intros y w; simpl; [reflexivity|].
  rewrite loopX_alike.
  destruct (y <=? sh - windowSize); [|reflexivity].
  destruct (loopX B2 scannerSettings c scale sw sh bm F windowSize stepSize
                  y 0 w) as [k v].
  destruct k; try reflexivity. apply IH.
Qed.

Lemma loopSizes_alike c scale sw sh bm F :
  forall sizes (w : W),
    loopSizes B1 scannerSettings c scale sw sh bm F sizes w =
    loopSizes B2 scannerSettings c scale sw sh bm F sizes w.
Proof.
  induction sizes as [|windowSize rest IH]; intros w; simpl; [reflexivity|].
  destruct (stepSizeOf scannerSettings windowSize) as [stepSize|];
    [|reflexivity].
  rewrite loopY_alike.
  destruct (loopY B2 scannerSettings c scale sw sh bm F F windowSize stepSize
                  0 w) as [k v].
  destruct k; try reflexivity. apply IH.
Qed.

Lemma scanScale_alike F c scale (w : W) :
  scanScale B1 imageData scannerSettings F c scale w =
  scanScale B2 imageData scannerSettings F c scale w.
Proof.
  unfold scanScale.
  destruct (scaledDims imageData scale) as [[sw sh]|]; [|reflexivity].
  rewrite !(alike_context alike), (alike_draw alike).
  pose proof (alike_probe alike (drawImage B2 imageData sw sh) 0 0 sw sh)
    as Hp.
  destruct ((sw <=? 0) || (sh <=? 0)); [reflexivity|].
  destruct (negb (getContext2d B2 sw sh)); [reflexivity|].
  destruct (negb (getContext2d B2 (width imageData) (height imageData)));
    [reflexivity|].
  destruct (probe B1 (drawImage B2 imageData sw sh) 0 0 sw sh),
           (probe B2 (drawImage B2 imageData sw sh) 0 0 sw sh);
    simpl in Hp; try discriminate; try apply loopSizes_alike.
  injection Hp as ->. reflexivity.
Qed.

Lemma loopScale_alike F c :
  forall fuel scale (w : W),
    loopScale B1 imageData scannerSettings F fuel c scale w =
    loopScale B2 imageData scannerSettings F fuel c scale w.
Proof.
  induction fuel as [|fuel IH]; intros scale w; simpl; [reflexivity|].
  rewrite scanScale_alike.
  destruct (nleb scale (maxScale scannerSettings)); [|reflexivity].
  destruct (scanScale B2 imageData scannerSettings F c scale w) as [k v].
  destruct k; try reflexivity. apply IH.
Qed.

Lemma debugFinish_alike c (w : W) :
  debugFinish B1 scannerSettings c w = debugFinish B2 scannerSettings c w.
Proof.
  unfold debugFinish.
  destruct (c && debugMode scannerSettings); [|reflexivity].
  destruct (debugCanvas w); [|reflexivity].
  rewrite (alike_url alike). reflexivity.
Qed.

Lemma scan_alike F ref :
  jsQR B1 (data imageData) (width imageData) (height imageData) =
  jsQR B2 (data imageData) (width imageData) (height imageData) ->
  scanWithSlidingWindow B1 imageData scannerSettings F ref =
  scanWithSlidingWindow B2 imageData scannerSettings F ref.
Proof.
  intros Hnative. unfold scanWithSlidingWindow. rewrite Hnative.
  destruct (jsQR B2 (data imageData) (width imageData) (height imageData));
    try reflexivity.
  destruct (negb (useAdvancedScanning scannerSettings)); [reflexivity|].
  destruct (debugSetup imageData scannerSettings (initial ref)) as [c w1].
  rewrite loopScale_alike.
  destruct (loopScale B2 imageData scannerSettings F F c
                      (minScale scannerSettings) w1) as [k v].
  destruct k; try reflexivity.
  rewrite debugFinish_alike. reflexivity.
Qed.

End CaughtProbes.

(** C8. Take two browsers that agree on everything except that, on window
    and whole-resampled-frame probes, one may throw (from [getImageData] or
    from the decoder) where the other reports that there is no code.  When
    the native decode is the same in both, the two scans are the same run:
    the same return value, the same decode attempts in the same order, the
    same payload and the same diagnostics.  A throwing probe is thus one
    failed probe and the scan goes on past it. *)
Theorem throwing_probe_counts_as_not_found :
  forall (num : Type) (NUM : JSNumber num) (Pixels Bitmap : Type)
         (B1 B2 : Browser num Pixels Bitmap) (imageData : ImageData Pixels)
         (scannerSettings : ScannerSettings num) (F : nat)
         (debugCanvasRef : option (HTMLCanvasElement num Pixels)),
    caught_alike B1 B2 ->
    jsQR B1 (data imageData) (width imageData) (height imageData) =
    jsQR B2 (data imageData) (width imageData) (height imageData) ->
    scanWithSlidingWindow B1 imageData scannerSettings F debugCanvasRef =
    scanWithSlidingWindow B2 imageData scannerSettings F debugCanvasRef.
Proof.
  intros num NUM Pixels Bitmap B1 B2 imageData scannerSettings F ref
         Halike Hnative.
  apply scan_alike; assumption.
Qed.

(* ------------------------------------------------------------------ *)
(** ** The scan follows the probing order *)

Section ProbingOrder.

Variable num : Type.
Context {NUM : JSNumber num}.
Variables Pixels Bitmap : Type.
Variable B : Browser num Pixels Bitmap.
Variable imageData : ImageData Pixels.
Variable scannerSettings : ScannerSettings num.

Local Notation W := (world num Pixels).

Lemma firstSuccess_app (L1 L2 : list (site num)) :
  firstSuccess B imageData (L1 ++ L2) =
  match firstSuccess B imageData L1 with
  | Some x => Some x
  | None =>
      match firstSuccess B imageData L2 with
      | Some (pre, s, p) => Some (L1 ++ pre, s, p)
      | None => None
      end
  end.
Proof.
  induction L1 as [|a L1 IH]; simpl.
  - destruct (firstSuccess B imageData L2) as [[[pre s] p]|]; reflexivity.
  - destruct (outcome B imageData a); try reflexivity;
      rewrite IH;
      destruct (firstSuccess B imageData L1) as [[[pre s] p]|];
      try reflexivity;
      destruct (firstSuccess B imageData L2) as [[[pre s] p]|];
      reflexivity.
Qed.

Lemma firstSuccess_intro (pre rest : list (site num)) (s : site num) (p : string) :
  (forall s', In s' pre -> payload (outcome B imageData s') = None) ->
  outcome B imageData s = Code p ->
  firstSuccess B imageData (pre ++ s :: rest) = Some (pre, s, p).
Proof.
  intros Hpre Hs. induction pre as [|a pre IH]; simpl.
  - rewrite Hs. reflexivity.
  - pose proof (Hpre a (or_introl eq_refl)) as Ha.
    rewrite IH by (intros s' Hin; apply Hpre; right; assumption).
    destruct (outcome B imageData a); simpl in Ha;
      [discriminate | reflexivity | reflexivity].
Qed.

Lemma firstSuccess_none (L : list (site num)) :
  (forall s, In s L -> payload (outcome B imageData s) = None) ->
  firstSuccess B imageData L = None.
Proof.
  induction L as [|a L IH]; intros H; simpl; [reflexivity|].
  pose proof (H a (or_introl eq_refl)) as Ha.
  rewrite IH by (intros s Hin; apply H; right; assumption).
  destruct (outcome B imageData a); simpl in Ha;
    [discriminate | reflexivity | reflexivity].
Qed.

Lemma follows_nil (w : W) : follows B imageData [] w (Normal, w).
Proof.
  unfold follows; simpl. rewrite app_nil_r. auto.
Qed.

Lemma follows_skip (w w' : W) :
  probes w' = probes w -> decoded w' = decoded w ->
  follows B imageData [] w (Normal, w').
Proof.
  intros Hp Hd. unfold follows; simpl. rewrite app_nil_r. auto.
Qed.

Lemma follows_seq (L1 L2 : list (site num)) (w : W) (r1 r2 : completion * W) :
  follows B imageData L1 w r1 ->
  (fst r1 = Normal -> follows B imageData L2 (snd r1) r2) ->
  (fst r1 <> Normal -> r2 = r1) ->
  follows B imageData (L1 ++ L2) w r2.
Proof.
  unfold follows. rewrite firstSuccess_app.
  destruct (firstSuccess B imageData L1) as [[[pre s] p]|].
  - intros (Hc & Hp & Hd) _ Hab.
    assert (Hr : r2 = r1) by (apply Hab; rewrite Hc; discriminate).
    subst r2. auto.
  - intros (Hc & Hp & Hd) Hn _. specialize (Hn Hc).
    destruct (firstSuccess B imageData L2) as [[[pre s] p]|];
      destruct Hn as (Hc2 & Hp2 & Hd2); repeat split; auto.
    + rewrite Hp2, Hp, <- !app_assoc. reflexivity.
    + rewrite Hd2, Hd. reflexivity.
    + rewrite Hp2, Hp, app_assoc. reflexivity.
    + congruence.
Qed.

Lemma runList_follows (A : Type) (body : A -> W -> completion * W)
    (f : A -> list (site num)) (l : list A) :
  (forall a w, In a l -> follows B imageData (f a) w (body a w)) ->
  forall w, follows B imageData (flat_map f l) w (runList body l w).
Proof.
  induction l as [|a l IH]; intros Hb w; simpl.
  - apply follows_nil.
  - apply follows_seq with (r1 := body a w).
    + apply Hb. left. reflexivity.
    + intros Hn. destruct (body a w) as [c w']. simpl in Hn. subst c.
      apply IH. intros a' w'' Hin. apply Hb. right. assumption.
    + intros Hn. destruct (body a w) as [c w']. simpl in Hn.
      destruct c; congruence.
Qed.

(** *** A counting loop over [Z] is a run over the positions *)

Lemma forZ_done body fuel limit step v (w : W) :
  limit < v -> forZ body fuel limit step v w = (Normal, w).
Proof.
  intros H. destruct fuel; simpl;
    destruct (Z.leb_spec v limit); try lia; reflexivity.
Qed.

Lemma forZ_runList body (limit step : Z) :
  forall (n i fuel : nat) (w : W),
    (forall j, (i <= j < i + n)%nat -> Z.of_nat j * step <= limit) ->
    limit < Z.of_nat (i + n) * step ->
    (n <= fuel)%nat ->
    forZ body fuel limit step (Z.of_nat i * step) w =
    runList body (map (fun j => Z.of_nat j * step) (seq i n)) w.
Proof.
  induction n as [|n IH]; intros i fuel w Hin Hout Hfuel.
  - simpl. apply forZ_done. rewrite Nat.add_0_r in Hout. assumption.
  - destruct fuel as [|fuel]; [lia|]. simpl.
    destruct (Z.leb_spec (Z.of_nat i * step) limit) as [_|Hgt].
    2: { specialize (Hin i). lia. }
    destruct (body (Z.of_nat i * step) w) as [c w']. destruct c; try reflexivity.
    replace (Z.of_nat i * step + step) with (Z.of_nat (S i) * step) by lia.
    apply IH.
    + intros j Hj. apply Hin. lia.
    + replace (S i + n)%nat with (i + S n)%nat by lia. assumption.
    + lia.
Qed.

Lemma forZ_positions body (limit step : Z) (fuel : nat) (w : W) :
  1 <= step ->
  (List.length (positions limit step) <= fuel)%nat ->
  forZ body fuel limit step 0 w = runList body (positions limit step) w.
Proof.
  intros Hstep Hfuel. unfold positions in *.
  destruct (Z.leb_spec 0 limit) as [Hlim|Hlim].
  - rewrite length_map, length_seq in Hfuel.
    change 0 with (Z.of_nat 0 * step).
    pose proof (Z.div_pos limit step Hlim ltac:(lia)) as Hq.
    pose proof (Z.mul_div_le limit step ltac:(lia)) as Hlo.
    pose proof (Z.mul_succ_div_gt limit step ltac:(lia)) as Hhi.
    apply forZ_runList; try assumption.
    + intros j Hj.
      assert (Z.of_nat j <= limit / step) by lia. nia.
    + replace (Z.of_nat (0 + (Z.to_nat (limit / step) + 1)))
        with (Z.succ (limit / step)) by lia.
      lia.
  - simpl. apply forZ_done. lia.
Qed.

Lemma loopX_forZ c scale sw sh bm windowSize stepSize y :
  forall fuel x (w : W),
    loopX B scannerSettings c scale sw sh bm fuel windowSize stepSize y x w =
    forZ (fun x' => scanWindow B scannerSettings c scale sw sh bm windowSize x' y)
         fuel (sw - windowSize) stepSize x w.
Proof.
  induction fuel as [|fuel IH]; intros x w; simpl; [reflexivity|].
  destruct (x <=? sw - windowSize); [|reflexivity].
  destruct (scanWindow B scannerSettings c scale sw sh bm windowSize x y w)
    as [k v].
  destruct k; try reflexivity. apply IH.
Qed.

Lemma loopY_forZ c scale sw sh bm F windowSize stepSize :
  forall fuel y (w : W),
    loopY B scannerSettings c scale sw sh bm F fuel windowSize stepSize y w =
    forZ (fun y' => loopX B scannerSettings c scale sw sh bm F
                          windowSize stepSize y' 0)
         fuel (sh - windowSize) stepSize y w.
Proof.
  induction fuel as [|fuel IH]; intros y w; simpl; [reflexivity|].
  destruct (y <=? sh - windowSize); [|reflexivity].
  destruct (loopX B scannerSettings c scale sw sh bm F windowSize stepSize
                  y 0 w) as [k v].
  destruct k; try reflexivity. apply IH.
Qed.

(** *** Each block of the scan follows its part of the order *)

Lemma probes_draw (op : draw_op num Pixels) (w : W) :
  probes (draw op w) = probes w.
Proof. unfold draw. destruct (debugCanvas w); reflexivity. Qed.

Lemma decoded_draw (op : draw_op num Pixels) (w : W) :
  decoded (draw op w) = decoded w.
Proof. unfold draw. destruct (debugCanvas w); reflexivity. Qed.

Lemma map_as_flat_map (A C : Type) (f : A -> C) (l : list A) :
  map f l = flat_map (fun a => [f a]) l.
Proof. induction l as [|a l IH]; simpl; [|rewrite IH]; reflexivity. Qed.

Lemma scanWindow_follows c scale sw sh windowSize x y (w : W) :
  follows B imageData [Window scale sw sh windowSize x y] w
    (scanWindow B scannerSettings c scale sw sh (drawImage B imageData sw sh)
                windowSize x y w).
Proof.
  unfold follows, scanWindow. simpl.
  destruct (probe B (drawImage B imageData sw sh) x y windowSize windowSize);
    simpl;
    destruct (c && debugMode scannerSettings); simpl;
    rewrite ?probes_draw, ?decoded_draw; simpl;
    rewrite ?probes_draw, ?decoded_draw; auto.
Qed.

Lemma loopX_follows c scale sw sh fuel windowSize stepSize y (w : W) :
  1 <= stepSize ->
  (List.length (positions (sw - windowSize) stepSize) <= fuel)%nat ->
  follows B imageData (rowOrder scale sw sh windowSize stepSize y) w
    (loopX B scannerSettings c scale sw sh (drawImage B imageData sw sh)
           fuel windowSize stepSize y 0 w).
Proof.
  intros Hstep Hfuel.
  rewrite loopX_forZ, forZ_positions by assumption.
  unfold rowOrder. rewrite map_as_flat_map.
  apply runList_follows. intros x w' _. apply scanWindow_follows.
Qed.

Lemma loopY_follows c scale sw sh F windowSize stepSize (w : W) :
  1 <= stepSize ->
  (List.length (positions (sw - windowSize) stepSize) <= F)%nat ->
  (List.length (positions (sh - windowSize) stepSize) <= F)%nat ->
  follows B imageData (windowOrder scale sw sh windowSize stepSize) w
    (loopY B scannerSettings c scale sw sh (drawImage B imageData sw sh)
           F F windowSize stepSize 0 w).
Proof.
  intros Hstep HX HY.
  rewrite loopY_forZ, forZ_positions by assumption.
  unfold windowOrder.
  apply runList_follows. intros y w' _. apply loopX_follows; assumption.
Qed.

Lemma loopSizes_follows c scale sw sh :
  forall sizes,
    (forall windowSize, In windowSize sizes ->
       exists stepSize,
         stepSizeOf scannerSettings windowSize = Some stepSize /\ 1 <= stepSize) ->
    exists F0, forall F, (F0 <= F)%nat -> forall w : W,
      follows B imageData (sizesOrder scannerSettings scale sw sh sizes) w
        (loopSizes B scannerSettings c scale sw sh
                   (drawImage B imageData sw sh) F sizes w).
Proof.
  induction sizes as [|windowSize rest IH]; intros Hsteps.
  - exists 0%nat. intros F _ w. apply follows_nil.
  - destruct IH as [F0 IH].
    { intros ws Hin. apply Hsteps. right. assumption. }
    destruct (Hsteps windowSize (or_introl eq_refl)) as (stepSize & Hs & Hstep).
    exists (Nat.max F0
              (Nat.max (List.length (positions (sw - windowSize) stepSize))
                       (List.length (positions (sh - windowSize) stepSize)))).
    intros F HF w.
    change (sizesOrder scannerSettings scale sw sh (windowSize :: rest))
      with (match stepSizeOf scannerSettings windowSize with
            | Some stepSize => windowOrder scale sw sh windowSize stepSize
            | None => []
            end ++ sizesOrder scannerSettings scale sw sh rest).
    simpl loopSizes. rewrite Hs.
    apply follows_seq
      with (r1 := loopY B scannerSettings c scale sw sh
                        (drawImage B imageData sw sh) F F windowSize stepSize
                        0 w).
    + apply loopY_follows; lia.
    + intros Hn.
      destruct (loopY B scannerSettings c scale sw sh
                      (drawImage B imageData sw sh) F F windowSize stepSize 0 w)
        as [k v].
      simpl in Hn. subst k. apply IH. lia.
    + intros Hn.
      destruct (loopY B scannerSettings c scale sw sh
                      (drawImage B imageData sw sh) F F windowSize stepSize 0 w)
        as [k v].
      simpl in Hn. destruct k; congruence.
Qed.

Lemma scanScale_follows c scale :
  steps_advance scannerSettings ->
  scaledDims imageData scale <> None ->
  exists F0, forall F, (F0 <= F)%nat -> forall w : W,
    follows B imageData (scaleOrder B imageData scannerSettings scale) w
      (scanScale B imageData scannerSettings F c scale w).
Proof.
  intros Hsteps Hdims. unfold scaleOrder, scanScale, resamples.
  destruct (scaledDims imageData scale) as [[sw sh]|]; [|congruence].
  destruct (loopSizes_follows c scale sw sh (windowSizes scannerSettings) Hsteps)
    as [F0 Hsizes].
  exists F0. intros F HF w.
  destruct ((sw <=? 0) || (sh <=? 0)); simpl;
    [apply follows_skip; reflexivity|].
  destruct (getContext2d B sw sh); simpl;
    [|apply follows_skip; reflexivity].
  destruct (getContext2d B (width imageData) (height imageData)); simpl;
    [|apply follows_skip; reflexivity].
  specialize (Hsizes F HF
    (log_probe (Frame scale sw sh)
       (log_resample scale sw sh (log_visit scale w)))).
  unfold follows in *. simpl firstSuccess.
  destruct (probe B (drawImage B imageData sw sh) 0 0 sw sh); simpl.
  - auto.
  - destruct (firstSuccess B imageData
                (sizesOrder scannerSettings scale sw sh
                            (windowSizes scannerSettings)))
      as [[[pre s] p]|];
      destruct Hsizes as (Hc & Hp & Hd); simpl in Hp, Hd;
      rewrite Hp, <- ?app_assoc; auto.
  - destruct (firstSuccess B imageData
                (sizesOrder scannerSettings scale sw sh
                            (windowSizes scannerSettings)))
      as [[[pre s] p]|];
      destruct Hsizes as (Hc & Hp & Hd); simpl in Hp, Hd;
      rewrite Hp, <- ?app_assoc; auto.
Qed.

Lemma scales_follow c :
  steps_advance scannerSettings ->
  forall scales,
    dims_finite imageData scales ->
    exists F0, forall F, (F0 <= F)%nat -> forall w : W,
      follows B imageData (probingOrder B imageData scannerSettings scales) w
        (runList (scanScale B imageData scannerSettings F c) scales w).
Proof.
  intros Hsteps. induction scales as [|scale rest IH]; intros Hdims.
  - exists 0%nat. intros F _ w. apply follows_nil.
  - destruct IH as [F0 IH].
    { intros s Hin. apply Hdims. right. assumption. }
    destruct (scanScale_follows c scale Hsteps (Hdims scale (or_introl eq_refl)))
      as [F1 H1].
    exists (Nat.max F0 F1). intros F HF w.
    simpl probingOrder. simpl runList.
    apply follows_seq
      with (r1 := scanScale B imageData scannerSettings F c scale w).
    + apply H1. lia.
    + intros Hn.
      destruct (scanScale B imageData scannerSettings F c scale w) as [k v].
      simpl in Hn. subst k. apply IH. lia.
    + intros Hn.
      destruct (scanScale B imageData scannerSettings F c scale w) as [k v].
      simpl in Hn. destruct k; congruence.
Qed.

(** The scale loop runs the body on the scales that pass its guard and goes
    on from the value reached. *)
Lemma loopScale_runList F c :
  forall (n fuel : nat) (scale : num) (w : W),
    (n <= fuel)%nat ->
    in_range scannerSettings (scaleSeq scannerSettings n scale) ->
    loopScale B imageData scannerSettings F fuel c scale w =
    match runList (scanScale B imageData scannerSettings F c)
                  (scaleSeq scannerSettings n scale) w with
    | (Normal, w') =>
        loopScale B imageData scannerSettings F (fuel - n) c
                  (scaleAfter scannerSettings n scale) w'
    | r => r
    end.
Proof.
  induction n as [|n IH]; intros fuel scale w Hfuel Hrange.
  - simpl. rewrite Nat.sub_0_r. reflexivity.
  - destruct fuel as [|fuel]; [lia|].
    simpl. rewrite (Hrange scale) by (left; reflexivity).
    destruct (scanScale B imageData scannerSettings F c scale w) as [k v].
    destruct k; try reflexivity.
    apply IH; [lia|].
    intros s Hin. apply Hrange. right. assumption.
Qed.

Lemma loopScale_done F fuel c scale (w : W) :
  nleb scale (maxScale scannerSettings) = false ->
  loopScale B imageData scannerSettings F fuel c scale w = (Normal, w).
Proof.
  intros H. destruct fuel; simpl; rewrite H; reflexivity.
Qed.

Lemma probes_debugSetup (w : W) :
  probes (snd (debugSetup imageData scannerSettings w)) = probes w
  /\ decoded (snd (debugSetup imageData scannerSettings w)) = decoded w
  /\ resampled (snd (debugSetup imageData scannerSettings w)) = resampled w
  /\ visited (snd (debugSetup imageData scannerSettings w)) = visited w
  /\ debugImages (snd (debugSetup imageData scannerSettings w)) = debugImages w.
Proof.
  unfold debugSetup. destruct (debugCanvas w) as [cv|]; [|auto].
  destruct (debugMode scannerSettings); [|auto].
  destruct (cv_2d cv); simpl; auto.
Qed.

Lemma probes_debugFinish c (w : W) :
  probes (debugFinish B scannerSettings c w) = probes w
  /\ decoded (debugFinish B scannerSettings c w) = decoded w.
Proof.
  unfold debugFinish. destruct (c && debugMode scannerSettings); [|auto].
  destruct (debugCanvas w); auto.
Qed.

End ProbingOrder.

(* ------------------------------------------------------------------ *)
(** ** The windows of one size over a frame it divides *)

Section Tiling.

Variable num : Type.

Lemma windowsProbed_app (l1 l2 : list (site num)) :
  windowsProbed (l1 ++ l2) = windowsProbed l1 ++ windowsProbed l2.
Proof.
  induction l1 as [|s l1 IH]; simpl; [reflexivity|].
  destruct s; simpl; rewrite IH; reflexivity.
Qed.

Lemma windowsProbed_rowOrder (scale : num) sw sh windowSize stepSize y :
  windowsProbed (rowOrder scale sw sh windowSize stepSize y) =
  map (fun x => (x, y, windowSize)) (positions (sw - windowSize) stepSize).
Proof.
  unfold rowOrder.
  induction (positions (sw - windowSize) stepSize) as [|x l IH]; simpl;
    [|rewrite IH]; reflexivity.
Qed.

Lemma windowsProbed_windowOrder (scale : num) sw sh windowSize stepSize :
  windowsProbed (windowOrder scale sw sh windowSize stepSize) =
  flat_map (fun y => map (fun x => (x, y, windowSize))
                         (positions (sw - windowSize) stepSize))
           (positions (sh - windowSize) stepSize).
Proof.
  unfold windowOrder.
  induction (positions (sh - windowSize) stepSize) as [|y l IH]; simpl;
    [reflexivity|].
  rewrite windowsProbed_app, windowsProbed_rowOrder, IH. reflexivity.
Qed.

Lemma multiples_increasing (step : Z) :
  1 <= step ->
  forall n i,
    StronglySorted Z.lt (map (fun j => Z.of_nat j * step) (seq i n)).
Proof.
  intros Hstep. induction n as [|n IH]; intros i; simpl; constructor.
  - apply IH.
  - apply Forall_forall. intros x Hx. apply in_map_iff in Hx.
    destruct Hx as (j & <- & Hj). apply in_seq in Hj. nia.
Qed.

Lemma positions_increasing (limit step : Z) :
  1 <= step -> StronglySorted Z.lt (positions limit step).
Proof.
  intros Hstep. unfold positions. destruct (0 <=? limit).
  - apply multiples_increasing. assumption.
  - constructor.
Qed.

Lemma StronglySorted_app (A : Type) (R : A -> A -> Prop) (l1 l2 : list A) :
  StronglySorted R l1 -> StronglySorted R l2 ->
  (forall a b, In a l1 -> In b l2 -> R a b) ->
  StronglySorted R (l1 ++ l2).
Proof.
  intros H1 H2 Hcross. induction H1 as [|a l1 Hs IH Hall]; simpl;
    [assumption|].
  constructor.
  - apply IH. intros a' b Ha Hb. apply Hcross; [right|]; assumption.
  - apply Forall_forall. intros b Hb. apply in_app_or in Hb.
    destruct Hb as [Hb|Hb].
    + rewrite Forall_forall in Hall. apply Hall. assumption.
    + apply Hcross; [left; reflexivity | assumption].
Qed.

(** The windows of one size at one scale are probed in row-major order:
    each is higher than every later one, or on its row and further left. *)
Lemma windowOrder_row_major (scale : num) sw sh windowSize stepSize :
  1 <= stepSize ->
  StronglySorted row_major
    (windowsProbed (windowOrder scale sw sh windowSize stepSize)).
Proof.
  intros Hstep. rewrite windowsProbed_windowOrder.
  pose proof (positions_increasing (sw - windowSize) Hstep) as HX.
  pose proof (positions_increasing (sh - windowSize) Hstep) as HY.
  set (X := positions (sw - windowSize) stepSize) in *.
  assert (Hrow : forall y : Z,
            StronglySorted row_major
              (map (fun x : Z => (x, y, windowSize)) X)).
  { intros y. induction HX as [|x X' Hs IH Hall]; simpl; constructor.
    - apply IH.
    - apply Forall_forall. intros [[x' y'] s'] Hin.
      apply in_map_iff in Hin. destruct Hin as (x'' & Heq & Hin).
      inversion Heq; subst. rewrite Forall_forall in Hall.
      right. split; [reflexivity | apply Hall; assumption]. }
  induction HY as [|y Y' Hs IH Hall]; simpl; [constructor|].
  apply StronglySorted_app; [apply Hrow | apply IH |].
  intros [[x1 y1] s1] [[x2 y2] s2] H1 H2.
  apply in_map_iff in H1. destruct H1 as (x1' & Heq1 & _).
  inversion Heq1; subst.
  apply in_flat_map in H2. destruct H2 as (y2' & Hy2 & H2).
  apply in_map_iff in H2. destruct H2 as (x2' & Heq2 & _).
  inversion Heq2; subst.
  rewrite Forall_forall in Hall. left. apply Hall. assumption.
Qed.

Variables side k : Z.
Hypothesis side_pos : 1 <= side.
Hypothesis k_pos : 1 <= k.

Lemma positions_multiple :
  positions (k * side - side) side =
  map (fun i => Z.of_nat i * side) (seq 0 (Z.to_nat k)).
Proof.
  unfold positions.
  destruct (Z.leb_spec 0 (k * side - side)) as [_|Hneg]; [|nia].
  replace (k * side - side) with ((k - 1) * side) by lia.
  rewrite Z.div_mul by lia.
  replace (Z.to_nat (k - 1) + 1)%nat with (Z.to_nat k) by lia.
  reflexivity.
Qed.

Lemma in_positions_multiple (x : Z) :
  In x (positions (k * side - side) side) <->
  exists i, 0 <= i < k /\ x = i * side.
Proof.
  rewrite positions_multiple, in_map_iff. split.
  - intros (i & Hx & Hi). apply in_seq in Hi.
    exists (Z.of_nat i). split; [lia|congruence].
  - intros (i & Hi & Hx). exists (Z.to_nat i). split.
    + rewrite Z2Nat.id by lia. congruence.
    + apply in_seq. lia.
Qed.

Lemma positions_multiple_length :
  List.length (positions (k * side - side) side) = Z.to_nat k.
Proof.
  rewrite positions_multiple, length_map, length_seq. reflexivity.
Qed.

Lemma positions_multiple_NoDup : NoDup (positions (k * side - side) side).
Proof.
  rewrite positions_multiple.
  apply NoDup_map_NoDup_ForallPairs; [|apply seq_NoDup].
  intros i j _ _ Heq. nia.
Qed.

Lemma in_grid (x y s : Z) :
  In (x, y, s) (grid side k) <->
  s = side
  /\ In x (positions (k * side - side) side)
  /\ In y (positions (k * side - side) side).
Proof.
  unfold grid. rewrite in_flat_map. split.
  - intros (y' & Hy & Hin). apply in_map_iff in Hin.
    destruct Hin as (x' & Heq & Hx). inversion Heq; subst. auto.
  - intros (-> & Hx & Hy). exists y. split; [assumption|].
    apply in_map_iff. exists x. auto.
Qed.

Lemma grid_length : List.length (grid side k) = Z.to_nat (k * k).
Proof.
  unfold grid. rewrite length_flat_map.
  assert (Hsum : forall (l : list Z) (c : nat),
             list_sum (map (fun _ : Z => c) l) = (List.length l * c)%nat).
  { induction l as [|a l IH]; intros c; simpl; [reflexivity|].
    rewrite IH. reflexivity. }
  rewrite (map_ext _ (fun _ => Z.to_nat k)).
  - rewrite Hsum, positions_multiple_length. nia.
  - intros y. rewrite length_map. apply positions_multiple_length.
Qed.

Lemma grid_NoDup : NoDup (grid side k).
Proof.
  unfold grid.
  pose proof positions_multiple_NoDup as Hnd.
  set (P := positions (k * side - side) side) in *.
  assert (Hrow : forall y : Z, NoDup (map (fun x : Z => (x, y, side)) P)).
  { intros y. apply NoDup_map_NoDup_ForallPairs; [|assumption].
    intros a b _ _ Heq. congruence. }
  assert (Hall : forall Q : list Z, NoDup Q ->
            NoDup (flat_map (fun y : Z => map (fun x : Z => (x, y, side)) P) Q));
    [|apply Hall; assumption].
  induction Q as [|y Q IH]; intros Hq; simpl; [constructor|].
  inversion Hq as [|y' Q' Hnotin HQ]; subst.
  apply NoDup_app; [apply Hrow | apply IH; assumption |].
  intros [[x y0] s] Hin1 Hin2.
  apply in_map_iff in Hin1. destruct Hin1 as (x' & Heq & _).
  inversion Heq; subst.
  apply in_flat_map in Hin2. destruct Hin2 as (y' & Hy' & Hin2).
  apply in_map_iff in Hin2. destruct Hin2 as (x'' & Heq' & _).
  inversion Heq'; subst. contradiction.
Qed.

Lemma grid_inside (x y s : Z) :
  In (x, y, s) (grid side k) ->
  s = side /\ 0 <= x /\ x + side <= k * side /\ 0 <= y /\ y + side <= k * side.
Proof.
  rewrite in_grid, !in_positions_multiple.
  intros (-> & (i & Hi & ->) & (j & Hj & ->)). repeat split; nia.
Qed.

Lemma grid_disjoint (r1 r2 : Z * Z * Z) (px py : Z) :
  In r1 (grid side k) -> In r2 (grid side k) ->
  covers r1 px py -> covers r2 px py -> r1 = r2.
Proof.
  destruct r1 as [[x1 y1] s1], r2 as [[x2 y2] s2].
  rewrite !in_grid, !in_positions_multiple.
  intros (-> & (i1 & Hi1 & ->) & (j1 & Hj1 & ->))
         (-> & (i2 & Hi2 & ->) & (j2 & Hj2 & ->)) [Hx1 Hy1] [Hx2 Hy2].
  assert (i1 = i2) by nia. assert (j1 = j2) by nia. subst. reflexivity.
Qed.

Lemma grid_covers (px py : Z) :
  0 <= px < k * side -> 0 <= py < k * side ->
  exists r, In r (grid side k) /\ covers r px py.
Proof.
  intros Hx Hy.
  exists (px / side * side, py / side * side, side).
  pose proof (Z.mul_div_le px side ltac:(lia)).
  pose proof (Z.mul_succ_div_gt px side ltac:(lia)).
  pose proof (Z.mul_div_le py side ltac:(lia)).
  pose proof (Z.mul_succ_div_gt py side ltac:(lia)).
  split.
  - rewrite in_grid, !in_positions_multiple. split; [reflexivity|].
    split; [exists (px / side) | exists (py / side)];
      (split; [|reflexivity]); split;
      try (apply Z.div_pos; lia);
      apply Z.div_lt_upper_bound; lia.
  - unfold covers. lia.
Qed.

End Tiling.

(** In exact arithmetic the four facts about numbers that the coverage
    theorem below asks for hold at every size. *)
Lemma exact_numbers_scale_by_one (H W : Z) :
  nleb (of_int (num := Q) 1) (of_int 1) = true
  /\ nleb (nadd (of_int (num := Q) 1) (of_int 1)) (of_int 1) = false
  /\ floor (nmul (of_int (num := Q) H) (of_int 1)) = Some H
  /\ floor (nmul (of_int (num := Q) W) (nsub (of_int 1) (of_int 0))) = Some W.
Proof.
  repeat split.
  - simpl. unfold Qfloor. simpl. rewrite Z.mul_1_r, Z.div_1_r. reflexivity.
  - simpl. unfold Qfloor. simpl. rewrite Z.mul_1_r, Z.div_1_r. reflexivity.
Qed.

(** C3. On a square image of side [k * W] (so [k = H / W]), with
    minScale = maxScale = scaleStep = 1, windowOverlap = 0 and
    windowSizes = [W], in a number system where 1 <= 1, 1 + 1 > 1,
    floor(H * 1) = H and floor(W * (1 - 0)) = W (as they are for doubles),
    with canvases available and a decoder that fails on every probe, the
    scan returns false after probing exactly [k * k] windows, all distinct,
    each of side [W] and inside the image, no two sharing a pixel and
    together covering every pixel. *)
Theorem exhaustive_window_coverage :
  forall (num : Type) (NUM : JSNumber num) (Pixels Bitmap : Type)
         (B : Browser num Pixels Bitmap) (pixels : Pixels)
         (debug : bool) (W k : Z),
    let imageData :=
      {| data := pixels; width := k * W; height := k * W |} in
    let scannerSettings :=
      {| useAdvancedScanning := true; debugMode := debug;
         minScale := of_int 1; maxScale := of_int 1; scaleStep := of_int 1;
         windowOverlap := of_int 0; windowSizes := [W] |} in
    1 <= W -> 1 <= k ->
    nleb (of_int 1) (of_int 1) = true ->
    nleb (nadd (of_int 1) (of_int 1)) (of_int 1) = false ->
    floor (nmul (of_int (k * W)) (of_int 1)) = Some (k * W) ->
    floor (nmul (of_int W) (nsub (of_int 1) (of_int 0))) = Some W ->
    getContext2d B (k * W) (k * W) = true ->
    jsQR B pixels (k * W) (k * W) = NoCode ->
    (forall bm x y w h, payload (probe B bm x y w h) = None) ->
    exists F0, forall F, (F0 <= F)%nat ->
      forall debugCanvasRef : option (HTMLCanvasElement num Pixels),
        let r := scanWithSlidingWindow B imageData scannerSettings F
                                       debugCanvasRef in
        let wins := windowsProbed (probes (snd r)) in
        fst r = Return false
        /\ decoded (snd r) = []
        /\ List.length wins = Z.to_nat ((k * W / W) * (k * W / W))
        /\ NoDup wins
        /\ (forall x y s, In (x, y, s) wins ->
              s = W /\ 0 <= x /\ x + W <= k * W /\ 0 <= y /\ y + W <= k * W)
        /\ (forall r1 r2 px py, In r1 wins -> In r2 wins ->
              covers r1 px py -> covers r2 px py -> r1 = r2)
        /\ (forall px py, 0 <= px < k * W -> 0 <= py < k * W ->
              exists r0, In r0 wins /\ covers r0 px py).
Proof.
  intros num NUM Pixels Bitmap B pixels debug W k imageData scannerSettings
         HW Hk Hle Hgt Hdim Hstep Hctx Hnative Hfail.
  assert (Hdims1 : scaledDims imageData (of_int 1) = Some (k * W, k * W)).
  { unfold scaledDims. simpl. rewrite Hdim. reflexivity. }
  assert (Hsteps : steps_advance scannerSettings).
  { intros ws [<-|[]]. exists W. split; [exact Hstep|assumption]. }
  assert (Hdims : dims_finite imageData (scaleSeq scannerSettings 1 (of_int 1))).
  { intros s [<-|[]]. rewrite Hdims1. discriminate. }
  assert (Hrange : in_range scannerSettings
                     (scaleSeq scannerSettings 1 (of_int 1))).
  { intros s [<-|[]]. exact Hle. }
  assert (Horder : probingOrder B imageData scannerSettings
                     (scaleSeq scannerSettings 1 (of_int 1)) =
                   Frame (of_int 1) (k * W) (k * W)
                   :: windowOrder (of_int 1) (k * W) (k * W) W W).
  { simpl. unfold scaleOrder. rewrite Hdims1. unfold resamples. simpl.
    rewrite Hctx. simpl.
    destruct (Z.leb_spec (k * W) 0) as [Hbad|_]; [nia|]. simpl.
    unfold sizesOrder. simpl.
    change (stepSizeOf scannerSettings W)
      with (floor (nmul (of_int W) (nsub (of_int 1) (of_int 0)))).
    rewrite Hstep, !app_nil_r. reflexivity. }
  assert (Hnone : firstSuccess B imageData
                    (probingOrder B imageData scannerSettings
                       (scaleSeq scannerSettings 1 (of_int 1))) = None).
  { apply firstSuccess_none. intros s _.
    destruct s; simpl; [rewrite Hnative; reflexivity | apply Hfail..]. }
  destruct (scales_follow B true Hsteps Hdims) as [Ft Ht].
  destruct (scales_follow B false Hsteps Hdims) as [Ff Hf].
  exists (Nat.max 1 (Nat.max Ft Ff)). intros F HF ref r wins.
  subst wins r. unfold scanWithSlidingWindow.
  change (jsQR B (data imageData) (width imageData) (height imageData))
    with (jsQR B pixels (k * W) (k * W)).
  rewrite Hnative. simpl negb. cbv iota.
  destruct (probes_debugSetup imageData scannerSettings (initial ref))
    as (Hp0 & Hd0 & _).
  destruct (debugSetup imageData scannerSettings (initial ref)) as [c w1].
  simpl in Hp0, Hd0.
  change (minScale scannerSettings) with (of_int (num:=num) 1).
  rewrite (loopScale_runList B imageData F c (n:=1) (fuel:=F))
    by (assumption || lia).
  assert (Hrun : follows B imageData
            (probingOrder B imageData scannerSettings
               (scaleSeq scannerSettings 1 (of_int 1))) w1
            (runList (scanScale B imageData scannerSettings F c)
               (scaleSeq scannerSettings 1 (of_int 1)) w1)).
  { destruct c; [apply Ht | apply Hf]; lia. }
  unfold follows in Hrun. rewrite Hnone in Hrun.
  destruct (runList (scanScale B imageData scannerSettings F c)
              (scaleSeq scannerSettings 1 (of_int 1)) w1) as [c' v].
  destruct Hrun as (Hc & Hp & Hd). cbn [fst snd] in Hc, Hp, Hd. subst c'.
  rewrite loopScale_done by exact Hgt.
  destruct (probes_debugFinish B scannerSettings c v) as [Hpf Hdf].
  cbn [fst snd]. rewrite Hpf, Hdf, Hp, Hd, Hp0, Hd0, Horder.
  simpl windowsProbed. rewrite windowsProbed_windowOrder.
  fold (grid W k).
  rewrite Z.div_mul by lia.
  split; [reflexivity|]. split; [reflexivity|].
  split; [apply grid_length; assumption|].
  split; [apply grid_NoDup; assumption|].
  split; [intros x y s; apply grid_inside; assumption|].
  split; [intros r1 r2 px py; apply grid_disjoint; assumption|].
  intros px py; apply grid_covers; assumption.
Qed.

(* ------------------------------------------------------------------ *)
(** ** Loop rules

    [Q c w] says what holds of the world [w] when a block is left with the
    completion [c]; [Q Normal] is the invariant of the loops. *)

Section LoopRules.

Variable num : Type.
Context {NUM : JSNumber num}.
Variables Pixels Bitmap : Type.
Variable B : Browser num Pixels Bitmap.
Variable imageData : ImageData Pixels.
Variable scannerSettings : ScannerSettings num.

Local Notation W := (world num Pixels).

Variable Q : completion -> W -> Prop.
Hypothesis Q_diverge : forall w, Q Normal w -> Q Diverge w.
Hypothesis Q_nonfinite : forall w, Q Normal w -> Q NonFinite w.

Variable c : bool.
Variable scale : num.
Variables sw sh : Z.
Variable bm : Bitmap.

Hypothesis window_rule :
  forall windowSize x y w, Q Normal w ->
    holds Q (scanWindow B scannerSettings c scale sw sh bm windowSize x y w).

Lemma loopX_rule windowSize stepSize y :
  forall fuel x w, Q Normal w ->
    holds Q (loopX B scannerSettings c scale sw sh bm fuel windowSize stepSize
                 y x w).
Proof.
  induction fuel as [|fuel IH]; intros x w Hw; simpl;
    destruct (x <=? sw - windowSize); try exact Hw.
  - apply Q_diverge, Hw.
  - pose proof (window_rule windowSize x y Hw) as Hb.
    destruct (scanWindow B scannerSettings c scale sw sh bm windowSize x y w)
      as [k v].
    destruct k; try exact Hb. apply IH, Hb.
Qed.

Lemma loopY_rule F windowSize stepSize :
  forall fuel y w, Q Normal w ->
    holds Q (loopY B scannerSettings c scale sw sh bm F fuel windowSize stepSize
                 y w).
Proof.
  induction fuel as [|fuel IH]; intros y w Hw; simpl;
    destruct (y <=? sh - windowSize); try exact Hw.
  - apply Q_diverge, Hw.
  - pose proof (loopX_rule windowSize stepSize y F 0 Hw) as Hb.
    destruct (loopX B scannerSettings c scale sw sh bm F windowSize stepSize
                    y 0 w) as [k v].
    destruct k; try exact Hb. apply IH, Hb.
Qed.

Lemma loopSizes_rule F :
  forall sizes w, Q Normal w ->
    holds Q (loopSizes B scannerSettings c scale sw sh bm F sizes w).
Proof.
  induction sizes as [|windowSize rest IH]; intros w Hw; simpl;
    try exact Hw.
  destruct (stepSizeOf scannerSettings windowSize) as [stepSize|];
    [|apply Q_nonfinite, Hw].
  pose proof (loopY_rule F windowSize stepSize F 0 Hw) as Hb.
  destruct (loopY B scannerSettings c scale sw sh bm F F windowSize stepSize
                  0 w) as [k v].
  destruct k; try exact Hb. apply IH, Hb.
Qed.

End LoopRules.

Section ScaleLoopRule.

Variable num : Type.
Context {NUM : JSNumber num}.
Variables Pixels Bitmap : Type.
Variable B : Browser num Pixels Bitmap.
Variable imageData : ImageData Pixels.
Variable scannerSettings : ScannerSettings num.

Local Notation W := (world num Pixels).

Variable Q : completion -> W -> Prop.
Hypothesis Q_diverge : forall w, Q Normal w -> Q Diverge w.
Variables (F : nat) (c : bool).

Hypothesis scale_rule :
  forall scale w, Q Normal w ->
    holds Q (scanScale B imageData scannerSettings F c scale w).

Lemma loopScale_rule :
  forall fuel scale w, Q Normal w ->
    holds Q (loopScale B imageData scannerSettings F fuel c scale w).
Proof.
  induction fuel as [|fuel IH]; intros scale w Hw; simpl;
    destruct (nleb scale (maxScale scannerSettings)); try exact Hw.
  - apply Q_diverge, Hw.
  - pose proof (scale_rule scale Hw) as Hb.
    destruct (scanScale B imageData scannerSettings F c scale w) as [k v].
    destruct k; try exact Hb. apply IH, Hb.
Qed.

End ScaleLoopRule.

(* ------------------------------------------------------------------ *)
(** ** The reported payload is the first one found *)

Section FirstHit.

Variable num : Type.
Context {NUM : JSNumber num}.
Variables Pixels Bitmap : Type.
Variable B : Browser num Pixels Bitmap.
Variable imageData : ImageData Pixels.
Variable scannerSettings : ScannerSettings num.

Local Notation W := (world num Pixels).

Lemma scanWindow_first_hit c scale sw sh windowSize x y (w : W) :
  first_hit B imageData Normal w ->
  holds (first_hit B imageData)
    (scanWindow B scannerSettings c scale sw sh (drawImage B imageData sw sh)
                windowSize x y w).
Proof.
  intros [Hd Hfail]. unfold holds, scanWindow.
  destruct (probe B (drawImage B imageData sw sh) x y windowSize windowSize)
    as [p| |] eqn:Ep; cbn [fst snd first_hit].
  - exists (probes w), (Window scale sw sh windowSize x y), p.
    destruct (c && debugMode scannerSettings); simpl;
      rewrite ?probes_draw, ?decoded_draw; simpl;
      rewrite ?probes_draw, ?decoded_draw, Hd; auto.
  - simpl. destruct (c && debugMode scannerSettings);
      rewrite ?probes_draw, ?decoded_draw; (split; [assumption|]);
      intros s Hin; apply in_app_or in Hin;
      (destruct Hin as [Hin|[<-|[]]]; [auto | simpl; rewrite Ep; reflexivity]).
  - simpl. destruct (c && debugMode scannerSettings);
      rewrite ?probes_draw, ?decoded_draw; (split; [assumption|]);
      intros s Hin; apply in_app_or in Hin;
      (destruct Hin as [Hin|[<-|[]]]; [auto | simpl; rewrite Ep; reflexivity]).
Qed.

Lemma scanScale_first_hit F c scale (w : W) :
  first_hit B imageData Normal w ->
  holds (first_hit B imageData) (scanScale B imageData scannerSettings F c scale w).
Proof.
  intros Hw. unfold scanScale.
  destruct (scaledDims imageData scale) as [[sw sh]|]; [|exact I].
  destruct ((sw <=? 0) || (sh <=? 0)); [exact Hw|].
  destruct (negb (getContext2d B sw sh)); [exact Hw|].
  destruct (negb (getContext2d B (width imageData) (height imageData)));
    [exact Hw|].
  destruct Hw as [Hd Hfail].
  destruct (probe B (drawImage B imageData sw sh) 0 0 sw sh) as [p| |] eqn:Ep.
  - unfold holds. cbn [fst snd first_hit].
    exists (probes w), (Frame scale sw sh), p. simpl. rewrite Hd. auto.
  - apply loopSizes_rule; try (intros; exact I).
    + intros. apply scanWindow_first_hit. assumption.
    + split; [assumption|]. simpl. intros s Hin. apply in_app_or in Hin.
      destruct Hin as [Hin|[<-|[]]]; [auto | simpl; rewrite Ep; reflexivity].
  - apply loopSizes_rule; try (intros; exact I).
    + intros. apply scanWindow_first_hit. assumption.
    + split; [assumption|]. simpl. intros s Hin. apply in_app_or in Hin.
      destruct Hin as [Hin|[<-|[]]]; [auto | simpl; rewrite Ep; reflexivity].
Qed.

Lemma scan_first_hit F ref (w : W) :
  scanWithSlidingWindow B imageData scannerSettings F ref = (Return true, w) ->
  exists pre s p,
    probes w = pre ++ [s]
    /\ decoded w = [p]
    /\ outcome B imageData s = Code p
    /\ forall s', In s' pre -> payload (outcome B imageData s') = None.
Proof.
  unfold scanWithSlidingWindow.
  destruct (jsQR B (data imageData) (width imageData) (height imageData))
    as [p| |] eqn:Enative.
  - intros H. injection H as <-.
    exists [], (Native num), p. simpl. repeat split; auto. intros s' [].
  - destruct (negb (useAdvancedScanning scannerSettings)); [discriminate|].
    destruct (probes_debugSetup imageData scannerSettings (initial ref))
      as (Hp0 & Hd0 & _).
    destruct (debugSetup imageData scannerSettings (initial ref)) as [c w1].
    simpl in Hp0, Hd0.
    assert (Hloop : holds (first_hit B imageData)
              (loopScale B imageData scannerSettings F F c
                         (minScale scannerSettings) w1)).
    { apply loopScale_rule; try (intros; exact I).
      - intros. apply scanScale_first_hit. assumption.
      - split; [assumption|]. rewrite Hp0. intros s [<-|[]].
        simpl. rewrite Enative. reflexivity. }
    destruct (loopScale B imageData scannerSettings F F c
                        (minScale scannerSettings) w1) as [k v].
    unfold holds in Hloop. cbn [fst snd] in Hloop.
    destruct k; try discriminate.
    intros H. injection H as -> ->. exact Hloop.
  - discriminate.
Qed.

End FirstHit.

(** C2. (a) Whenever the scan returns true, the decode attempts it made end
    with the one that yielded the payload handed to [onDecode]; every
    attempt before it failed and nothing is attempted after it.  (b) Let
    the scale loop visit [n] scales, and let [s] be the first site of the
    probing order over these scales (scale by scale in the order the loop
    visits them; at a scale the whole frame, then the window sizes as
    listed; for a size the rows from the top and in a row the columns from
    the left) at which the decoder yields a code, [p] being its payload.
    Then the scan returns true, the one payload handed to [onDecode] is
    [p], and the decode attempts are the native one, the sites before [s]
    in the order, and [s], whatever the decoder would have found later. *)
Theorem first_success_in_probing_order :
  forall (num : Type) (NUM : JSNumber num) (Pixels Bitmap : Type)
         (B : Browser num Pixels Bitmap) (imageData : ImageData Pixels)
         (scannerSettings : ScannerSettings num),
    (forall F ref w,
       scanWithSlidingWindow B imageData scannerSettings F ref
       = (Return true, w) ->
       exists pre s p,
         probes w = pre ++ [s]
         /\ decoded w = [p]
         /\ outcome B imageData s = Code p
         /\ forall s', In s' pre -> payload (outcome B imageData s') = None)
    /\ (forall (n : nat) (pre rest : list (site num)) (s : site num)
               (p : string),
          jsQR B (data imageData) (width imageData) (height imageData)
          = NoCode ->
          useAdvancedScanning scannerSettings = true ->
          in_range scannerSettings
            (scaleSeq scannerSettings n (minScale scannerSettings)) ->
          dims_finite imageData
            (scaleSeq scannerSettings n (minScale scannerSettings)) ->
          steps_advance scannerSettings ->
          probingOrder B imageData scannerSettings
            (scaleSeq scannerSettings n (minScale scannerSettings))
          = pre ++ s :: rest ->
          (forall s', In s' pre -> payload (outcome B imageData s') = None) ->
          outcome B imageData s = Code p ->
          exists F0, forall F, (F0 <= F)%nat ->
            forall debugCanvasRef : option (HTMLCanvasElement num Pixels),
              let r := scanWithSlidingWindow B imageData scannerSettings F
                                             debugCanvasRef in
              fst r = Return true
              /\ decoded (snd r) = [p]
              /\ probes (snd r) = Native num :: pre ++ [s]).
Proof.
  intros num NUM Pixels Bitmap B imageData scannerSettings. split.
  { intros F ref w. apply scan_first_hit. }
  intros n pre rest s p
         Hnative Hadv Hrange Hdims Hsteps Horder Hpre Hs.
  destruct (scales_follow B true Hsteps Hdims) as [Ft Ht].
  destruct (scales_follow B false Hsteps Hdims) as [Ff Hf].
  exists (Nat.max n (Nat.max Ft Ff)). intros F HF ref r. subst r.
  unfold scanWithSlidingWindow. rewrite Hnative, Hadv. simpl negb. cbv iota.
  destruct (probes_debugSetup imageData scannerSettings (initial ref))
    as (Hp0 & Hd0 & _).
  destruct (debugSetup imageData scannerSettings (initial ref)) as [c w1].
  simpl in Hp0, Hd0.
  rewrite (loopScale_runList B imageData F c (n:=n) (fuel:=F))
    by (assumption || lia).
  assert (Hrun : follows B imageData
            (probingOrder B imageData scannerSettings
               (scaleSeq scannerSettings n (minScale scannerSettings))) w1
            (runList (scanScale B imageData scannerSettings F c)
               (scaleSeq scannerSettings n (minScale scannerSettings)) w1)).
  { destruct c; [apply Ht | apply Hf]; lia. }
  unfold follows in Hrun.
  rewrite Horder, (firstSuccess_intro B imageData pre rest s Hpre Hs) in Hrun.
  destruct (runList (scanScale B imageData scannerSettings F c)
              (scaleSeq scannerSettings n (minScale scannerSettings)) w1)
    as [k v].
  destruct Hrun as (Hc & Hp & Hd). simpl in Hc, Hp, Hd. subst k. simpl.
  rewrite Hp, Hd, Hp0, Hd0. auto.
Qed.

(* ------------------------------------------------------------------ *)
(** ** Diagnostic images *)

Section Diagnostics.

Variable num : Type.
Context {NUM : JSNumber num}.
Variables Pixels Bitmap : Type.
Variable B : Browser num Pixels Bitmap.
Variable imageData : ImageData Pixels.
Variable scannerSettings : ScannerSettings num.

Local Notation W := (world num Pixels).

Lemma debugImages_draw (op : draw_op num Pixels) (w : W) :
  debugImages (draw op w) = debugImages w.
Proof. unfold draw. destruct (debugCanvas w); reflexivity. Qed.

Lemma scanWindow_silent c scale sw sh bm windowSize x y (w : W) :
  debugMode scannerSettings = false ->
  silent Normal w ->
  holds silent (scanWindow B scannerSettings c scale sw sh bm windowSize x y w).
Proof.
  intros Hoff Hw. unfold holds, scanWindow, silent in *.
  rewrite Hoff, andb_false_r.
  destruct (probe B bm x y windowSize windowSize); simpl; assumption.
Qed.

Lemma scanScale_silent F c scale (w : W) :
  debugMode scannerSettings = false ->
  silent Normal w ->
  holds silent (scanScale B imageData scannerSettings F c scale w).
Proof.
  intros Hoff Hw. unfold scanScale.
  destruct (scaledDims imageData scale) as [[sw sh]|]; [|exact Hw].
  destruct ((sw <=? 0) || (sh <=? 0)); [exact Hw|].
  destruct (negb (getContext2d B sw sh)); [exact Hw|].
  destruct (negb (getContext2d B (width imageData) (height imageData)));
    [exact Hw|].
  destruct (probe B (drawImage B imageData sw sh) 0 0 sw sh);
    try exact Hw;
    apply loopSizes_rule; unfold silent; auto;
    intros; apply scanWindow_silent; assumption.
Qed.

Lemma scan_silent F ref :
  debugMode scannerSettings = false ->
  debugImages (snd (scanWithSlidingWindow B imageData scannerSettings F ref))
  = [].
Proof.
  intros Hoff. unfold scanWithSlidingWindow.
  destruct (jsQR B (data imageData) (width imageData) (height imageData));
    try reflexivity.
  destruct (negb (useAdvancedScanning scannerSettings)); [reflexivity|].
  destruct (probes_debugSetup imageData scannerSettings (initial ref))
    as (_ & _ & _ & _ & H0).
  destruct (debugSetup imageData scannerSettings (initial ref)) as [c w1].
  simpl in H0.
  assert (Hloop : holds silent
            (loopScale B imageData scannerSettings F F c
                       (minScale scannerSettings) w1)).
  { apply loopScale_rule; unfold silent; auto.
    intros; apply scanScale_silent; assumption. }
  destruct (loopScale B imageData scannerSettings F F c
                      (minScale scannerSettings) w1) as [k v].
  unfold holds, silent in Hloop. simpl in Hloop.
  destruct k; try exact Hloop.
  simpl. unfold debugFinish. rewrite Hoff, andb_false_r. exact Hloop.
Qed.

Hypothesis debug_on : debugMode scannerSettings = true.
Hypothesis url_nonempty : forall cv, toDataURL B cv <> EmptyString.

Lemma debugCanvas_draw (op : draw_op num Pixels) (w : W) :
  debugCanvas w <> None -> debugCanvas (draw op w) <> None.
Proof.
  unfold draw. destruct (debugCanvas w); [discriminate|auto].
Qed.

Lemma debug_url_some (w : W) :
  debugCanvas w <> None -> exists url, debug_url B w = Some url.
Proof.
  unfold debug_url, or_null. destruct (debugCanvas w) as [cv|];
    [|congruence].
  intros _. destruct (String.eqb_spec (toDataURL B cv) EmptyString) as [E|_].
  - elim (url_nonempty cv E).
  - eauto.
Qed.

Lemma scanWindow_emitted scale sw sh bm windowSize x y (w : W) :
  emitted Normal w ->
  holds emitted
    (scanWindow B scannerSettings true scale sw sh bm windowSize x y w).
Proof.
  intros [Himg Hcv]. unfold holds, scanWindow. rewrite debug_on. simpl andb.
  cbv iota.
  destruct (probe B bm x y windowSize windowSize); simpl.
  - rewrite probes_draw. simpl. rewrite probes_draw, last_last.
    rewrite !debugImages_draw. simpl. rewrite debugImages_draw, Himg.
    match goal with
    | |- context [debug_url B ?X] =>
        destruct (debug_url_some X) as [url Hurl]
    end.
    + apply debugCanvas_draw. simpl. apply debugCanvas_draw, Hcv.
    + exists url. rewrite Hurl. reflexivity.
  - rewrite debugImages_draw. split; [assumption|].
    apply debugCanvas_draw, Hcv.
  - rewrite debugImages_draw. split; [assumption|].
    apply debugCanvas_draw, Hcv.
Qed.

Lemma scanScale_emitted F scale (w : W) :
  emitted Normal w ->
  holds emitted (scanScale B imageData scannerSettings F true scale w).
Proof.
  intros Hw. unfold scanScale.
  destruct (scaledDims imageData scale) as [[sw sh]|]; [|exact I].
  destruct ((sw <=? 0) || (sh <=? 0)); [exact Hw|].
  destruct (negb (getContext2d B sw sh)); [exact Hw|].
  destruct (negb (getContext2d B (width imageData) (height imageData)));
    [exact Hw|].
  destruct (probe B (drawImage B imageData sw sh) 0 0 sw sh).
  - unfold holds, emitted. simpl. rewrite last_last. apply Hw.
  - apply loopSizes_rule; try (intros; exact I);
      [intros; apply scanWindow_emitted; assumption | exact Hw].
  - apply loopSizes_rule; try (intros; exact I);
      [intros; apply scanWindow_emitted; assumption | exact Hw].
Qed.

Lemma scan_emitted F cv :
  useAdvancedScanning scannerSettings = true ->
  jsQR B (data imageData) (width imageData) (height imageData) = NoCode ->
  cv_2d cv = true ->
  forall b,
    fst (scanWithSlidingWindow B imageData scannerSettings F (Some cv))
    = Return b ->
    match b,
          last (probes (snd (scanWithSlidingWindow B imageData scannerSettings
                                                   F (Some cv))))
               (Native num)
    with
    | true, Frame _ _ _ =>
        debugImages (snd (scanWithSlidingWindow B imageData scannerSettings
                                                F (Some cv))) = []
    | _, _ =>
        exists url,
          debugImages (snd (scanWithSlidingWindow B imageData scannerSettings
                                                  F (Some cv))) = [Some url]
    end.
Proof.
  intros Hadv Hnative H2d b. unfold scanWithSlidingWindow.
  rewrite Hnative, Hadv. simpl negb. cbv iota.
  unfold debugSetup. simpl. rewrite debug_on, H2d.
  set (w1 := draw _ _).
  assert (Hw1 : emitted Normal w1).
  { subst w1. split; [reflexivity|discriminate]. }
  assert (Hloop : holds emitted
            (loopScale B imageData scannerSettings F F true
                       (minScale scannerSettings) w1)).
  { apply loopScale_rule; try (intros; exact I); [|exact Hw1].
    intros; apply scanScale_emitted; assumption. }
  destruct (loopScale B imageData scannerSettings F F true
                      (minScale scannerSettings) w1) as [k v].
  unfold holds in Hloop. simpl in Hloop.
  destruct k; simpl; try discriminate.
  - intros Hb. injection Hb as <-.
    destruct Hloop as [Himg Hcv]. unfold debugFinish.
    rewrite debug_on. simpl.
    destruct (debugCanvas v) as [cv'|] eqn:Ecv; [|congruence].
    simpl. rewrite Himg. simpl. eauto.
  - intros Hb. injection Hb as <-.
    destruct b0; unfold emitted in Hloop; [|contradiction].
    destruct (last (probes v) (Native num)); [contradiction|assumption..].
Qed.

End Diagnostics.

(** C4, as the code has it.  With [debugMode] off no diagnostic image is
    ever emitted.  With [debugMode] on, a debug canvas that has a 2d
    context and data URLs that are never empty, a scan that goes past the
    native pass and returns false, or returns true on a window, has emitted
    exactly one image, and not an absent one.  (Of a scan that returns true
    on a whole resampled frame nothing is said.) *)
Theorem diagnostic_image_emission :
  forall (num : Type) (NUM : JSNumber num) (Pixels Bitmap : Type)
         (B : Browser num Pixels Bitmap) (imageData : ImageData Pixels)
         (scannerSettings : ScannerSettings num) (F : nat)
         (debugCanvasRef : option (HTMLCanvasElement num Pixels)),
    let r := scanWithSlidingWindow B imageData scannerSettings F
                                   debugCanvasRef in
    (debugMode scannerSettings = false -> debugImages (snd r) = [])
    /\ (debugMode scannerSettings = true ->
        useAdvancedScanning scannerSettings = true ->
        jsQR B (data imageData) (width imageData) (height imageData) = NoCode ->
        (forall cv, toDataURL B cv <> EmptyString) ->
        forall cv, debugCanvasRef = Some cv -> cv_2d cv = true ->
        forall b, fst r = Return b ->
          (b = false
           \/ exists scale sw sh windowSize x y,
                last (probes (snd r)) (Native num)
                = Window scale sw sh windowSize x y) ->
          exists url, debugImages (snd r) = [Some url]).
Proof.
  intros num NUM Pixels Bitmap B imageData scannerSettings F ref r.
  subst r. split.
  - apply scan_silent.
  - intros Hon Hadv Hnative Hurl cv -> H2d b Hb Hcase.
    pose proof (@scan_emitted num NUM Pixels Bitmap B imageData
                              scannerSettings Hon Hurl F cv Hadv Hnative H2d
                              b Hb) as H.
    destruct Hcase as [-> | (scale & sw & sh & ws & x & y & Hlast)].
    + exact H.
    + rewrite Hlast in H. destruct b; exact H.
Qed.

(* ------------------------------------------------------------------ *)
(** ** A scan whose scale loop ends *)

Section Exhaustion.

Variable num : Type.
Context {NUM : JSNumber num}.
Variables Pixels Bitmap : Type.
Variable B : Browser num Pixels Bitmap.
Variable imageData : ImageData Pixels.
Variable scannerSettings : ScannerSettings num.

Local Notation W := (world num Pixels).

Lemma logs_debugFinish c (w : W) :
  resampled (debugFinish B scannerSettings c w) = resampled w
  /\ visited (debugFinish B scannerSettings c w) = visited w.
Proof.
  unfold debugFinish. destruct (c && debugMode scannerSettings); [|auto].
  destruct (debugCanvas w); auto.
Qed.

Lemma firstSuccess_split (L pre : list (site num)) (s : site num) (p : string) :
  firstSuccess B imageData L = Some (pre, s, p) ->
  exists rest,
    L = pre ++ s :: rest
    /\ outcome B imageData s = Code p
    /\ forall s', In s' pre -> payload (outcome B imageData s') = None.
Proof.
  revert pre. induction L as [|a L IH]; intros pre H; simpl in H;
    [discriminate|].
  destruct (outcome B imageData a) eqn:Ea.
  - injection H as <- <- <-. exists L. simpl. repeat split; auto.
    intros s' [].
  - destruct (firstSuccess B imageData L) as [[[pre' s'] p']|];
      [|discriminate].
    injection H as <- <- <-.
    destruct (IH pre' eq_refl) as (rest & -> & Hs & Hpre).
    exists rest. repeat split; auto.
    intros s'' [<-|Hin]; [rewrite Ea; reflexivity|auto].
  - destruct (firstSuccess B imageData L) as [[[pre' s'] p']|];
      [|discriminate].
    injection H as <- <- <-.
    destruct (IH pre' eq_refl) as (rest & -> & Hs & Hpre).
    exists rest. repeat split; auto.
    intros s'' [<-|Hin]; [rewrite Ea; reflexivity|auto].
Qed.

(** When the guard of the scale loop fails after [n] scales, the scan
    returns, and what it returns is read off the probing order. *)
Lemma scan_follows_order (n : nat) :
  jsQR B (data imageData) (width imageData) (height imageData) = NoCode ->
  useAdvancedScanning scannerSettings = true ->
  in_range scannerSettings
    (scaleSeq scannerSettings n (minScale scannerSettings)) ->
  nleb (scaleAfter scannerSettings n (minScale scannerSettings))
       (maxScale scannerSettings) = false ->
  dims_finite imageData
    (scaleSeq scannerSettings n (minScale scannerSettings)) ->
  steps_advance scannerSettings ->
  exists F0, forall F, (F0 <= F)%nat ->
    forall ref : option (HTMLCanvasElement num Pixels),
      let r := scanWithSlidingWindow B imageData scannerSettings F ref in
      let order := probingOrder B imageData scannerSettings
                     (scaleSeq scannerSettings n (minScale scannerSettings)) in
      match firstSuccess B imageData order with
      | Some (pre, s, p) =>
          fst r = Return true
          /\ probes (snd r) = Native num :: pre ++ [s]
          /\ decoded (snd r) = [p]
      | None =>
          fst r = Return false
          /\ probes (snd r) = Native num :: order
          /\ decoded (snd r) = []
      end.
Proof.
  intros Hnative Hadv Hrange Hend Hdims Hsteps.
  destruct (scales_follow B true Hsteps Hdims) as [Ft Ht].
  destruct (scales_follow B false Hsteps Hdims) as [Ff Hf].
  exists (Nat.max n (Nat.max Ft Ff)). intros F HF ref r order.
  subst r order. unfold scanWithSlidingWindow.
  rewrite Hnative, Hadv. simpl negb. cbv iota.
  destruct (probes_debugSetup imageData scannerSettings (initial ref))
    as (Hp0 & Hd0 & _).
  destruct (debugSetup imageData scannerSettings (initial ref)) as [c w1].
  simpl in Hp0, Hd0.
  rewrite (loopScale_runList B imageData F c (n:=n) (fuel:=F))
    by (assumption || lia).
  assert (Hrun : follows B imageData
            (probingOrder B imageData scannerSettings
               (scaleSeq scannerSettings n (minScale scannerSettings))) w1
            (runList (scanScale B imageData scannerSettings F c)
               (scaleSeq scannerSettings n (minScale scannerSettings)) w1)).
  { destruct c; [apply Ht | apply Hf]; lia. }
  unfold follows in Hrun.
  destruct (runList (scanScale B imageData scannerSettings F c)
              (scaleSeq scannerSettings n (minScale scannerSettings)) w1)
    as [k v].
  destruct (firstSuccess B imageData
              (probingOrder B imageData scannerSettings
                 (scaleSeq scannerSettings n (minScale scannerSettings))))
    as [[[pre s] p]|];
    destruct Hrun as (Hc & Hp & Hd); cbn [fst snd] in Hc, Hp, Hd; subst k.
  - cbn [fst snd]. rewrite Hp, Hd, Hp0, Hd0. auto.
  - rewrite loopScale_done by exact Hend.
    destruct (probes_debugFinish B scannerSettings c v) as [Hpf Hdf].
    cbn [fst snd]. rewrite Hpf, Hdf, Hp, Hd, Hp0, Hd0. auto.
Qed.

(** Without window sizes the probing order holds whole frames only. *)
Lemma no_sizes_no_windows (scales : list num) :
  windowSizes scannerSettings = [] ->
  windowsProbed (probingOrder B imageData scannerSettings scales) = [].
Proof.
  intros Hsizes. induction scales as [|scale rest IH]; simpl; [reflexivity|].
  rewrite windowsProbed_app, IH, app_nil_r.
  unfold scaleOrder. destruct (scaledDims imageData scale) as [[sw sh]|];
    [|reflexivity].
  destruct (resamples B imageData sw sh); [|reflexivity].
  rewrite Hsizes. reflexivity.
Qed.

Lemma windowsProbed_prefix (pre rest : list (site num)) (s : site num) :
  windowsProbed (pre ++ s :: rest) = [] ->
  windowsProbed (pre ++ [s]) = [].
Proof.
  rewrite !windowsProbed_app. intros H.
  apply app_eq_nil in H. destruct H as [-> H].
  destruct s; simpl in *; try reflexivity. discriminate.
Qed.

(** A scale loop whose guard fails at once leaves the native pass alone. *)
Lemma scan_empty_range F ref :
  jsQR B (data imageData) (width imageData) (height imageData) = NoCode ->
  nleb (minScale scannerSettings) (maxScale scannerSettings) = false ->
  let r := scanWithSlidingWindow B imageData scannerSettings F ref in
  fst r = Return false
  /\ probes (snd r) = [Native num]
  /\ visited (snd r) = []
  /\ resampled (snd r) = []
  /\ decoded (snd r) = [].
Proof.
  intros Hnative Hempty r. subst r. unfold scanWithSlidingWindow.
  rewrite Hnative.
  destruct (negb (useAdvancedScanning scannerSettings)); [simpl; auto 6|].
  destruct (probes_debugSetup imageData scannerSettings (initial ref))
    as (Hp0 & Hd0 & Hr0 & Hv0 & _).
  destruct (debugSetup imageData scannerSettings (initial ref)) as [c w1].
  simpl in Hp0, Hd0, Hr0, Hv0.
  rewrite loopScale_done by exact Hempty.
  destruct (probes_debugFinish B scannerSettings c w1) as [Hpf Hdf].
  destruct (logs_debugFinish c w1) as [Hrf Hvf].
  cbn [fst snd]. rewrite Hpf, Hdf, Hrf, Hvf, Hp0, Hd0, Hr0, Hv0. auto 6.
Qed.

End Exhaustion.

(** C6, as the code has it.  (a) When minScale <= maxScale is false and the
    native decode finds nothing, the scale loop runs zero times for every
    amount of fuel: the scan returns false, the native attempt is its only
    probe, no scale is visited and nothing is resampled.  (b) When
    windowSizes is empty, advanced scanning is on, the native decode finds
    nothing and the guard of the scale loop fails after [n] scales of
    finite dimensions, the scan returns; no window is probed; it returns
    false, after probing every whole resampled frame, exactly when none of
    these frames decodes, and returns true with the payload of the first
    frame that does otherwise.  Nothing is said of a scaleStep that is not
    positive. *)
Theorem degenerate_configurations :
  forall (num : Type) (NUM : JSNumber num) (Pixels Bitmap : Type)
         (B : Browser num Pixels Bitmap) (imageData : ImageData Pixels)
         (scannerSettings : ScannerSettings num),
    jsQR B (data imageData) (width imageData) (height imageData) = NoCode ->
    (nleb (minScale scannerSettings) (maxScale scannerSettings) = false ->
     forall F ref,
       let r := scanWithSlidingWindow B imageData scannerSettings F ref in
       fst r = Return false
       /\ probes (snd r) = [Native num]
       /\ visited (snd r) = []
       /\ resampled (snd r) = []
       /\ decoded (snd r) = [])
    /\ (windowSizes scannerSettings = [] ->
        useAdvancedScanning scannerSettings = true ->
        forall n : nat,
          let scales := scaleSeq scannerSettings n (minScale scannerSettings) in
          let order := probingOrder B imageData scannerSettings scales in
          in_range scannerSettings scales ->
          nleb (scaleAfter scannerSettings n (minScale scannerSettings))
               (maxScale scannerSettings) = false ->
          dims_finite imageData scales ->
          exists F0, forall F, (F0 <= F)%nat -> forall ref,
            let r := scanWithSlidingWindow B imageData scannerSettings F ref in
            windowsProbed (probes (snd r)) = []
            /\ match firstSuccess B imageData order with
               | Some (pre, s, p) =>
                   fst r = Return true
                   /\ probes (snd r) = Native num :: pre ++ [s]
                   /\ decoded (snd r) = [p]
               | None =>
                   fst r = Return false
                   /\ probes (snd r) = Native num :: order
                   /\ decoded (snd r) = []
               end).
Proof.
  intros num NUM Pixels Bitmap B imageData scannerSettings Hnative. split.
  - intros Hempty F ref. apply scan_empty_range; assumption.
  - intros Hsizes Hadv n scales order Hrange Hend Hdims.
    assert (Hsteps : steps_advance scannerSettings).
    { intros ws Hin. rewrite Hsizes in Hin. destruct Hin. }
    destruct (scan_follows_order B n
                Hnative Hadv Hrange Hend Hdims Hsteps) as [F0 H].
    exists F0. intros F HF ref r. specialize (H F HF ref).
    cbv zeta in H. fold scales in H. fold order in H. fold r in H.
    split; [|exact H].
    pose proof (no_sizes_no_windows B imageData scannerSettings scales Hsizes)
      as Hnone.
    fold order in Hnone.
    destruct (firstSuccess B imageData order) as [[[pre s] p]|] eqn:Efs.
    + destruct H as (_ & Hp & _). rewrite Hp. simpl.
      apply firstSuccess_split in Efs. destruct Efs as (rest & Eo & _).
      rewrite Eo in Hnone. apply windowsProbed_prefix with (rest := rest).
      exact Hnone.
    + destruct H as (_ & Hp & _). rewrite Hp. simpl. exact Hnone.
Qed.

(* ------------------------------------------------------------------ *)
(** ** A window step of zero *)

Section ZeroStep.

Variable num : Type.
Context {NUM : JSNumber num}.
Variables Pixels Bitmap : Type.
Variable B : Browser num Pixels Bitmap.
Variable imageData : ImageData Pixels.
Variable scannerSettings : ScannerSettings num.

Local Notation W := (world num Pixels).

Lemma loopX_stuck c scale sw sh bm windowSize y x :
  x <= sw - windowSize ->
  payload (probe B bm x y windowSize windowSize) = None ->
  forall fuel (w : W),
    fst (loopX B scannerSettings c scale sw sh bm fuel windowSize 0 y x w)
    = Diverge.
Proof.
  intros Hfit Hfail. induction fuel as [|fuel IH]; intros w; simpl;
    destruct (Z.leb_spec x (sw - windowSize)) as [_|Hgt]; try lia;
    [reflexivity|].
  unfold scanWindow.
  destruct (probe B bm x y windowSize windowSize); simpl in Hfail;
    [discriminate| |]; rewrite Z.add_0_r; apply IH.
Qed.

Lemma loopY_stuck c scale sw sh bm windowSize :
  0 <= sw - windowSize ->
  0 <= sh - windowSize ->
  payload (probe B bm 0 0 windowSize windowSize) = None ->
  forall F fuel (w : W),
    fst (loopY B scannerSettings c scale sw sh bm F fuel windowSize 0 0 w)
    = Diverge.
Proof.
  intros HfitX HfitY Hfail F fuel w.
  destruct fuel as [|fuel]; simpl;
    destruct (Z.leb_spec 0 (sh - windowSize)) as [_|Hgt]; try lia;
    [reflexivity|].
  assert (Hx : fst (loopX B scannerSettings c scale sw sh bm F windowSize
                          0 0 0 w) = Diverge)
    by (apply loopX_stuck; assumption).
  destruct (loopX B scannerSettings c scale sw sh bm F windowSize 0 0 0 w)
    as [k v].
  simpl in Hx. subst k. reflexivity.
Qed.

Lemma scanScale_stuck scale sw sh windowSize rest :
  scaledDims imageData scale = Some (sw, sh) ->
  resamples B imageData sw sh = true ->
  payload (probe B (drawImage B imageData sw sh) 0 0 sw sh) = None ->
  windowSizes scannerSettings = windowSize :: rest ->
  stepSizeOf scannerSettings windowSize = Some 0 ->
  0 <= sw - windowSize ->
  0 <= sh - windowSize ->
  payload (probe B (drawImage B imageData sw sh) 0 0 windowSize windowSize)
  = None ->
  forall F c (w : W),
    fst (scanScale B imageData scannerSettings F c scale w) = Diverge.
Proof.
  intros Hdims Hres Hframe Hsizes Hstep HfitX HfitY Hfail F c w.
  unfold scanScale. rewrite Hdims.
  unfold resamples in Hres.
  apply andb_prop in Hres. destruct Hres as [Hres Hc2].
  apply andb_prop in Hres. destruct Hres as [Hpos Hc1].
  apply negb_true_iff in Hpos. rewrite Hpos, Hc1, Hc2. simpl negb. cbv iota.
  assert (Hsz : forall w' : W,
            fst (loopSizes B scannerSettings c scale sw sh
                           (drawImage B imageData sw sh) F
                           (windowSizes scannerSettings) w') = Diverge).
  { intros w'. rewrite Hsizes. simpl. rewrite Hstep.
    assert (Hy : fst (loopY B scannerSettings c scale sw sh
                            (drawImage B imageData sw sh) F F windowSize
                            0 0 w') = Diverge)
      by (apply loopY_stuck; assumption).
    destruct (loopY B scannerSettings c scale sw sh
                    (drawImage B imageData sw sh) F F windowSize 0 0 w')
      as [k v].
    simpl in Hy. subst k. reflexivity. }
  destruct (probe B (drawImage B imageData sw sh) 0 0 sw sh);
    simpl in Hframe; [discriminate| |]; apply Hsz.
Qed.

(** When the first scale probes a window size whose step is zero and the
    decoder finds nothing there, the scan never returns. *)
Lemma scan_stuck sw sh windowSize rest :
  jsQR B (data imageData) (width imageData) (height imageData) = NoCode ->
  useAdvancedScanning scannerSettings = true ->
  nleb (minScale scannerSettings) (maxScale scannerSettings) = true ->
  scaledDims imageData (minScale scannerSettings) = Some (sw, sh) ->
  resamples B imageData sw sh = true ->
  payload (probe B (drawImage B imageData sw sh) 0 0 sw sh) = None ->
  windowSizes scannerSettings = windowSize :: rest ->
  stepSizeOf scannerSettings windowSize = Some 0 ->
  0 <= sw - windowSize ->
  0 <= sh - windowSize ->
  payload (probe B (drawImage B imageData sw sh) 0 0 windowSize windowSize)
  = None ->
  forall F ref,
    fst (scanWithSlidingWindow B imageData scannerSettings F ref) = Diverge.
Proof.
  intros Hnative Hadv Hguard Hdims Hres Hframe Hsizes Hstep HfitX HfitY Hfail
         F ref.
  unfold scanWithSlidingWindow. rewrite Hnative, Hadv. simpl negb. cbv iota.
  destruct (debugSetup imageData scannerSettings (initial ref)) as [c w1].
  destruct F as [|F]; simpl; rewrite Hguard; [reflexivity|].
  assert (Hs : fst (scanScale B imageData scannerSettings (S F) c
                             (minScale scannerSettings) w1) = Diverge)
    by (eapply scanScale_stuck; eassumption).
  destruct (scanScale B imageData scannerSettings (S F) c
                      (minScale scannerSettings) w1) as [k v].
  simpl in Hs. subst k. reflexivity.
Qed.

End ZeroStep.

(** C5. The code takes the step as
    floor(windowSize * (1 - windowOverlap)) and does not raise a zero to 1.
    With windowOverlap = 0.999, in [0,1), and windowSize = 300 the step is
    floor(0.3) = 0; on a 300 x 300 image in which the decoder finds nothing
    the inner loop probes the window at (0, 0) of the frame at scale 1
    again and again: whatever the fuel, the scan is still running. *)
Theorem zero_step_never_terminates :
  forall (F : nat) (debugCanvasRef : option (HTMLCanvasElement float label)),
    PrimFloat.leb 0 (windowOverlap denseSettings) = true
    /\ PrimFloat.ltb (windowOverlap denseSettings) 1 = true
    /\ stepSizeOf denseSettings 300 = Some 0
    /\ fst (scanWithSlidingWindow (mockBrowser float blind) (mockImage 300 300)
                                  denseSettings F debugCanvasRef) = Diverge.
Proof.
  intros F ref. repeat (split; [reflexivity|]).
  apply scan_stuck with (sw := 300) (sh := 300) (windowSize := 300)
                        (rest := [500]);
    solve [reflexivity | lia].
Qed.

(** C7. minScale = 0.1, scaleStep = 0.1 and maxScale = 1.6 are three doubles
    with maxScale - minScale exactly 15 times scaleStep, so the scales to
    visit are 16, the last being maxScale.  Under [scale += scaleStep] in
    double precision the loop visits 15 scales: after 1.5000000000000002
    the sum is above 1.6 and the guard fails, so maxScale is skipped. *)
Theorem accumulated_scale_skips_maxScale :
  let r := scanWithSlidingWindow (mockBrowser float blind) (mockImage 100 100)
                                 tenthsSettings 100 None in
  PrimFloat.ltb 0 (scaleStep tenthsSettings) = true
  /\ PrimFloat.leb (minScale tenthsSettings) (maxScale tenthsSettings) = true
  /\ match Binary64.toQ (minScale tenthsSettings),
           Binary64.toQ (scaleStep tenthsSettings),
           Binary64.toQ (maxScale tenthsSettings) with
     | Some lo, Some step, Some hi => (hi == lo + 15 * step)%Q
     | _, _, _ => False
     end
  /\ fst r = Return false
  /\ List.length (visited (snd r)) = 15%nat
  /\ last (visited (snd r)) 0%float = 1.5000000000000002%float
  /\ existsb (PrimFloat.eqb (maxScale tenthsSettings)) (visited (snd r)) = false
  /\ PrimFloat.ltb (maxScale tenthsSettings)
       (nadd (last (visited (snd r)) 0%float) (scaleStep tenthsSettings))
     = true.
Proof.
  vm_compute. repeat split; reflexivity.
Qed.

(** In exact arithmetic the same loop visits the 16 scales and ends on
    maxScale. *)
Lemma exact_arithmetic_visits_maxScale :
  let r := scanWithSlidingWindow (mockBrowser Q blind) (mockImage 100 100)
                                 tenthsSettingsQ 100 None in
  Binary64.exactly (minScale tenthsSettings) (minScale tenthsSettingsQ)
  /\ Binary64.exactly (scaleStep tenthsSettings) (scaleStep tenthsSettingsQ)
  /\ Binary64.exactly (maxScale tenthsSettings) (maxScale tenthsSettingsQ)
  /\ fst r = Return false
  /\ List.length (visited (snd r)) = 16%nat
  /\ (last (visited (snd r)) 0 == maxScale tenthsSettingsQ)%Q.
Proof.
  vm_compute. repeat split; reflexivity.
Qed.

(** A scale step of zero keeps the scale loop on its first scale. *)
Lemma zero_scale_step_never_terminates :
  forall (F : nat) (debugCanvasRef : option (HTMLCanvasElement float label)),
    fst (scanWithSlidingWindow (mockBrowser float blind) (mockImage 100 100)
                               frozenSettings F debugCanvasRef) = Diverge.
Proof.
  intros F ref. unfold scanWithSlidingWindow.
  change (jsQR (mockBrowser float blind) (data (mockImage 100 100))
               (width (mockImage 100 100)) (height (mockImage 100 100)))
    with NoCode.
  change (negb (useAdvancedScanning frozenSettings)) with false. cbv iota.
  destruct (debugSetup (mockImage 100 100) frozenSettings (initial ref))
    as [c w1].
  assert (Hbody : forall w : world float label,
            fst (scanScale (mockBrowser float blind) (mockImage 100 100)
                           frozenSettings F c 1%float w) = Normal).
  { intros w. destruct F; reflexivity. }
  assert (Hloop : forall fuel (w : world float label),
            fst (loopScale (mockBrowser float blind) (mockImage 100 100)
                           frozenSettings F fuel c 1%float w) = Diverge).
  { induction fuel as [|fuel IH]; intros w; [reflexivity|].
    simpl loopScale.
    change (nleb 1%float (maxScale frozenSettings)) with true. cbv iota.
    specialize (Hbody w).
    destruct (scanScale (mockBrowser float blind) (mockImage 100 100)
                        frozenSettings F c 1%float w) as [k v].
    simpl in Hbody. subst k.
    change (nadd 1%float (scaleStep frozenSettings)) with 1%float.
    apply IH. }
  specialize (Hloop F w1).
  change (minScale frozenSettings) with 1%float.
  destruct (loopScale (mockBrowser float blind) (mockImage 100 100)
                      frozenSettings F F c 1%float w1) as [k v].
  simpl in Hloop. subst k. reflexivity.
Qed.

(* ------------------------------------------------------------------ *)
(** ** Concrete runs *)

(** A code in the unmodified image: one decode attempt, even with debugMode
    on and a debug canvas at hand. *)
Lemma native_pass_short_circuit_witness :
  scanWithSlidingWindow (mockBrowser float (finds [[]] "hello"))
                        (mockImage 1000 700) (withDebug true defaultSettings)
                        0 (Some (mockCanvas float))
  = (Return true,
     {| debugCanvas := Some (mockCanvas float); probes := [Native float];
        resampled := []; visited := []; decoded := ["hello"%string];
        debugImages := [] |}).
Proof.
  apply native_pass_short_circuit. reflexivity.
Defined.

(** Advanced scanning off and nothing found natively. *)
Lemma advanced_scanning_disabled_stops_witness :
  scanWithSlidingWindow (mockBrowser float blind) (mockImage 1000 700)
                        basicSettings 0 None
  = (Return false,
     {| debugCanvas := None; probes := [Native float];
        resampled := []; visited := []; decoded := [];
        debugImages := [] |}).
Proof.
  apply advanced_scanning_disabled_stops; reflexivity.
Defined.

(** Two disjoint windows of the same frame hold a code each, one top right
    and one bottom left: the top right one is reported, and the bottom
    left one is never probed. *)
Lemma first_success_in_probing_order_witness :
  exists F0, forall F, (F0 <= F)%nat ->
    forall debugCanvasRef : option (HTMLCanvasElement float label),
      let r := scanWithSlidingWindow (mockBrowser float twoCodes)
                 (mockImage 600 600) (tilingSettings false 300) F
                 debugCanvasRef in
      fst r = Return true
      /\ decoded (snd r) = ["top right"%string]
      /\ probes (snd r) =
         Native float
         :: [Frame 1%float 600 600; Window 1%float 600 600 300 0 0]
         ++ [Window 1%float 600 600 300 300 0].
Proof.
  apply (proj2 (@first_success_in_probing_order float binary64 label
                  (Z * Z)%type (mockBrowser float twoCodes)
                  (mockImage 600 600) (tilingSettings false 300))
               1%nat
               [Frame 1%float 600 600; Window 1%float 600 600 300 0 0]
               [Window 1%float 600 600 300 0 300;
                Window 1%float 600 600 300 300 300]
               (Window 1%float 600 600 300 300 0) "top right"%string).
  - reflexivity.
  - reflexivity.
  - intros scale [<-|[]]. reflexivity.
  - intros scale [<-|[]]. discriminate.
  - intros windowSize [<-|[]]. exists 300. split; [reflexivity|lia].
  - reflexivity.
  - intros s' [<-|[<-|[]]]; reflexivity.
  - reflexivity.
Defined.

(** A 600 x 600 image and windows of side 300 in double precision: four
    windows. *)
Lemma exhaustive_window_coverage_witness :
  exists F0, forall F, (F0 <= F)%nat ->
    forall debugCanvasRef : option (HTMLCanvasElement float label),
      let r := scanWithSlidingWindow (mockBrowser float blind)
                 (mockImage 600 600) (tilingSettings false 300) F
                 debugCanvasRef in
      let wins := windowsProbed (probes (snd r)) in
      fst r = Return false
      /\ decoded (snd r) = []
      /\ List.length wins = 4%nat
      /\ NoDup wins
      /\ (forall x y s, In (x, y, s) wins ->
            s = 300 /\ 0 <= x /\ x + 300 <= 600 /\ 0 <= y /\ y + 300 <= 600)
      /\ (forall r1 r2 px py, In r1 wins -> In r2 wins ->
            covers r1 px py -> covers r2 px py -> r1 = r2)
      /\ (forall px py, 0 <= px < 600 -> 0 <= py < 600 ->
            exists r0, In r0 wins /\ covers r0 px py).
Proof.
  apply (@exhaustive_window_coverage float binary64 label (Z * Z)%type
           (mockBrowser float blind) [] false 300 2);
    solve [lia | reflexivity].
Defined.

(** C4 as stated fails.  First run: debugMode is on, the debug canvas is
    there, the native decode finds nothing and the whole frame resampled at
    scale 0.5 decodes; the scan returns true and hands nothing to
    [onDebugImage].  Second run: debugMode is on and there is no debug
    canvas; the scan goes past the native pass, finds nothing and hands
    nothing to [onDebugImage]. *)
Lemma whole_frame_success_emits_no_image :
  let scannerSettings := withDebug true defaultSettings in
  let B := mockBrowser float (finds [[500; 350; 0; 0; 500; 350]] "payload") in
  let r := scanWithSlidingWindow B (mockImage 1000 700) scannerSettings 10
                                 (Some (mockCanvas float)) in
  let r' := scanWithSlidingWindow (mockBrowser float blind) (mockImage 1000 700)
                                  scannerSettings 10 None in
  debugMode scannerSettings = true
  /\ useAdvancedScanning scannerSettings = true
  /\ jsQR B (data (mockImage 1000 700)) 1000 700 = NoCode
  /\ fst r = Return true
  /\ decoded (snd r) = ["payload"%string]
  /\ probes (snd r) = [Native float; Frame 0.5%float 500 350]
  /\ debugImages (snd r) = []
  /\ fst r' = Return false
  /\ List.length (probes (snd r')) = 175%nat
  /\ debugImages (snd r') = [].
Proof.
  vm_compute. repeat split; reflexivity.
Qed.

(** With debugMode on and a debug canvas: one image when nothing is found,
    and one when a window decodes. *)
Lemma diagnostic_image_emission_witness :
  let B := mockBrowser float (finds [[600; 600; 300; 0; 300; 300]] "payload") in
  let exhausted := scanWithSlidingWindow (mockBrowser float blind)
                     (mockImage 600 600) (tilingSettings true 300) 10
                     (Some (mockCanvas float)) in
  let found := scanWithSlidingWindow B (mockImage 600 600)
                 (tilingSettings true 300) 10 (Some (mockCanvas float)) in
  (fst exhausted = Return false
   /\ exists url, debugImages (snd exhausted) = [Some url])
  /\ (fst found = Return true
      /\ last (probes (snd found)) (Native float)
         = Window 1%float 600 600 300 300 0
      /\ exists url, debugImages (snd found) = [Some url]).
Proof.
  assert (Hurl : forall (decode : label -> jsqr_result)
                        (cv : HTMLCanvasElement float label),
             toDataURL (mockBrowser float decode) cv <> EmptyString)
    by (intros decode cv; discriminate).
  split; [split; [reflexivity|] | split; [reflexivity | split; [reflexivity|]]].
  - exact (proj2 (@diagnostic_image_emission float binary64 label (Z * Z)%type
                    (mockBrowser float blind) (mockImage 600 600)
                    (tilingSettings true 300) 10 (Some (mockCanvas float)))
                 eq_refl eq_refl eq_refl (Hurl blind)
                 (mockCanvas float) eq_refl eq_refl false eq_refl
                 (or_introl eq_refl)).
  - refine (proj2 (@diagnostic_image_emission float binary64 label (Z * Z)%type
                    (mockBrowser float
                       (finds [[600; 600; 300; 0; 300; 300]] "payload"))
                    (mockImage 600 600)
                    (tilingSettings true 300) 10 (Some (mockCanvas float)))
                 eq_refl eq_refl eq_refl
                 (Hurl (finds [[600; 600; 300; 0; 300; 300]] "payload"))
                 (mockCanvas float) eq_refl eq_refl true eq_refl
                 (or_intror _)).
    exists 1%float, 600, 600, 300, 300, 0. reflexivity.
Defined.

(** C6 as stated fails: windowSizes is empty and the native decode finds
    nothing, yet the scan returns true, on the whole frame resampled at
    scale 0.5. *)
Lemma empty_window_sizes_can_find :
  let B := mockBrowser float (finds [[500; 350; 0; 0; 500; 350]] "payload") in
  let r := scanWithSlidingWindow B (mockImage 1000 700) frameOnlySettings 10
                                 None in
  windowSizes frameOnlySettings = []
  /\ jsQR B (data (mockImage 1000 700)) 1000 700 = NoCode
  /\ fst r = Return true
  /\ decoded (snd r) = ["payload"%string]
  /\ probes (snd r) = [Native float; Frame 0.5%float 500 350].
Proof.
  vm_compute. repeat split; reflexivity.
Qed.

(** minScale = 2 above maxScale = 0.5: the native attempt only.  No window
    sizes and the application's scale range: the seven whole frames are
    probed and no window. *)
Lemma degenerate_configurations_witness :
  (forall F ref,
     let r := scanWithSlidingWindow (mockBrowser float blind)
                (mockImage 1000 700) emptyRangeSettings F ref in
     fst r = Return false
     /\ probes (snd r) = [Native float]
     /\ visited (snd r) = []
     /\ resampled (snd r) = []
     /\ decoded (snd r) = [])
  /\ (exists F0, forall F, (F0 <= F)%nat -> forall ref,
        let r := scanWithSlidingWindow (mockBrowser float blind)
                   (mockImage 1000 700) frameOnlySettings F ref in
        windowsProbed (probes (snd r)) = []
        /\ fst r = Return false
        /\ probes (snd r) =
           [Native float; Frame 0.5%float 500 350; Frame 0.75%float 750 525;
            Frame 1%float 1000 700; Frame 1.25%float 1250 875;
            Frame 1.5%float 1500 1050; Frame 1.75%float 1750 1225;
            Frame 2%float 2000 1400]
        /\ decoded (snd r) = []).
Proof.
  split.
  - exact (proj1 (@degenerate_configurations float binary64 label (Z * Z)%type
                    (mockBrowser float blind) (mockImage 1000 700)
                    emptyRangeSettings eq_refl) eq_refl).
  - destruct (proj2 (@degenerate_configurations float binary64 label
                       (Z * Z)%type (mockBrowser float blind)
                       (mockImage 1000 700) frameOnlySettings eq_refl)
                    eq_refl eq_refl 7%nat) as [F0 H].
    + intros scale Hin. vm_compute in Hin.
      repeat (destruct Hin as [<-|Hin]; [reflexivity|]). destruct Hin.
    + reflexivity.
    + intros scale Hin. vm_compute in Hin.
      repeat (destruct Hin as [<-|Hin]; [discriminate|]). destruct Hin.
    + exists F0. intros F HF ref. exact (H F HF ref).
Defined.

(** The first window throws, the second holds a code: the scan goes on
    past the throw and finds it, exactly as if the first window had been
    empty. *)
Lemma throwing_probe_counts_as_not_found_witness :
  let bad := [[600; 600; 0; 0; 300; 300]] in
  let decode := finds [[600; 600; 300; 0; 300; 300]] "payload" in
  let B1 := mockBrowser float (throwing bad decode) in
  let B2 := mockBrowser float (silenced bad decode) in
  outcome B1 (mockImage 600 600) (Window 1%float 600 600 300 0 0) = Throws
  /\ outcome B2 (mockImage 600 600) (Window 1%float 600 600 300 0 0) = NoCode
  /\ scanWithSlidingWindow B1 (mockImage 600 600) (tilingSettings true 300) 10
                           (Some (mockCanvas float))
     = scanWithSlidingWindow B2 (mockImage 600 600) (tilingSettings true 300)
                             10 (Some (mockCanvas float))
  /\ fst (scanWithSlidingWindow B1 (mockImage 600 600)
                                (tilingSettings true 300) 10
                                (Some (mockCanvas float))) = Return true
  /\ decoded (snd (scanWithSlidingWindow B1 (mockImage 600 600)
                                         (tilingSettings true 300) 10
                                         (Some (mockCanvas float))))
     = ["payload"%string].
Proof.
  split; [reflexivity|]. split; [reflexivity|].
  split; [|split; reflexivity].
  apply throwing_probe_counts_as_not_found; [|reflexivity].
  constructor; try reflexivity.
  intros bm x y w h. unfold probe, mockBrowser. cbn [getImageData jsQR].
  unfold throwing, silenced.
  match goal with
  | |- context [existsb ?f ?l] => destruct (existsb f l)
  end; reflexivity.
Defined.

(* ================================================================== *)
(** * Decoded payloads *)

(** ** Strings *)

Lemma prefix_cons (a b : ascii) (s1 s2 : string) :
  String.prefix (String a s1) (String b s2)
  = Ascii.eqb a b && String.prefix s1 s2.
Proof.
  simpl. destruct (ascii_dec a b) as [->|Hne].
  - rewrite Ascii.eqb_refl. reflexivity.
  - apply Ascii.eqb_neq in Hne. rewrite Hne. reflexivity.
Qed.

Lemma prefix_empty (s : string) : String.prefix EmptyString s = true.
Proof. destruct s; reflexivity. Qed.

Lemma prefix_app (tag v : string) : String.prefix tag (tag ++ v) = true.
Proof.
  induction tag as [|a tag IH]; [apply prefix_empty|].
  change (String.prefix (String a tag) (String a (tag ++ v)) = true).
  rewrite prefix_cons, Ascii.eqb_refl. exact IH.
Qed.

Lemma dropString_app (tag v : string) :
  dropString (String.length tag) (tag ++ v) = v.
Proof. induction tag as [|a tag IH]; [destruct v; reflexivity|exact IH]. Qed.

Lemma prefix_split (tag s : string) :
  String.prefix tag s = true -> s = (tag ++ dropString (String.length tag) s)%string.
Proof.
  revert s. induction tag as [|a tag IH]; intros s H.
  - destruct s; reflexivity.
  - destruct s as [|b s]; [discriminate|].
    rewrite prefix_cons in H. apply andb_true_iff in H. destruct H as [Hab H].
    apply Ascii.eqb_eq in Hab. subst b. simpl. f_equal. apply IH, H.
Qed.

Lemma string_app_assoc (a b c : string) :
  ((a ++ b) ++ c = a ++ (b ++ c))%string.
Proof. induction a as [|x a IH]; simpl; [reflexivity|f_equal; exact IH]. Qed.

Lemma hasChar_app (c : ascii) (a b : string) :
  hasChar c (a ++ b) = hasChar c a || hasChar c b.
Proof.
  induction a as [|x a IH]; simpl; [reflexivity|].
  rewrite IH. apply orb_assoc.
Qed.

Lemma plainValue_no_semicolon (s : string) :
  plainValue s = true -> hasChar ";" s = false.
Proof.
  induction s as [|c s IH]; simpl; [reflexivity|]. intros H.
  apply andb_true_iff in H. destruct H as [H Hs].
  apply andb_true_iff in H. destruct H as [Hc _].
  apply negb_true_iff in Hc. rewrite Hc. apply IH, Hs.
Qed.

(** ** [split] *)

(** A text without the separator is one field, and the fields end where the
    separator stands. *)
Lemma splitString_field (sep : ascii) (a : string) :
  hasChar sep a = false -> splitString sep a = [a].
Proof.
  induction a as [|c a IH]; simpl; [reflexivity|]. intros H.
  apply orb_false_iff in H. destruct H as [Hc Ha].
  rewrite Hc, (IH Ha). reflexivity.
Qed.

Lemma splitString_app (sep : ascii) (a r : string) :
  hasChar sep a = false ->
  splitString sep (a ++ String sep r) = a :: splitString sep r.
Proof.
  induction a as [|c a IH]; simpl.
  - intros _. rewrite Ascii.eqb_refl. reflexivity.
  - intros H. apply orb_false_iff in H. destruct H as [Hc Ha].
    rewrite Hc, (IH Ha). reflexivity.
Qed.

(** No field holds the separator. *)
Lemma splitString_fields (sep : ascii) (s : string) :
  Forall (fun field => hasChar sep field = false) (splitString sep s).
Proof.
  induction s as [|c s IH]; simpl.
  - constructor; [reflexivity|constructor].
  - destruct (Ascii.eqb c sep) eqn:Ec.
    + constructor; [reflexivity|exact IH].
    + destruct (splitString sep s) as [|field fields].
      * constructor; [simpl; rewrite Ec; reflexivity|constructor].
      * inversion IH as [|? ? Hf Hfs]; subst.
        constructor; [simpl; rewrite Ec; exact Hf|exact Hfs].
Qed.

(** ** [parseWifiString] *)

Lemma lastField_snoc (tag : string) (fields : list string) (f : string) :
  lastField tag (fields ++ [f])
  = if String.prefix tag f then Some (dropString (String.length tag) f)
    else lastField tag fields.
Proof. unfold lastField. rewrite fold_left_app. reflexivity. Qed.

(** A field that is found is one of the fields. *)
Lemma lastField_In (tag : string) (fields : list string) (v : string) :
  lastField tag fields = Some v -> In (tag ++ v)%string fields.
Proof.
  induction fields as [|f fields IH] using rev_ind; [discriminate|].
  rewrite lastField_snoc. intros H. apply in_or_app.
  destruct (String.prefix tag f) eqn:Ef.
  - right. left. injection H as <-. apply prefix_split, Ef.
  - left. apply IH, H.
Qed.

(** What [forEach] leaves in [credentials] and [ssidFound]: the three
    tags do not overlap, so each property holds the last field of its
    tag. *)
Lemma wifiFields_collect (fields : list string) :
  fold_left wifiField fields
    ({| partial_ssid := None; partial_type := None; partial_password := None |},
     false)
  = ({| partial_ssid := lastField "S:" fields;
        partial_type := lastField "T:" fields;
        partial_password := lastField "P:" fields |},
     match lastField "S:" fields with Some _ => true | None => false end).
Proof.
  induction fields as [|f fields IH] using rev_ind; [reflexivity|].
  rewrite fold_left_app, IH, !lastField_snoc. simpl. unfold wifiField.
  destruct f as [|c f]; [reflexivity|].
  rewrite !prefix_cons.
  destruct (Ascii.eqb "S" c) eqn:ES.
  - apply Ascii.eqb_eq in ES. subst c. simpl Ascii.eqb. cbv iota.
    destruct (String.prefix ":" f); simpl; reflexivity.
  - destruct (Ascii.eqb "T" c) eqn:ET.
    + apply Ascii.eqb_eq in ET. subst c. simpl Ascii.eqb.
      destruct (String.prefix ":" f); simpl; reflexivity.
    + cbn [andb]. destruct (Ascii.eqb "P" c && String.prefix ":" f);
        reflexivity.
Qed.

Lemma parseWifiString_fields (body : string) :
  parseWifiString ("WIFI:" ++ body) =
  let fields := splitString ";" body in
  match lastField "S:" fields with
  | Some s =>
      if nonEmpty s then
        Some {| ssid := s;
                type := match lastField "T:" fields with
                        | Some t => if nonEmpty t then t else "nopass"%string
                        | None => "nopass"%string
                        end;
                password := lastField "P:" fields;
                encryptionType := None |}
      else None
  | None => None
  end.
Proof.
  unfold parseWifiString.
  rewrite prefix_app.
  change (dropString 5 ("WIFI:" ++ body)) with body.
  simpl negb. cbv iota. rewrite wifiFields_collect. cbv zeta. simpl.
  destruct (lastField "S:" (splitString ";" body)); reflexivity.
Qed.

Lemma lastField_no_separator (tag : string) (s v : string) :
  lastField tag (splitString ";" s) = Some v -> hasChar ";" v = false.
Proof.
  intros H. apply lastField_In in H.
  pose proof (splitString_fields ";" s) as Hall.
  rewrite Forall_forall in Hall. specialize (Hall _ H).
  rewrite hasChar_app in Hall. apply orb_false_iff in Hall. apply Hall.
Qed.

Lemma nonEmpty_true (s : string) : nonEmpty s = true -> s <> EmptyString.
Proof.
  unfold nonEmpty. intros H ->. discriminate.
Qed.

Lemma nonEmpty_cases (s : string) :
  (s = EmptyString /\ nonEmpty s = false) \/ (s <> EmptyString /\ nonEmpty s = true).
Proof.
  destruct s; [left|right]; split; try reflexivity; discriminate.
Qed.

(** ** The regular expressions of [handleDecode] *)

Lemma lazyUntilSemicolon_value (v r : string) :
  plainValue v = true ->
  lazyUntilSemicolon (v ++ String ";" r) = Some v.
Proof.
  induction v as [|c v IH]; simpl; [reflexivity|]. intros H.
  apply andb_true_iff in H. destruct H as [H Hv].
  apply andb_true_iff in H. destruct H as [Hc Hl].
  apply negb_true_iff in Hc. apply negb_true_iff in Hl.
  rewrite Hc, Hl, (IH Hv). reflexivity.
Qed.

Lemma matchTag_unfold (tag s : string) :
  matchTag tag s =
  match (if String.prefix tag s
         then lazyUntilSemicolon (dropString (String.length tag) s)
         else None) with
  | Some captured => Some captured
  | None =>
      match s with
      | EmptyString => None
      | String _ s' => matchTag tag s'
      end
  end.
Proof. destruct s; reflexivity. Qed.

(** The match starts where the tag first stands, when a value follows. *)
Lemma matchTag_here (tag v r : string) :
  plainValue v = true ->
  matchTag tag (tag ++ v ++ String ";" r) = Some v.
Proof.
  intros Hv. rewrite matchTag_unfold, prefix_app, dropString_app,
    lazyUntilSemicolon_value by exact Hv. reflexivity.
Qed.

Lemma matchTag_skip (tag : string) (c : ascii) (s : string) :
  String.prefix tag (String c s) = false ->
  matchTag tag (String c s) = matchTag tag s.
Proof. intros H. rewrite matchTag_unfold, H. reflexivity. Qed.

(** No match starts in a text that does not hold the tag, when what
    follows does not complete one. *)
Lemma matchTag_skip_text (a b : ascii) (pre : string) (c : ascii) (r : string) :
  occursIn (String a (String b EmptyString)) pre = false ->
  Ascii.eqb b c = false ->
  matchTag (String a (String b EmptyString)) (pre ++ String c r)
  = matchTag (String a (String b EmptyString)) (String c r).
Proof.
  intros Hpre Hbc. induction pre as [|x pre IH]; [reflexivity|].
  simpl in Hpre. apply orb_false_iff in Hpre. destruct Hpre as [Hx Hpre].
  change ((String x pre ++ String c r)%string)
    with (String x (pre ++ String c r)).
  rewrite matchTag_skip; [apply IH, Hpre|].
  clear IH Hpre. rewrite prefix_cons.
  destruct (Ascii.eqb a x) eqn:Eax; [|reflexivity]. simpl andb.
  destruct pre as [|y pre].
  - change ((EmptyString ++ String c r)%string) with (String c r).
    rewrite prefix_cons, Hbc. reflexivity.
  - change ((String y pre ++ String c r)%string)
      with (String y (pre ++ String c r)).
    rewrite prefix_cons, prefix_empty, andb_true_r.
    destruct (ascii_dec a x) as [->|Hne].
    + simpl in Hx. rewrite Ascii.eqb_refl in Eax.
      destruct (ascii_dec x x) as [_|Hxx]; [|contradiction].
      destruct (ascii_dec b y) as [->|Hby]; [destruct pre; discriminate|].
      apply Ascii.eqb_neq, Hby.
    + apply Ascii.eqb_neq in Hne. congruence.
Qed.

(** The three matches on a text of the layout
    [WIFI:T:<type>;S:<ssid>;P:<password>;;]. *)
Lemma matchTag_layout_T (t r : string) :
  plainValue t = true ->
  matchTag "T:" ("WIFI:T:" ++ t ++ String ";" r) = Some t.
Proof.
  intros Ht. cbn [append].
  rewrite !matchTag_skip by reflexivity.
  apply (matchTag_here "T:"), Ht.
Qed.

Lemma matchTag_layout_S (t s r : string) :
  plainValue s = true ->
  occursIn "S:" t = false ->
  matchTag "S:" ("WIFI:T:" ++ t ++ ";S:" ++ s ++ String ";" r) = Some s.
Proof.
  intros Hs Ht. cbn [append].
  rewrite !matchTag_skip by reflexivity.
  rewrite matchTag_skip_text by (assumption || reflexivity).
  rewrite matchTag_skip by reflexivity.
  apply (matchTag_here "S:"), Hs.
Qed.

Lemma matchTag_layout_P (t s p r : string) :
  plainValue p = true ->
  occursIn "P:" t = false ->
  occursIn "P:" s = false ->
  matchTag "P:" ("WIFI:T:" ++ t ++ ";S:" ++ s ++ ";P:" ++ p ++ String ";" r)
  = Some p.
Proof.
  intros Hp Ht Hs. cbn [append].
  rewrite !matchTag_skip by reflexivity.
  rewrite matchTag_skip_text by (assumption || reflexivity).
  rewrite !matchTag_skip by reflexivity.
  rewrite matchTag_skip_text by (assumption || reflexivity).
  rewrite matchTag_skip by reflexivity.
  apply (matchTag_here "P:"), Hp.
Qed.

Lemma plainValue_app (a b : string) :
  plainValue (a ++ b) = plainValue a && plainValue b.
Proof.
  induction a as [|c a IH]; simpl; [reflexivity|].
  rewrite IH. rewrite andb_assoc. reflexivity.
Qed.

(** The state the component's [handleDecode] leaves is the result of the
    [handleDecode] of utils/handleDecode.ts, but for credentials that are
    null: these leave [wifiCredentials] as it was. *)
Lemma handleDecode_state (JSON_parse : string -> option json) (data : string)
    (st : QRReaderState) :
  QRReader_handleDecode JSON_parse data st
  = setWifiCredentials
      (match wifiCredentials (handleDecode JSON_parse data) with
       | Some c => Some c
       | None => st_wifiCredentials st
       end)
      (setDataType (Some (dataType (handleDecode JSON_parse data)))
         (setDecodedData (Some (decodedData (handleDecode JSON_parse data)))
                         st)).
Proof.
  assert (Hcatch : forall st0,
    QRReader_handleDecode_catch data
      (setDataType st0 (setDecodedData (Some data) st))
    = setWifiCredentials
        (match wifiCredentials (handleDecode_catch data) with
         | Some c => Some c
         | None => st_wifiCredentials st
         end)
        (setDataType (Some (dataType (handleDecode_catch data)))
           (setDecodedData (Some (decodedData (handleDecode_catch data)))
                           st))).
  { intros st0. unfold QRReader_handleDecode_catch, handleDecode_catch.
    destruct (String.prefix "WIFI:" data).
    - destruct (matchTag "S:" data); [destruct (matchTag "P:" data)|];
        reflexivity.
    - destruct (String.prefix "http://" data || String.prefix "https://" data);
        reflexivity. }
  unfold QRReader_handleDecode, handleDecode.
  destruct (JSON_parse data) as [jsonData|].
  - destruct jsonData; try apply Hcatch;
      match goal with
      | |- context [truthy ?a && truthy ?b] =>
          destruct (truthy a && truthy b); reflexivity
      end.
  - pose proof (Hcatch (st_dataType st)) as H.
    destruct st. exact H.
Qed.

(** X1. [parseWifiString] reads the SSID, the type and the password off the
    last field, among those that [;] separates after "WIFI:", that starts
    with "S:", with "T:" and with "P:": the order of the fields does not
    matter and fields with another head are passed over.  It returns null
    exactly when the text does not start with "WIFI:", when no field starts
    with "S:", or when the last one that does is empty after its tag; a
    type that is missing or empty is reported as "nopass". *)
Theorem parseWifiString_last_field_wins :
  forall data : string,
    parseWifiString data =
    if String.prefix "WIFI:" data then
      let fields := splitString ";" (dropString 5 data) in
      match lastField "S:" fields with
      | Some s =>
          if nonEmpty s then
            Some {| ssid := s;
                    type := match lastField "T:" fields with
                            | Some t => if nonEmpty t then t
                                        else "nopass"%string
                            | None => "nopass"%string
                            end;
                    password := lastField "P:" fields;
                    encryptionType := None |}
          else None
      | None => None
      end
    else None.
Proof.
  intros data. destruct (String.prefix "WIFI:" data) eqn:E.
  - rewrite (prefix_split _ _ E) at 1. apply parseWifiString_fields.
  - unfold parseWifiString. rewrite E. reflexivity.
Qed.

(** X2. Credentials that [parseWifiString] returns come from a text that
    starts with "WIFI:" and has the field "S:" followed by the SSID; the
    SSID and the type are not empty, and neither they nor the password
    hold a [;]: a field ends at the first [;], escaped or not. *)
Theorem parseWifiString_sound :
  forall (data : string) (c : WifiCredentials string),
    parseWifiString data = Some c ->
    String.prefix "WIFI:" data = true
    /\ In ("S:" ++ ssid c)%string (splitString ";" (dropString 5 data))
    /\ ssid c <> EmptyString
    /\ type c <> EmptyString
    /\ hasChar ";" (ssid c) = false
    /\ hasChar ";" (type c) = false
    /\ (forall p, password c = Some p -> hasChar ";" p = false)
    /\ encryptionType c = None.
Proof.
  intros data c H.
  destruct (String.prefix "WIFI:" data) eqn:E;
    [|unfold parseWifiString in H; rewrite E in H; discriminate].
  rewrite (prefix_split _ _ E), parseWifiString_fields in H.
  change (String.length "WIFI:") with 5%nat in H. cbv zeta in H.
  remember (dropString 5 data) as body eqn:Hbody. clear Hbody.
  destruct (lastField "S:" (splitString ";" body))
    as [s|] eqn:Es; [|discriminate].
  destruct (nonEmpty s) eqn:Ens; [|discriminate].
  injection H as <-. cbn [ssid type password encryptionType].
  split; [reflexivity|]. split; [apply lastField_In, Es|].
  split; [apply nonEmpty_true, Ens|].
  split.
  { destruct (lastField "T:" (splitString ";" body)) as [t|];
      [|discriminate].
    destruct (nonEmpty t) eqn:Et; [apply nonEmpty_true, Et|discriminate]. }
  split; [apply (lastField_no_separator _ _ Es)|].
  split.
  { destruct (lastField "T:" (splitString ";" body))
      as [t|] eqn:Et; [|reflexivity].
    destruct (nonEmpty t); [apply (lastField_no_separator _ _ Et)|reflexivity]. }
  split; [|reflexivity].
  intros p Hp. apply (lastField_no_separator _ _ Hp).
Qed.

Lemma parseWifiString_layout (t s p : string) :
  hasChar ";" t = false -> hasChar ";" s = false -> hasChar ";" p = false ->
  s <> EmptyString ->
  parseWifiString ("WIFI:T:" ++ t ++ ";S:" ++ s ++ ";P:" ++ p ++ ";;")
  = Some {| ssid := s;
            type := if nonEmpty t then t else "nopass"%string;
            password := Some p;
            encryptionType := None |}.
Proof.
  intros Ht Hs Hp Hne.
  change (("WIFI:T:" ++ t ++ ";S:" ++ s ++ ";P:" ++ p ++ ";;")%string)
    with ("WIFI:" ++ (("T:" ++ t) ++ String ";" (("S:" ++ s) ++ String ";"
            (("P:" ++ p) ++ String ";" (EmptyString ++ String ";" EmptyString)))))%string.
  rewrite parseWifiString_fields. cbv zeta.
  rewrite !splitString_app
    by (rewrite ?hasChar_app; simpl; rewrite ?Ht, ?Hs, ?Hp; reflexivity).
  change (splitString ";" EmptyString) with [EmptyString].
  unfold lastField. cbn [fold_left].
  rewrite !prefix_app.
  change (String.prefix "S:" ("T:" ++ t)) with false.
  change (String.prefix "S:" ("P:" ++ p)) with false.
  change (String.prefix "T:" ("S:" ++ s)) with false.
  change (String.prefix "T:" ("P:" ++ p)) with false.
  change (String.prefix "P:" ("T:" ++ t)) with false.
  change (String.prefix "P:" ("S:" ++ s)) with false.
  change (String.prefix "S:" EmptyString) with false.
  change (String.prefix "T:" EmptyString) with false.
  change (String.prefix "P:" EmptyString) with false.
  cbv iota.
  change (dropString (String.length "S:") ("S:" ++ s)) with s.
  change (dropString (String.length "T:") ("T:" ++ t)) with t.
  change (dropString (String.length "P:") ("P:" ++ p)) with p.
  destruct (nonEmpty_cases s) as [[Hs0 _]|[_ ->]]; [contradiction|].
  reflexivity.
Qed.

(** X3. A text of the layout [WIFI:T:<type>;S:<ssid>;P:<password>;;] whose
    three values hold no [;] and whose SSID is not empty is parsed back
    into these values; an empty type is reported as "nopass". *)
Theorem parseWifiString_standard_layout :
  forall t s p : string,
    hasChar ";" t = false -> hasChar ";" s = false -> hasChar ";" p = false ->
    s <> EmptyString ->
    parseWifiString ("WIFI:T:" ++ t ++ ";S:" ++ s ++ ";P:" ++ p ++ ";;")
    = Some {| ssid := s;
              type := if nonEmpty t then t else "nopass"%string;
              password := Some p;
              encryptionType := None |}.
Proof. exact parseWifiString_layout. Qed.

(** X4. On a text of the layout [WIFI:T:<type>;S:<ssid>;P:<password>;;]
    that is no JSON, [handleDecode] answers 'wifi' with the three values,
    the type standing for the encryption type as well, provided the values
    hold no [;] and no line break, "S:" does not occur in the type and
    "P:" occurs neither in the type nor in the SSID. *)
Theorem handleDecode_standard_layout :
  forall (JSON_parse : string -> option json) (t s p : string),
    let data := ("WIFI:T:" ++ t ++ ";S:" ++ s ++ ";P:" ++ p ++ ";;")%string in
    JSON_parse data = None ->
    plainValue t = true -> plainValue s = true -> plainValue p = true ->
    occursIn "S:" t = false ->
    occursIn "P:" t = false -> occursIn "P:" s = false ->
    handleDecode JSON_parse data
    = {| decodedData := data;
         dataType := Wifi;
         wifiCredentials :=
           Some {| ssid := Some (JString s);
                   type := Some (JString t);
                   password := Some (Some (JString p));
                   encryptionType := Some (Some (JString t)) |} |}.
Proof.
  intros JSON_parse t s p data Hjson Ht Hs Hp HSt HPt HPs.
  unfold handleDecode. rewrite Hjson. unfold handleDecode_catch.
  assert (Hhead : String.prefix "WIFI:" data = true)
    by apply (prefix_app "WIFI:").
  rewrite Hhead.
  assert (HS : matchTag "S:" data = Some s)
    by (apply (matchTag_layout_S t s ("P:" ++ p ++ ";;")); assumption).
  assert (HP : matchTag "P:" data = Some p)
    by (apply (matchTag_layout_P t s p ";"); assumption).
  assert (HT : matchTag "T:" data = Some t)
    by (apply (matchTag_layout_T t ("S:" ++ s ++ ";P:" ++ p ++ ";;")); assumption).
  rewrite HS, HP, HT. reflexivity.
Qed.

(** X5. The password of [handleDecode] is what follows the first "P:" of
    the whole text.  When the SSID holds "P:", the rest of the SSID is
    reported as the password, whereas [parseWifiString] reports the P
    field of the same text; the two agree on the SSID. *)
Theorem handleDecode_password_from_first_P :
  forall (JSON_parse : string -> option json) (t s1 s2 p : string),
    let s := (s1 ++ "P:" ++ s2)%string in
    let data := ("WIFI:T:" ++ t ++ ";S:" ++ s ++ ";P:" ++ p ++ ";;")%string in
    JSON_parse data = None ->
    plainValue t = true -> plainValue s1 = true -> plainValue s2 = true ->
    plainValue p = true ->
    occursIn "S:" t = false ->
    occursIn "P:" t = false -> occursIn "P:" s1 = false ->
    wifiCredentials (handleDecode JSON_parse data)
    = Some {| ssid := Some (JString s);
              type := Some (JString t);
              password := Some (Some (JString s2));
              encryptionType := Some (Some (JString t)) |}
    /\ parseWifiString data
       = Some {| ssid := s;
                 type := if nonEmpty t then t else "nopass"%string;
                 password := Some p;
                 encryptionType := None |}.
Proof.
  intros JSON_parse t s1 s2 p s data Hjson Ht Hs1 Hs2 Hp HSt HPt HPs.
  assert (Hs : plainValue s = true).
  { unfold s. rewrite !plainValue_app, Hs1, Hs2. reflexivity. }
  split.
  - unfold handleDecode. rewrite Hjson. unfold handleDecode_catch.
    assert (Hhead : String.prefix "WIFI:" data = true)
      by apply (prefix_app "WIFI:").
    rewrite Hhead.
    assert (HS : matchTag "S:" data = Some s)
      by (apply (matchTag_layout_S t s ("P:" ++ p ++ ";;")); assumption).
    assert (HT : matchTag "T:" data = Some t)
      by (apply (matchTag_layout_T t ("S:" ++ s ++ ";P:" ++ p ++ ";;"));
          assumption).
    assert (HP : matchTag "P:" data = Some s2).
    { unfold data, s. cbn [append].
      rewrite !matchTag_skip by reflexivity.
      rewrite matchTag_skip_text by (assumption || reflexivity).
      rewrite !matchTag_skip by reflexivity.
      rewrite string_app_assoc. cbn [append].
      rewrite matchTag_skip_text by (assumption || reflexivity).
      apply (matchTag_here "P:"), Hs2. }
    rewrite HS, HP, HT. reflexivity.
  - apply parseWifiString_layout; try (apply plainValue_no_semicolon; assumption).
    unfold s. destruct s1; discriminate.
Qed.

(** X6. The [handleDecode] of the component leaves the state that the
    [handleDecode] of utils/handleDecode.ts describes: its decodedData and
    its dataType, and its credentials when there are any.  When there are
    none, the credentials of the state stay as they were; nothing else of
    the state is written. *)
Theorem QRReader_handleDecode_agrees :
  forall (JSON_parse : string -> option json) (data : string)
         (st : QRReaderState),
    let r := handleDecode JSON_parse data in
    let st' := QRReader_handleDecode JSON_parse data st in
    st_decodedData st' = Some (decodedData r)
    /\ decodedData r = data
    /\ st_dataType st' = Some (dataType r)
    /\ st_wifiCredentials st'
       = match wifiCredentials r with
         | Some c => Some c
         | None => st_wifiCredentials st
         end
    /\ st_error st' = st_error st
    /\ st_isLoading st' = st_isLoading st
    /\ st_pdfProcessingState st' = st_pdfProcessingState st
    /\ st_debugImage st' = st_debugImage st.
Proof.
  intros JSON_parse data st r st'. subst r st'.
  rewrite handleDecode_state. cbn.
  repeat split.
  unfold handleDecode, handleDecode_catch.
  destruct (JSON_parse data) as [[]|];
    repeat match goal with
           | |- context [if ?b then _ else _] => destruct b
           | |- context [match ?m with Some _ => _ | None => _ end] => destruct m
           end; reflexivity.
Qed.

Lemma parseWifiString_sound_witness :
  parseWifiString "WIFI:S:my;net;T:WPA;P:secret;;"
  = Some {| ssid := "my"%string; type := "WPA"%string;
            password := Some "secret"%string; encryptionType := None |}
  /\ hasChar ";" "my" = false.
Proof.
  split; [reflexivity|].
  exact (proj1 (proj2 (proj2 (proj2 (proj2
           (@parseWifiString_sound "WIFI:S:my;net;T:WPA;P:secret;;" _
              eq_refl)))))).
Defined.

Lemma parseWifiString_standard_layout_witness :
  parseWifiString "WIFI:T:;S:cafe;P:;;"
  = Some {| ssid := "cafe"%string; type := "nopass"%string;
            password := Some ""%string; encryptionType := None |}.
Proof.
  apply (@parseWifiString_standard_layout "" "cafe" "");
    try reflexivity; discriminate.
Defined.

Lemma handleDecode_standard_layout_witness :
  handleDecode (fun _ => None) "WIFI:T:WPA;S:mynet;P:secret;;"
  = {| decodedData := "WIFI:T:WPA;S:mynet;P:secret;;";
       dataType := Wifi;
       wifiCredentials :=
         Some {| ssid := Some (JString "mynet");
                 type := Some (JString "WPA");
                 password := Some (Some (JString "secret"));
                 encryptionType := Some (Some (JString "WPA")) |} |}.
Proof.
  apply (@handleDecode_standard_layout (fun _ => None) "WPA" "mynet" "secret");
    reflexivity.
Defined.

Lemma handleDecode_password_from_first_P_witness :
  wifiCredentials (handleDecode (fun _ => None) "WIFI:T:WPA;S:UP:x;P:secret;;")
  = Some {| ssid := Some (JString "UP:x");
            type := Some (JString "WPA");
            password := Some (Some (JString "x"));
            encryptionType := Some (Some (JString "WPA")) |}
  /\ parseWifiString "WIFI:T:WPA;S:UP:x;P:secret;;"
     = Some {| ssid := "UP:x"%string; type := "WPA"%string;
               password := Some "secret"%string; encryptionType := None |}.
Proof.
  apply (@handleDecode_password_from_first_P (fun _ => None)
           "WPA" "U" "x" "secret"); reflexivity.
Defined.
(* ================================================================== *)
(** * More on the scanner *)

Section Callbacks.

Variable num : Type.
Context {NUM : JSNumber num}.
Variables Pixels Bitmap : Type.
Variable B : Browser num Pixels Bitmap.
Variable imageData : ImageData Pixels.
Variable scannerSettings : ScannerSettings num.

Local Notation W := (world num Pixels).

Lemma scanWindow_handed c scale sw sh bm windowSize x y (w : W) :
  handed_over Normal w ->
  holds handed_over
    (scanWindow B scannerSettings c scale sw sh bm windowSize x y w).
Proof.
  intros [Hd Hi]. unfold holds, scanWindow.
  destruct (probe B bm x y windowSize windowSize) as [p| |];
    destruct (c && debugMode scannerSettings); cbn [fst snd handed_over];
    simpl; rewrite ?decoded_draw, ?debugImages_draw; simpl;
    rewrite ?decoded_draw, ?debugImages_draw, ?Hd, ?Hi; simpl;
    try (split; [eexists; reflexivity|]); auto.
Qed.

Lemma scanScale_handed F c scale (w : W) :
  handed_over Normal w ->
  holds handed_over (scanScale B imageData scannerSettings F c scale w).
Proof.
  intros Hw. unfold scanScale.
  destruct (scaledDims imageData scale) as [[sw sh]|]; [|exact Hw].
  destruct ((sw <=? 0) || (sh <=? 0)); [exact Hw|].
  destruct (negb (getContext2d B sw sh)); [exact Hw|].
  destruct (negb (getContext2d B (width imageData) (height imageData)));
    [exact Hw|].
  destruct Hw as [Hd Hi].
  destruct (probe B (drawImage B imageData sw sh) 0 0 sw sh) as [p| |].
  - unfold holds. cbn [fst snd handed_over]. simpl. rewrite Hd, Hi.
    split; [eexists; reflexivity|]. simpl. auto.
  - apply loopSizes_rule; try (intros ? H; exact H).
    + intros. apply scanWindow_handed. assumption.
    + split; assumption.
  - apply loopSizes_rule; try (intros ? H; exact H).
    + intros. apply scanWindow_handed. assumption.
    + split; assumption.
Qed.

Lemma debugImages_debugFinish c (w : W) :
  debugImages w = [] ->
  (List.length (debugImages (debugFinish B scannerSettings c w)) <= 1)%nat.
Proof.
  intros Hi. unfold debugFinish.
  destruct (c && debugMode scannerSettings); [|rewrite Hi; simpl; lia].
  destruct (debugCanvas w); simpl; rewrite Hi; simpl; lia.
Qed.

(** Whatever way a scan is left, it has called [onDecode] once when it
    returns true and never otherwise, and [onDebugImage] once at most. *)
Lemma scan_handed F ref :
  let r := scanWithSlidingWindow B imageData scannerSettings F ref in
  fst r <> Normal /\ handed_over (fst r) (snd r).
Proof.
  unfold scanWithSlidingWindow.
  destruct (jsQR B (data imageData) (width imageData) (height imageData))
    as [p| |].
  - simpl. split; [discriminate|]. split; [eexists; reflexivity|lia].
  - destruct (negb (useAdvancedScanning scannerSettings)).
    { simpl. split; [discriminate|]. split; [reflexivity|lia]. }
    destruct (probes_debugSetup imageData scannerSettings (initial ref))
      as (_ & Hd0 & _ & _ & Hi0).
    destruct (debugSetup imageData scannerSettings (initial ref)) as [c w1].
    simpl in Hd0, Hi0.
    assert (Hloop : holds handed_over
              (loopScale B imageData scannerSettings F F c
                         (minScale scannerSettings) w1)).
    { apply loopScale_rule; try (intros ? H; exact H).
      - intros. apply scanScale_handed. assumption.
      - split; assumption. }
    destruct (loopScale B imageData scannerSettings F F c
                        (minScale scannerSettings) w1) as [k v].
    unfold holds in Hloop. cbn [fst snd] in Hloop.
    destruct k; cbn [fst snd]; try (split; [discriminate|exact Hloop]).
    destruct Hloop as [Hd Hi]. split; [discriminate|].
    cbn [handed_over].
    destruct (probes_debugFinish B scannerSettings c v) as [_ Hdf].
    rewrite Hdf. split; [exact Hd|].
    apply debugImages_debugFinish, Hi.
  - simpl. split; [discriminate|]. split; reflexivity.
Qed.

Lemma withDebug_same :
  withDebug (debugMode scannerSettings) scannerSettings = scannerSettings.
Proof. destruct scannerSettings; reflexivity. Qed.

(** What the debug canvas is, or whether there is one, does not show in
    the scan. *)
Lemma scan_any_canvas F (ref1 ref2 : option (HTMLCanvasElement num Pixels)) :
  same_obs (scanWithSlidingWindow B imageData scannerSettings F ref1)
           (scanWithSlidingWindow B imageData scannerSettings F ref2).
Proof.
  pose proof (scan_obs B imageData scannerSettings
                (debugMode scannerSettings) (debugMode scannerSettings)
                F ref1 ref2) as H.
  rewrite withDebug_same in H. exact H.
Qed.

End Callbacks.

Section Bounds.

Variable num : Type.
Context {NUM : JSNumber num}.
Variables Pixels Bitmap : Type.
Variable B : Browser num Pixels Bitmap.
Variable imageData : ImageData Pixels.
Variable scannerSettings : ScannerSettings num.

Local Notation W := (world num Pixels).

Variable c : bool.
Variable scale : num.
Variables sw sh : Z.
Variable bm : Bitmap.
Hypothesis dims : scaledDims imageData scale = Some (sw, sh).

Local Notation inside w := (Forall (inside_frame imageData) (probes w)).

Lemma scanWindow_inside windowSize x y (w : W) :
  0 <= x -> x <= sw - windowSize -> 0 <= y -> y <= sh - windowSize ->
  inside w ->
  inside (snd (scanWindow B scannerSettings c scale sw sh bm windowSize x y w)).
Proof.
  intros Hx0 Hx Hy0 Hy Hw. unfold scanWindow in *.
  assert (Hnew : Forall (inside_frame imageData)
            (probes w ++ [Window scale sw sh windowSize x y])).
  { apply Forall_app. split; [exact Hw|].
    constructor; [|constructor]. simpl. repeat split; try assumption; lia. }
  destruct (probe B bm x y windowSize windowSize);
    destruct (c && debugMode scannerSettings); simpl;
    rewrite ?probes_draw; simpl; rewrite ?probes_draw; exact Hnew.
Qed.

Lemma loopX_inside windowSize stepSize y :
  0 <= stepSize -> 0 <= y -> y <= sh - windowSize ->
  forall fuel x (w : W), 0 <= x -> inside w ->
    inside (snd (loopX B scannerSettings c scale sw sh bm fuel windowSize
                       stepSize y x w)).
Proof.
  intros Hstep Hy0 Hy.
  induction fuel as [|fuel IH]; intros x w Hx0 Hw; simpl;
    destruct (x <=? sw - windowSize) eqn:Ex; try exact Hw.
  apply Z.leb_le in Ex.
  assert (Hb : inside (snd (scanWindow B scannerSettings c scale sw sh bm
                                       windowSize x y w)))
    by (apply scanWindow_inside; assumption).
  destruct (scanWindow B scannerSettings c scale sw sh bm windowSize x y w)
    as [k v].
  destruct k; try exact Hb. apply IH; [lia|exact Hb].
Qed.

Lemma loopY_inside F windowSize stepSize :
  0 <= stepSize ->
  forall fuel y (w : W), 0 <= y -> inside w ->
    inside (snd (loopY B scannerSettings c scale sw sh bm F fuel windowSize
                       stepSize y w)).
Proof.
  intros Hstep.
  induction fuel as [|fuel IH]; intros y w Hy0 Hw; simpl;
    destruct (y <=? sh - windowSize) eqn:Ey; try exact Hw.
  apply Z.leb_le in Ey.
  assert (Hb : inside (snd (loopX B scannerSettings c scale sw sh bm F
                                  windowSize stepSize y 0 w)))
    by (apply loopX_inside; assumption || lia).
  destruct (loopX B scannerSettings c scale sw sh bm F windowSize stepSize
                  y 0 w) as [k v].
  destruct k; try exact Hb. apply IH; [lia|exact Hb].
Qed.

Lemma loopSizes_inside F :
  forall sizes (w : W),
    (forall windowSize stepSize, In windowSize sizes ->
       stepSizeOf scannerSettings windowSize = Some stepSize -> 0 <= stepSize) ->
    inside w ->
    inside (snd (loopSizes B scannerSettings c scale sw sh bm F sizes w)).
Proof.
  induction sizes as [|windowSize rest IH]; intros w Hsteps Hw; simpl;
    try exact Hw.
  destruct (stepSizeOf scannerSettings windowSize) as [stepSize|] eqn:Es;
    [|exact Hw].
  assert (Hstep : 0 <= stepSize) by (apply (Hsteps windowSize); simpl; auto).
  assert (Hb : inside (snd (loopY B scannerSettings c scale sw sh bm F F
                                  windowSize stepSize 0 w)))
    by (apply loopY_inside; assumption || lia).
  destruct (loopY B scannerSettings c scale sw sh bm F F windowSize stepSize
                  0 w) as [k v].
  destruct k; try exact Hb.
  apply IH; [|exact Hb]. intros ws st Hin. apply Hsteps. simpl. auto.
Qed.

End Bounds.

Section Inside.

Variable num : Type.
Context {NUM : JSNumber num}.
Variables Pixels Bitmap : Type.
Variable B : Browser num Pixels Bitmap.
Variable imageData : ImageData Pixels.
Variable scannerSettings : ScannerSettings num.
Hypothesis forward : steps_forward scannerSettings.

Local Notation W := (world num Pixels).

Lemma scanScale_inside F c scale (w : W) :
  Forall (inside_frame imageData) (probes w) ->
  Forall (inside_frame imageData)
         (probes (snd (scanScale B imageData scannerSettings F c scale w))).
Proof.
  intros Hw. unfold scanScale.
  destruct (scaledDims imageData scale) as [[sw sh]|] eqn:Edims; [|exact Hw].
  destruct ((sw <=? 0) || (sh <=? 0)) eqn:Epos; [exact Hw|].
  destruct (negb (getContext2d B sw sh)); [exact Hw|].
  destruct (negb (getContext2d B (width imageData) (height imageData)));
    [exact Hw|].
  apply orb_false_iff in Epos. destruct Epos as [Ew Eh].
  apply Z.leb_gt in Ew. apply Z.leb_gt in Eh.
  assert (Hnew : Forall (inside_frame imageData)
            (probes w ++ [Frame scale sw sh])).
  { apply Forall_app. split; [exact Hw|].
    constructor; [|constructor]. simpl. auto. }
  destruct (probe B (drawImage B imageData sw sh) 0 0 sw sh);
    try exact Hnew;
    apply (@loopSizes_inside num NUM Pixels Bitmap B imageData scannerSettings
             c scale sw sh (drawImage B imageData sw sh) Edims F);
    try exact Hnew; intros ws st Hin; apply forward; exact Hin.
Qed.

Lemma scan_inside F ref :
  Forall (inside_frame imageData)
    (probes (snd (scanWithSlidingWindow B imageData scannerSettings F ref))).
Proof.
  unfold scanWithSlidingWindow.
  assert (H0 : Forall (inside_frame imageData) [Native num])
    by (constructor; [exact I|constructor]).
  destruct (jsQR B (data imageData) (width imageData) (height imageData));
    try exact H0.
  destruct (negb (useAdvancedScanning scannerSettings)); [exact H0|].
  destruct (probes_debugSetup imageData scannerSettings (initial ref))
    as (Hp0 & _).
  destruct (debugSetup imageData scannerSettings (initial ref)) as [c w1].
  simpl in Hp0.
  assert (Hloop : holds (fun _ w => Forall (inside_frame imageData) (probes w))
            (loopScale B imageData scannerSettings F F c
                       (minScale scannerSettings) w1)).
  { apply loopScale_rule; try (intros ? H; exact H).
    - intros. apply scanScale_inside. assumption.
    - rewrite Hp0. exact H0. }
  destruct (loopScale B imageData scannerSettings F F c
                      (minScale scannerSettings) w1) as [k v].
  unfold holds in Hloop. cbn [fst snd] in Hloop.
  destruct k; cbn [snd]; try exact Hloop.
  destruct (probes_debugFinish B scannerSettings c v) as [Hpf _].
  rewrite Hpf. exact Hloop.
Qed.

End Inside.

Section DebugCanvas.

Variable num : Type.
Context {NUM : JSNumber num}.
Variables Pixels Bitmap : Type.
Variable B : Browser num Pixels Bitmap.
Variable imageData : ImageData Pixels.
Variable scannerSettings : ScannerSettings num.

Local Notation W := (world num Pixels).

Lemma outlines_app (l1 l2 : list (site num)) :
  outlines Pixels (l1 ++ l2) = outlines Pixels l1 ++ outlines Pixels l2.
Proof.
  induction l1 as [|s l1 IH]; simpl; [reflexivity|].
  destruct s; simpl; rewrite IH; reflexivity.
Qed.

Lemma last_snoc (A : Type) (l : list A) (a d : A) : last (l ++ [a]) d = a.
Proof.
  induction l as [|b l IH]; [reflexivity|].
  simpl. destruct (l ++ [a]) eqn:E; [destruct l; discriminate|exact IH].
Qed.

Lemma draw_on (op : draw_op num Pixels) (w : W)
    (cv : HTMLCanvasElement num Pixels) :
  debugCanvas w = Some cv ->
  draw op w
  = set_canvas (Some {| cv_width := cv_width cv; cv_height := cv_height cv;
                        cv_2d := cv_2d cv; cv_ops := cv_ops cv ++ [op] |}) w.
Proof. intros H. unfold draw. rewrite H. reflexivity. Qed.

Hypothesis debug_on : debugMode scannerSettings = true.

Lemma scanWindow_shows scale sw sh bm windowSize x y (w : W) :
  canvas_shows B imageData Normal w ->
  holds (canvas_shows B imageData)
    (scanWindow B scannerSettings true scale sw sh bm windowSize x y w).
Proof.
  intros (cv & Hcv & Hw & Hh & H2d & Hops & Himg).
  unfold holds, scanWindow. rewrite debug_on. simpl andb. cbv iota zeta.
  cbn [found_mark pictures] in Hops, Himg. rewrite app_nil_r in Hops.
  rewrite (@draw_on _ w cv Hcv).
  destruct (probe B bm x y windowSize windowSize) as [p| |];
    cbn [fst snd].
  - unfold debug_url, draw. simpl. unfold canvas_shows. simpl.
    eexists. split; [reflexivity|]. simpl.
    repeat (split; [assumption|]).
    unfold found_mark, pictures. rewrite last_snoc, outlines_app, Hops, Himg.
    simpl. rewrite <- !app_assoc. split; reflexivity.
  - unfold canvas_shows. simpl. eexists. split; [reflexivity|]. simpl.
    repeat (split; [assumption|]).
    rewrite outlines_app, Hops, app_nil_r. simpl. split; [reflexivity|].
    exact Himg.
  - unfold canvas_shows. simpl. eexists. split; [reflexivity|]. simpl.
    repeat (split; [assumption|]).
    rewrite outlines_app, Hops, app_nil_r. simpl. split; [reflexivity|].
    exact Himg.
Qed.

Lemma scanScale_shows F scale (w : W) :
  canvas_shows B imageData Normal w ->
  holds (canvas_shows B imageData)
        (scanScale B imageData scannerSettings F true scale w).
Proof.
  intros Hw. unfold scanScale.
  assert (Hvisit : canvas_shows B imageData Normal (log_visit scale w))
    by exact Hw.
  destruct (scaledDims imageData scale) as [[sw sh]|]; [|exact Hvisit].
  destruct ((sw <=? 0) || (sh <=? 0)); [exact Hvisit|].
  destruct (negb (getContext2d B sw sh)); [exact Hvisit|].
  destruct (negb (getContext2d B (width imageData) (height imageData)));
    [exact Hvisit|].
  destruct Hw as (cv & Hcv & Hw & Hh & H2d & Hops & Himg).
  cbn [found_mark pictures] in Hops, Himg. rewrite app_nil_r in Hops.
  assert (Hframe : canvas_shows B imageData Normal
            (log_probe (Frame scale sw sh)
               (log_resample scale sw sh (log_visit scale w)))).
  { exists cv. simpl. repeat (split; [assumption|]).
    rewrite outlines_app, Hops, !app_nil_r. split; [reflexivity|exact Himg]. }
  destruct (probe B (drawImage B imageData sw sh) 0 0 sw sh) as [p| |].
  - unfold holds. cbn [fst snd]. exists cv. simpl.
    repeat (split; [assumption|]).
    unfold found_mark, pictures. rewrite last_snoc, outlines_app, Hops.
    simpl. rewrite !app_nil_r. split; [reflexivity|exact Himg].
  - apply loopSizes_rule; try (intros ? H; exact H).
    + intros. apply scanWindow_shows. assumption.
    + exact Hframe.
  - apply loopSizes_rule; try (intros ? H; exact H).
    + intros. apply scanWindow_shows. assumption.
    + exact Hframe.
Qed.

(** With [debugMode] on and a debug canvas that has a 2d context, a scan
    that goes past the native pass leaves the canvas sized as the image
    and showing the image, a red outline for each window probed and a
    green one for the window found; the image it hands over is a picture
    of that canvas. *)
Lemma scan_shows F (cv0 : HTMLCanvasElement num Pixels) :
  cv_2d cv0 = true ->
  jsQR B (data imageData) (width imageData) (height imageData) = NoCode ->
  useAdvancedScanning scannerSettings = true ->
  let r := scanWithSlidingWindow B imageData scannerSettings F (Some cv0) in
  canvas_shows B imageData (fst r) (snd r).
Proof.
  intros H2d Hnative Hadv. unfold scanWithSlidingWindow.
  rewrite Hnative, Hadv. simpl negb. cbv iota.
  unfold debugSetup. simpl debugCanvas. rewrite debug_on, H2d.
  cbv iota.
  assert (H0 : canvas_shows B imageData Normal
            (draw (PutImageData num imageData)
               (set_canvas
                  (Some {| cv_width := width imageData;
                           cv_height := height imageData;
                           cv_2d := true; cv_ops := [] |})
                  (initial (Some cv0))))).
  { unfold draw. simpl. eexists. split; [reflexivity|]. simpl.
    repeat split; auto. }
  pose proof (@loopScale_rule num NUM Pixels Bitmap B imageData scannerSettings
                (canvas_shows B imageData) (fun _ H => H) F true
                (fun scale w H => scanScale_shows F scale H)
                F (minScale scannerSettings) _ H0) as Hloop.
  destruct (loopScale B imageData scannerSettings F F true
                      (minScale scannerSettings) _) as [k v].
  unfold holds in Hloop. cbn [fst snd] in Hloop.
  destruct k; cbn [fst snd]; try exact Hloop.
  destruct Hloop as (cv & Hcv & Hw & Hh & Hc & Hops & Himg).
  cbn [found_mark pictures] in Hops, Himg.
  unfold debugFinish. rewrite debug_on, Hcv. simpl andb. cbv iota.
  exists cv. simpl. repeat (split; [assumption|]).
  rewrite Himg. reflexivity.
Qed.

End DebugCanvas.

Section DebugOff.

Variable num : Type.
Context {NUM : JSNumber num}.
Variables Pixels Bitmap : Type.
Variable B : Browser num Pixels Bitmap.
Variable imageData : ImageData Pixels.
Variable scannerSettings : ScannerSettings num.
Variable ref : option (HTMLCanvasElement num Pixels).

Local Notation W := (world num Pixels).
Local Notation untouched := (fun (_ : completion) (w : W) => debugCanvas w = ref).

Lemma scanWindow_untouched scale sw sh bm windowSize x y (w : W) :
  debugCanvas w = ref ->
  holds untouched
    (scanWindow B scannerSettings false scale sw sh bm windowSize x y w).
Proof.
  intros Hw. unfold holds, scanWindow. simpl andb. cbv iota.
  destruct (probe B bm x y windowSize windowSize); simpl; exact Hw.
Qed.

Lemma scanScale_untouched F scale (w : W) :
  debugCanvas w = ref ->
  holds untouched (scanScale B imageData scannerSettings F false scale w).
Proof.
  intros Hw. unfold scanScale.
  destruct (scaledDims imageData scale) as [[sw sh]|]; [|exact Hw].
  destruct ((sw <=? 0) || (sh <=? 0)); [exact Hw|].
  destruct (negb (getContext2d B sw sh)); [exact Hw|].
  destruct (negb (getContext2d B (width imageData) (height imageData)));
    [exact Hw|].
  destruct (probe B (drawImage B imageData sw sh) 0 0 sw sh) as [p| |].
  - exact Hw.
  - apply (@loopSizes_rule num NUM Pixels Bitmap B scannerSettings untouched);
      try (intros ? H; exact H); [|exact Hw].
    intros. apply scanWindow_untouched. assumption.
  - apply (@loopSizes_rule num NUM Pixels Bitmap B scannerSettings untouched);
      try (intros ? H; exact H); [|exact Hw].
    intros. apply scanWindow_untouched. assumption.
Qed.

(** With [debugMode] off, or without a debug canvas, the scan leaves
    [debugCanvasRef.current] as it was. *)
Lemma scan_untouched F :
  debugMode scannerSettings = false \/ ref = None ->
  debugCanvas (snd (scanWithSlidingWindow B imageData scannerSettings F ref))
  = ref.
Proof.
  intros Hoff. unfold scanWithSlidingWindow.
  destruct (jsQR B (data imageData) (width imageData) (height imageData));
    try reflexivity.
  destruct (negb (useAdvancedScanning scannerSettings)); [reflexivity|].
  assert (Hsetup : debugSetup imageData scannerSettings (initial ref)
                   = (false, initial ref)).
  { unfold debugSetup. simpl debugCanvas.
    destruct Hoff as [Hoff| ->]; [|reflexivity].
    rewrite Hoff. destruct ref; reflexivity. }
  rewrite Hsetup.
  pose proof (@loopScale_rule num NUM Pixels Bitmap B imageData scannerSettings
                untouched (fun _ H => H) F false
                (fun scale w H => @scanScale_untouched F scale w H)
                F (minScale scannerSettings) (initial ref) eq_refl) as Hloop.
  destruct (loopScale B imageData scannerSettings F F false
                      (minScale scannerSettings) (initial ref)) as [k v].
  unfold holds in Hloop. cbn [fst snd] in Hloop.
  destruct k; cbn [snd]; try exact Hloop.
Qed.

End DebugOff.

(** X7. However a scan is left, it has called [onDecode] exactly once when
    it returns true and never otherwise, and [onDebugImage] at most once,
    and never after a throw or while it is still running; the function is
    not left without a return value. *)
Theorem scan_calls_back_at_most_once :
  forall (num : Type) (NUM : JSNumber num) (Pixels Bitmap : Type)
         (B : Browser num Pixels Bitmap) (imageData : ImageData Pixels)
         (scannerSettings : ScannerSettings num) (F : nat)
         (debugCanvasRef : option (HTMLCanvasElement num Pixels)),
    let r := scanWithSlidingWindow B imageData scannerSettings F
                                   debugCanvasRef in
    match fst r with
    | Return true =>
        (exists p, decoded (snd r) = [p])
        /\ (List.length (debugImages (snd r)) <= 1)%nat
    | Return false =>
        decoded (snd r) = []
        /\ (List.length (debugImages (snd r)) <= 1)%nat
    | Throw | Diverge | NonFinite =>
        decoded (snd r) = [] /\ debugImages (snd r) = []
    | Normal => False
    end.
Proof.
  intros num NUM Pixels Bitmap B imageData scannerSettings F ref r.
  destruct (scan_handed B imageData scannerSettings F ref) as [Hn Hh].
  fold r in Hn, Hh.
  destruct (fst r) as [|[|]| | |]; try exact Hh. apply Hn. reflexivity.
Qed.

(** X8. What [debugCanvasRef.current] is when the scan starts (absent,
    without a 2d context, of any size, drawn on by an earlier scan) does
    not show in the scan: the return value, the decode attempts, the
    frames resampled, the scales visited and the payload handed to
    [onDecode] are the same. *)
Theorem debug_canvas_does_not_change_scan :
  forall (num : Type) (NUM : JSNumber num) (Pixels Bitmap : Type)
         (B : Browser num Pixels Bitmap) (imageData : ImageData Pixels)
         (scannerSettings : ScannerSettings num) (F : nat)
         (ref1 ref2 : option (HTMLCanvasElement num Pixels)),
    let r1 := scanWithSlidingWindow B imageData scannerSettings F ref1 in
    let r2 := scanWithSlidingWindow B imageData scannerSettings F ref2 in
    fst r1 = fst r2
    /\ decoded (snd r1) = decoded (snd r2)
    /\ probes (snd r1) = probes (snd r2)
    /\ resampled (snd r1) = resampled (snd r2)
    /\ visited (snd r1) = visited (snd r2).
Proof.
  intros num NUM Pixels Bitmap B imageData scannerSettings F ref1 ref2 r1 r2.
  destruct (scan_any_canvas B imageData scannerSettings F ref1 ref2)
    as [Hc Ho].
  fold r1 in Hc, Ho. fold r2 in Hc, Ho.
  unfold observable in Ho. inversion Ho.
  repeat split; assumption.
Qed.

(** X9. When no window size has a negative step, every decode attempt lies
    within the frame it is cut from: a window at (x, y) of side s in a
    frame of sw by sh pixels has 0 <= x, x + s <= sw, 0 <= y and
    y + s <= sh, and the frame is the image resampled at the scale of the
    attempt, with sw and sh positive for a whole-frame attempt.  This
    holds at every point of the run, also of a run that does not end. *)
Theorem probes_stay_inside_frame :
  forall (num : Type) (NUM : JSNumber num) (Pixels Bitmap : Type)
         (B : Browser num Pixels Bitmap) (imageData : ImageData Pixels)
         (scannerSettings : ScannerSettings num),
    steps_forward scannerSettings ->
    forall (F : nat) (debugCanvasRef : option (HTMLCanvasElement num Pixels)),
      Forall (inside_frame imageData)
        (probes (snd (scanWithSlidingWindow B imageData scannerSettings F
                                            debugCanvasRef))).
Proof.
  intros num NUM Pixels Bitmap B imageData scannerSettings Hsteps F ref.
  apply scan_inside. exact Hsteps.
Qed.

(** X10. With [debugMode] on and a debug canvas that has a 2d context, a
    scan that goes past the native pass leaves the canvas sized as the
    image and showing, in this order, the image, a red outline for each
    window probed, in probing order and in the coordinates of the image,
    and a green outline for the window in which a code was found; the
    image handed to [onDebugImage], on a window success or at the end of
    a scan that finds nothing, is the picture of that canvas. *)
Theorem debug_canvas_shows_probes :
  forall (num : Type) (NUM : JSNumber num) (Pixels Bitmap : Type)
         (B : Browser num Pixels Bitmap) (imageData : ImageData Pixels)
         (scannerSettings : ScannerSettings num)
         (cv0 : HTMLCanvasElement num Pixels),
    debugMode scannerSettings = true ->
    cv_2d cv0 = true ->
    jsQR B (data imageData) (width imageData) (height imageData) = NoCode ->
    useAdvancedScanning scannerSettings = true ->
    forall F : nat,
      let r := scanWithSlidingWindow B imageData scannerSettings F
                                     (Some cv0) in
      exists cv,
        debugCanvas (snd r) = Some cv
        /\ cv_width cv = width imageData
        /\ cv_height cv = height imageData
        /\ cv_ops cv = PutImageData num imageData
                         :: outlines Pixels (probes (snd r))
                         ++ found_mark Pixels (fst r) (probes (snd r))
        /\ debugImages (snd r) = pictures B (fst r) (probes (snd r)) cv.
Proof.
  intros num NUM Pixels Bitmap B imageData scannerSettings cv0
         Hdebug H2d Hnative Hadv F r.
  destruct (scan_shows B imageData scannerSettings Hdebug F cv0 H2d Hnative
              Hadv) as (cv & Hcv & Hw & Hh & _ & Hops & Himg).
  exists cv. auto.
Qed.

(** X11. With [debugMode] off, or without a debug canvas, the scan leaves
    [debugCanvasRef.current] as it was: a picture drawn by an earlier scan
    stays. *)
Theorem debug_off_leaves_canvas :
  forall (num : Type) (NUM : JSNumber num) (Pixels Bitmap : Type)
         (B : Browser num Pixels Bitmap) (imageData : ImageData Pixels)
         (scannerSettings : ScannerSettings num)
         (debugCanvasRef : option (HTMLCanvasElement num Pixels)),
    debugMode scannerSettings = false \/ debugCanvasRef = None ->
    forall F : nat,
      debugCanvas (snd (scanWithSlidingWindow B imageData scannerSettings F
                                              debugCanvasRef))
      = debugCanvasRef.
Proof.
  intros num NUM Pixels Bitmap B imageData scannerSettings ref Hoff F.
  apply scan_untouched. exact Hoff.
Qed.

Lemma defaultSettings_forward : steps_forward defaultSettings.
Proof.
  intros windowSize stepSize [<-|[<-|[]]] H; vm_compute in H;
    injection H as <-; lia.
Qed.

Lemma probes_stay_inside_frame_witness :
  steps_forward defaultSettings
  /\ Forall (inside_frame (mockImage 600 600))
       (probes (snd (scanWithSlidingWindow (mockBrowser float blind)
                       (mockImage 600 600) defaultSettings 20 None))).
Proof.
  split; [exact defaultSettings_forward|].
  exact (@probes_stay_inside_frame float binary64 label (Z * Z)%type
           (mockBrowser float blind) (mockImage 600 600) defaultSettings
           defaultSettings_forward 20%nat None).
Defined.

Lemma debug_canvas_shows_probes_witness :
  let r := scanWithSlidingWindow (mockBrowser float twoCodes)
             (mockImage 600 600) (tilingSettings true 300) 10
             (Some (mockCanvas float)) in
  fst r = Return true
  /\ exists cv,
       debugCanvas (snd r) = Some cv
       /\ cv_width cv = 600
       /\ cv_height cv = 600
       /\ cv_ops cv = PutImageData float (mockImage 600 600)
                        :: outlines label (probes (snd r))
                        ++ found_mark label (fst r) (probes (snd r))
       /\ debugImages (snd r) = pictures (mockBrowser float twoCodes) (fst r)
                                         (probes (snd r)) cv.
Proof.
  split; [vm_compute; reflexivity|].
  exact (@debug_canvas_shows_probes float binary64 label (Z * Z)%type
           (mockBrowser float twoCodes) (mockImage 600 600)
           (tilingSettings true 300) (mockCanvas float)
           eq_refl eq_refl eq_refl eq_refl 10%nat).
Defined.

Lemma debug_off_leaves_canvas_witness :
  debugCanvas (snd (scanWithSlidingWindow (mockBrowser float twoCodes)
                      (mockImage 600 600) (tilingSettings false 300) 10
                      (Some (mockCanvas float))))
  = Some (mockCanvas float).
Proof.
  exact (@debug_off_leaves_canvas float binary64 label (Z * Z)%type
           (mockBrowser float twoCodes) (mockImage 600 600)
           (tilingSettings false 300) (Some (mockCanvas float))
           (or_introl eq_refl) 10%nat).
Defined.
(* ================================================================== *)
(** * The component *)

Lemma handleDecode_keeps (JSON_parse : string -> option json) (data : string)
    (st : QRReaderState) :
  let st' := QRReader_handleDecode JSON_parse data st in
  st_error st' = st_error st
  /\ st_isLoading st' = st_isLoading st
  /\ st_pdfProcessingState st' = st_pdfProcessingState st
  /\ st_debugImage st' = st_debugImage st.
Proof. cbv zeta. rewrite handleDecode_state. cbn. auto. Qed.

Lemma shown_handleDecode (JSON_parse : string -> option json) (data : string)
    (st : QRReaderState) :
  st_wifiCredentials st = None ->
  shown (QRReader_handleDecode JSON_parse data st)
  = resultOf (handleDecode JSON_parse data).
Proof.
  intros H. rewrite handleDecode_state. unfold shown, resultOf. cbn.
  rewrite H. destruct (wifiCredentials (handleDecode JSON_parse data));
    reflexivity.
Qed.

Lemma shown_handleDecode_eq (JSON_parse : string -> option json)
    (data : string) (st1 st2 : QRReaderState) :
  shown st1 = shown st2 ->
  shown (QRReader_handleDecode JSON_parse data st1)
  = shown (QRReader_handleDecode JSON_parse data st2).
Proof.
  intros H. rewrite !handleDecode_state. unfold shown in *. cbn.
  injection H as _ _ ->. reflexivity.
Qed.

Lemma setDebugImages_keep (l : list (option string)) (st : QRReaderState) :
  let st' := fold_left (fun st url => setDebugImage url st) l st in
  shown st' = shown st
  /\ st_error st' = st_error st
  /\ st_isLoading st' = st_isLoading st
  /\ st_pdfProcessingState st' = st_pdfProcessingState st.
Proof.
  revert st. induction l as [|url l IH]; intros st; [simpl; auto|].
  simpl. destruct (IH (setDebugImage url st)) as (H1 & H2 & H3 & H4).
  rewrite H1, H2, H3, H4. auto.
Qed.

Lemma shown_setIsLoading (v : bool) (st : QRReaderState) :
  shown (setIsLoading v st) = shown st.
Proof. reflexivity. Qed.

Lemma shown_setError (v : option string) (st : QRReaderState) :
  shown (setError v st) = shown st.
Proof. reflexivity. Qed.

Lemma shown_setPdfProcessingState (v : PdfProcessingState)
    (st : QRReaderState) :
  shown (setPdfProcessingState v st) = shown st.
Proof. reflexivity. Qed.

Lemma shown_setDebugImage (v : option string) (st : QRReaderState) :
  shown (setDebugImage v st) = shown st.
Proof. reflexivity. Qed.

Ltac state_fields :=
  unfold pdfDone, resetState;
  cbn [st_isLoading st_error st_pdfProcessingState st_debugImage
       st_decodedData st_dataType st_wifiCredentials
       setIsLoading setError setPdfProcessingState setDebugImage
       setDecodedData setDataType setWifiCredentials pdfDone resetState];
  repeat (rewrite shown_setIsLoading || rewrite shown_setError
          || rewrite shown_setPdfProcessingState
          || rewrite shown_setDebugImage).

Section ComponentFacts.

Variable num : Type.
Context {NUM : JSNumber num}.
Variables Pixels Bitmap : Type.
Variable B : Browser num Pixels Bitmap.
Variable JSON_parse : string -> option json.
Variable scannerSettings : ScannerSettings num.
Variable F : nat.

Local Notation canvas := (option (HTMLCanvasElement num Pixels)).
Local Notation scan := (scanWithSlidingWindow B).
Local Notation result := (scanResult B scannerSettings F).

(** What a scan does to the state of the component: the payload it finds
    is handed to [handleDecode], and nothing but the debug image changes
    otherwise. *)
Lemma scanFor_spec (imageData : ImageData Pixels) (ref : canvas)
    (st : QRReaderState) :
  exists st' ref',
    scanFor B JSON_parse scannerSettings F imageData ref st
    = (result imageData, st', ref')
    /\ result imageData <> Normal
    /\ st_error st' = st_error st
    /\ st_isLoading st' = st_isLoading st
    /\ st_pdfProcessingState st' = st_pdfProcessingState st
    /\ match result imageData with
       | Return true =>
           exists p,
             decoded (snd (scan imageData scannerSettings F None)) = [p]
             /\ shown st' = shown (QRReader_handleDecode JSON_parse p st)
       | _ => shown st' = shown st
       end.
Proof.
  unfold scanFor, scanResult.
  destruct (scan_any_canvas B imageData scannerSettings F ref None)
    as [Hc Ho].
  destruct (scan_handed B imageData scannerSettings F None) as [Hn Hh].
  cbv zeta in Hn, Hh.
  destruct (scan imageData scannerSettings F ref) as [c w].
  destruct (scan imageData scannerSettings F None) as [c0 w0].
  cbn [fst snd] in *. subst c0.
  unfold observable in Ho. injection Ho as _ _ _ Hd.
  exists (deliver JSON_parse w st), (debugCanvas w).
  split; [reflexivity|]. split; [exact Hn|].
  unfold deliver.
  destruct (setDebugImages_keep (debugImages w)
              (fold_left (fun st data => QRReader_handleDecode JSON_parse data st)
                         (decoded w) st)) as (H1 & H2 & H3 & H4).
  rewrite H1, H2, H3, H4. clear H1 H2 H3 H4.
  assert (Hnone : decoded w = [] ->
            st_error (fold_left
                        (fun st data => QRReader_handleDecode JSON_parse data st)
                        (decoded w) st) = st_error st
            /\ st_isLoading (fold_left
                        (fun st data => QRReader_handleDecode JSON_parse data st)
                        (decoded w) st) = st_isLoading st
            /\ st_pdfProcessingState (fold_left
                        (fun st data => QRReader_handleDecode JSON_parse data st)
                        (decoded w) st) = st_pdfProcessingState st
            /\ shown (fold_left
                        (fun st data => QRReader_handleDecode JSON_parse data st)
                        (decoded w) st) = shown st)
    by (intros ->; simpl; auto).
  destruct c as [|[|]| | |]; cbn [handed_over] in Hh;
    try (destruct Hh as [Hd0 _]; rewrite <- Hd in Hd0;
         destruct (Hnone Hd0) as (? & ? & ? & ?); auto).
  destruct Hh as [[p Hp] _]. rewrite Hd, Hp. simpl.
  destruct (handleDecode_keeps JSON_parse p st) as (? & ? & ? & _).
  repeat (split; [assumption|]). exists p. auto.
Qed.

(** A payload the scan hands over is one the decoder has found in the
    image. *)
Lemma scan_payload (imageData : ImageData Pixels) (p : string) :
  result imageData = Return true ->
  decoded (snd (scan imageData scannerSettings F None)) = [p] ->
  exists s, outcome B imageData s = Code p.
Proof.
  unfold scanResult. intros Hc Hd.
  destruct (scan imageData scannerSettings F None) as [c w] eqn:E.
  cbn [fst snd] in *. subst c.
  destruct (scan_first_hit B imageData scannerSettings F None E)
    as (pre & s & p' & _ & Hd' & Hs & _).
  rewrite Hd in Hd'. injection Hd' as <-. exists s. exact Hs.
Qed.

(** ** [processImageFile] *)


(** ** [processPdf] *)

Local Notation pagesFrom := (processPages B JSON_parse scannerSettings F).


Lemma processPages_passed (numPages : nat) (pre : list (PdfPage Pixels)) :
  Forall (passed_over B scannerSettings F) pre ->
  forall (rest : list (PdfPage Pixels)) (pageNum : nat) (ref : canvas)
         (st : QRReaderState),
    exists st1 ref1,
      pagesFrom pageNum numPages (pre ++ rest) ref st
      = pagesFrom (pageNum + List.length pre) numPages rest ref1 st1
      /\ shown st1 = shown st
      /\ st_isLoading st1 = st_isLoading st
      /\ (Forall (quiet B scannerSettings F) pre -> st_error st1 = st_error st).
Proof.
  induction 1 as [|page pre Hpage Hpre IH]; intros rest pageNum ref st.
  { exists st, ref. rewrite Nat.add_0_r. auto. }
  cbn [app processPages List.length].
  set (st0 := setPdfProcessingState _ st).
  assert (Hs0 : shown st0 = shown st) by reflexivity.
  assert (Hl0 : st_isLoading st0 = st_isLoading st) by reflexivity.
  assert (He0 : st_error st0 = st_error st) by reflexivity.
  clearbody st0.
  rewrite <- Nat.add_succ_comm.
  destruct page as [e| |e| |imageData];
    try (destruct Hpage as [[]|[]]; fail).
  - destruct (IH rest (S pageNum) ref
                (setError (Some ("Error processing page " ++ decimal pageNum
                                 ++ "."))%string st0))
      as (st1 & ref1 & -> & Hs & Hl & _).
    exists st1, ref1. split; [reflexivity|].
    split; [rewrite Hs; exact Hs0|]. split; [rewrite Hl; exact Hl0|].
    intros Hq. inversion Hq as [|? ? Hbad]. destruct Hbad.
  - destruct (scanFor_spec imageData ref st0)
      as (st' & ref' & -> & _ & He & Hl & _ & Hs).
    destruct Hpage as [Hquiet|Hfails]; cbn [quiet fails] in *.
    + rewrite Hquiet in *.
      destruct (IH rest (S pageNum) ref' st')
        as (st1 & ref1 & -> & Hs1 & Hl1 & He1).
      exists st1, ref1. split; [reflexivity|].
      split; [congruence|]. split; [congruence|].
      intros Hq. inversion Hq; subst. rewrite He1 by assumption. congruence.
    + rewrite Hfails in *.
      destruct (IH rest (S pageNum) ref'
                  (setError (Some ("Error processing page "
                                   ++ decimal pageNum ++ "."))%string st'))
        as (st1 & ref1 & -> & Hs1 & Hl1 & _).
      exists st1, ref1. split; [reflexivity|].
      split; [rewrite Hs1, shown_setError; congruence|].
      split; [rewrite Hl1; simpl; congruence|].
      intros Hq. inversion Hq as [|? ? Hbad]. cbn [quiet] in Hbad. congruence.
Qed.

(** After a page that fails the error names that page. *)
Lemma processPages_failed (numPages pageNum : nat) (page : PdfPage Pixels)
    (rest : list (PdfPage Pixels)) (ref : canvas) (st : QRReaderState) :
  fails B scannerSettings F page ->
  exists st1 ref1,
    pagesFrom pageNum numPages (page :: rest) ref st
    = pagesFrom (S pageNum) numPages rest ref1 st1
    /\ shown st1 = shown st
    /\ st_isLoading st1 = st_isLoading st
    /\ st_error st1
       = Some ("Error processing page " ++ decimal pageNum ++ ".")%string.
Proof.
  intros Hpage. cbn [processPages].
  set (st0 := setPdfProcessingState _ st).
  assert (Hs0 : shown st0 = shown st) by reflexivity.
  assert (Hl0 : st_isLoading st0 = st_isLoading st) by reflexivity.
  clearbody st0.
  destruct page as [e| |e| |imageData]; try (destruct Hpage; fail).
  - do 2 eexists. split; [reflexivity|]. state_fields. auto.
  - destruct (scanFor_spec imageData ref st0)
      as (st' & ref' & -> & _ & He & Hl & _ & Hs).
    cbn [fails] in Hpage. rewrite Hpage in *.
    do 2 eexists. split; [reflexivity|]. state_fields.
    split; [congruence|]. split; [congruence|reflexivity].
Qed.

(** The page on which a code is found ends the loop. *)
Lemma processPages_found (numPages pageNum : nat)
    (imageData : ImageData Pixels) (rest : list (PdfPage Pixels))
    (ref : canvas) (st : QRReaderState) (p : string) :
  result imageData = Return true ->
  decoded (snd (scan imageData scannerSettings F None)) = [p] ->
  exists st1 ref1,
    pagesFrom pageNum numPages (Rendered imageData :: rest) ref st
    = (LoopEnds true, st1, ref1)
    /\ shown st1 = shown (QRReader_handleDecode JSON_parse p st)
    /\ st_isLoading st1 = st_isLoading st
    /\ st_error st1 = st_error st.
Proof.
  intros Hc Hp. cbn [processPages].
  set (st0 := setPdfProcessingState _ st).
  assert (Hs0 : shown st0 = shown st) by reflexivity.
  assert (Hl0 : st_isLoading st0 = st_isLoading st) by reflexivity.
  assert (He0 : st_error st0 = st_error st) by reflexivity.
  clearbody st0.
  destruct (scanFor_spec imageData ref st0)
    as (st' & ref' & -> & _ & He & Hl & _ & Hs).
  rewrite Hc in *. destruct Hs as (p' & Hp' & Hs).
  rewrite Hp in Hp'. injection Hp' as <-.
  do 2 eexists. split; [reflexivity|].
  split; [rewrite Hs; apply shown_handleDecode_eq; exact Hs0|].
  split; congruence.
Qed.

(** The payload of an image in which the scan finds a code. *)
Lemma scan_finds (imageData : ImageData Pixels) :
  result imageData = Return true ->
  exists s p,
    outcome B imageData s = Code p
    /\ decoded (snd (scan imageData scannerSettings F None)) = [p].
Proof.
  intros Hc.
  destruct (scan_handed B imageData scannerSettings F None) as [_ Hh].
  cbv zeta in Hh. unfold scanResult in Hc. rewrite Hc in Hh.
  destruct Hh as [[p Hp] _].
  destruct (scan_payload imageData Hc Hp) as [s Hs].
  exists s, p. auto.
Qed.

(** The state in which [processPdf] starts reading. *)
Lemma processPdf_start (file : PdfLoad Pixels) (ref : canvas)
    (st : QRReaderState) :
  exists st0,
    processPdf B JSON_parse scannerSettings F true (PdfReadLoads file) ref st
    = reader_onload B JSON_parse scannerSettings F file ref st0
    /\ shown st0 = (None, None, None)
    /\ st_isLoading st0 = true
    /\ st_error st0 = None
    /\ processing (st_pdfProcessingState st0) = true.
Proof.
  eexists. split; [reflexivity|]. auto.
Qed.


End ComponentFacts.



(** X14. The first page with a code ends [processPdf]: when every page
    before it is passed over (it holds no code, its pixels cannot be read,
    or its scan throws), the handler ends, shows what [handleDecode] makes
    of the payload the decoder found on that page, and clears the loading
    flag, whatever pages follow and whatever they would do. *)
Theorem processPdf_stops_at_first_code :
  forall (num : Type) (NUM : JSNumber num) (Pixels Bitmap : Type)
         (B : Browser num Pixels Bitmap)
         (JSON_parse : string -> option json)
         (scannerSettings : ScannerSettings num) (F : nat)
         (pre : list (PdfPage Pixels)) (imageData : ImageData Pixels),
    Forall (passed_over B scannerSettings F) pre ->
    scanResult B scannerSettings F imageData = Return true ->
    exists s p,
      outcome B imageData s = Code p
      /\ forall (rest : list (PdfPage Pixels))
                (debugCanvasRef : option (HTMLCanvasElement num Pixels))
                (st : QRReaderState),
           let '(c, st', _) :=
             processPdf B JSON_parse scannerSettings F true
               (PdfReadLoads (Document (pre ++ Rendered imageData :: rest)))
               debugCanvasRef st in
           c = Normal
           /\ shown st' = resultOf (handleDecode JSON_parse p)
           /\ st_isLoading st' = false
           /\ st_pdfProcessingState st' = idlePdfState.
Proof.
  intros num NUM Pixels Bitmap B JSON_parse scannerSettings F pre imageData
         Hpre Hhit.
  destruct (scan_finds B scannerSettings F imageData Hhit) as (s & p & Hs & Hp).
  exists s, p. split; [exact Hs|]. intros rest ref st.
  destruct (processPdf_start B JSON_parse scannerSettings F
              (Document (pre ++ Rendered imageData :: rest)) ref st)
    as (st0 & -> & Hs0 & _).
  unfold reader_onload. cbv zeta.
  set (st1 := setPdfProcessingState _ st0).
  assert (Hs1 : shown st1 = (None, None, None)) by exact Hs0.
  clearbody st1.
  destruct (processPages_passed JSON_parse
              (List.length (pre ++ Rendered imageData :: rest)) Hpre
              (Rendered imageData :: rest) 1 ref st1)
    as (st2 & ref2 & -> & Hs2 & _).
  destruct (processPages_found B JSON_parse scannerSettings F
              (List.length (pre ++ Rendered imageData :: rest))
              (1 + List.length pre) imageData rest ref2 st2 Hhit Hp)
    as (st3 & ref3 & -> & Hs3 & _).
  split; [reflexivity|]. unfold pdfDone.
  split; [|split; reflexivity].
  rewrite shown_setIsLoading, shown_setPdfProcessingState, Hs3.
  apply shown_handleDecode. unfold shown in *. congruence.
Qed.

(** X15. When no page of a document yields a code, every page being passed
    over up to the end or up to a page for which the canvas is missing,
    [processPdf] ends showing 'No QR code found in the PDF.' and no
    result: this message replaces 'Could not prepare canvas.' and the
    errors of the pages. *)
Theorem processPdf_without_code :
  forall (num : Type) (NUM : JSNumber num) (Pixels Bitmap : Type)
         (B : Browser num Pixels Bitmap)
         (JSON_parse : string -> option json)
         (scannerSettings : ScannerSettings num) (F : nat)
         (pre tail : list (PdfPage Pixels)),
    Forall (passed_over B scannerSettings F) pre ->
    tail = [] \/ (exists rest, tail = NoCanvas Pixels :: rest) ->
    forall (debugCanvasRef : option (HTMLCanvasElement num Pixels))
           (st : QRReaderState),
      let '(c, st', _) :=
        processPdf B JSON_parse scannerSettings F true
          (PdfReadLoads (Document (pre ++ tail))) debugCanvasRef st in
      c = Normal
      /\ st_error st' = Some "No QR code found in the PDF."%string
      /\ shown st' = (None, None, None)
      /\ st_isLoading st' = false.
Proof.
  intros num NUM Pixels Bitmap B JSON_parse scannerSettings F pre tail
         Hpre Htail ref st.
  destruct (processPdf_start B JSON_parse scannerSettings F
              (Document (pre ++ tail)) ref st)
    as (st0 & -> & Hs0 & _).
  unfold reader_onload. cbv zeta.
  set (st1 := setPdfProcessingState _ st0).
  assert (Hs1 : shown st1 = (None, None, None)) by exact Hs0.
  clearbody st1.
  destruct (processPages_passed JSON_parse
              (List.length (pre ++ tail)) Hpre tail 1 ref st1)
    as (st2 & ref2 & -> & Hs2 & _).
  destruct Htail as [->|[rest ->]]; cbn [processPages]; unfold pdfDone;
    cbn [st_error st_isLoading setIsLoading setPdfProcessingState setError];
    rewrite ?shown_setIsLoading, ?shown_setPdfProcessingState, ?shown_setError,
      ?shown_setPdfProcessingState;
    (split; [reflexivity|]); (split; [reflexivity|]);
    (split; [congruence|reflexivity]).
Qed.

(** X16. The error of a page stays when a later page has a code: if a page
    cannot be read or its scan throws, the pages between it and the first
    page with a code hold no code, and the pages before it are passed
    over, then [processPdf] ends showing both the decoded text and
    'Error processing page n.', n being the number of the failed page. *)
Theorem processPdf_keeps_page_error :
  forall (num : Type) (NUM : JSNumber num) (Pixels Bitmap : Type)
         (B : Browser num Pixels Bitmap)
         (JSON_parse : string -> option json)
         (scannerSettings : ScannerSettings num) (F : nat)
         (pre mid : list (PdfPage Pixels)) (bad : PdfPage Pixels)
         (imageData : ImageData Pixels),
    Forall (passed_over B scannerSettings F) pre ->
    fails B scannerSettings F bad ->
    Forall (quiet B scannerSettings F) mid ->
    scanResult B scannerSettings F imageData = Return true ->
    forall (rest : list (PdfPage Pixels))
           (debugCanvasRef : option (HTMLCanvasElement num Pixels))
           (st : QRReaderState),
      let '(c, st', _) :=
        processPdf B JSON_parse scannerSettings F true
          (PdfReadLoads
             (Document (pre ++ bad :: mid ++ Rendered imageData :: rest)))
          debugCanvasRef st in
      c = Normal
      /\ st_error st'
         = Some ("Error processing page " ++ decimal (S (List.length pre))
                 ++ ".")%string
      /\ st_decodedData st' <> None.
Proof.
  intros num NUM Pixels Bitmap B JSON_parse scannerSettings F pre mid bad
         imageData Hpre Hbad Hmid Hhit rest ref st.
  destruct (scan_finds B scannerSettings F imageData Hhit) as (s & p & Hs & Hp).
  destruct (processPdf_start B JSON_parse scannerSettings F
              (Document (pre ++ bad :: mid ++ Rendered imageData :: rest))
              ref st)
    as (st0 & -> & Hs0 & _).
  unfold reader_onload. cbv zeta.
  set (N := List.length _).
  set (st1 := setPdfProcessingState _ st0).
  assert (Hs1 : shown st1 = (None, None, None)) by exact Hs0.
  clearbody st1 N.
  destruct (processPages_passed JSON_parse N Hpre
              (bad :: mid ++ Rendered imageData :: rest) 1 ref st1)
    as (st2 & ref2 & -> & Hs2 & _).
  destruct (processPages_failed B JSON_parse scannerSettings F N
              (1 + List.length pre) bad
              (mid ++ Rendered imageData :: rest) ref2 st2 Hbad)
    as (st3 & ref3 & -> & Hs3 & _ & He3).
  assert (Hmid' : Forall (passed_over B scannerSettings F) mid).
  { apply Forall_impl with (2 := Hmid). intros page Hq. left. exact Hq. }
  destruct (processPages_passed JSON_parse N Hmid'
              (Rendered imageData :: rest) (S (1 + List.length pre)) ref3 st3)
    as (st4 & ref4 & -> & Hs4 & _ & He4).
  specialize (He4 Hmid).
  destruct (processPages_found B JSON_parse scannerSettings F N
              (S (1 + List.length pre) + List.length mid) imageData rest
              ref4 st4 Hhit Hp)
    as (st5 & ref5 & -> & Hs5 & _ & He5).
  split; [reflexivity|]. unfold pdfDone.
  cbn [st_error st_decodedData setIsLoading setPdfProcessingState].
  split; [rewrite He5, He4, He3; reflexivity|].
  assert (Hres : shown st5 = resultOf (handleDecode JSON_parse p)).
  { rewrite Hs5. apply shown_handleDecode. unfold shown in *. congruence. }
  pose proof (f_equal (fun t => fst (fst t)) Hres) as Hdd.
  cbn [shown resultOf fst] in Hdd. rewrite Hdd. discriminate.
Qed.



Lemma processPdf_stops_at_first_code_witness :
  let B := mockBrowser float wifiOnSmallFrame in
  let settings := tilingSettings false 300 in
  let pre := [blankPage; GrabThrows label] in
  Forall (passed_over B settings 10) pre
  /\ scanResult B settings 10 (mockImage 300 300) = Return true
  /\ exists s p,
       outcome B (mockImage 300 300) s = Code p
       /\ forall rest ref st,
            let '(c, st', _) :=
              processPdf B (fun _ => None) settings 10 true
                (PdfReadLoads (Document (pre ++ wifiPage :: rest))) ref st in
            c = Normal
            /\ shown st' = resultOf (handleDecode (fun _ => None) p)
            /\ st_isLoading st' = false
            /\ st_pdfProcessingState st' = idlePdfState.
Proof.
  intros B settings pre.
  assert (Hpre : Forall (passed_over B settings 10) pre).
  { constructor; [left; vm_compute; reflexivity|].
    constructor; [right; exact I|constructor]. }
  assert (Hhit : scanResult B settings 10 (mockImage 300 300) = Return true)
    by (vm_compute; reflexivity).
  split; [exact Hpre|]. split; [exact Hhit|].
  exact (@processPdf_stops_at_first_code float binary64 label (Z * Z)%type
           B (fun _ => None) settings 10%nat pre (mockImage 300 300)
           Hpre Hhit).
Defined.

Lemma processPdf_without_code_witness :
  let B := mockBrowser float wifiOnSmallFrame in
  let settings := tilingSettings false 300 in
  let pre := [blankPage; GrabThrows label] in
  Forall (passed_over B settings 10) pre
  /\ let '(c, st', _) :=
       processPdf B (fun _ => None) settings 10 true
         (PdfReadLoads (Document (pre ++ [NoCanvas label; wifiPage])))
         None initialState in
     c = Normal
     /\ st_error st' = Some "No QR code found in the PDF."%string
     /\ shown st' = (None, None, None)
     /\ st_isLoading st' = false.
Proof.
  intros B settings pre.
  assert (Hpre : Forall (passed_over B settings 10) pre).
  { constructor; [left; vm_compute; reflexivity|].
    constructor; [right; exact I|constructor]. }
  split; [exact Hpre|].
  exact (@processPdf_without_code float binary64 label (Z * Z)%type
           B (fun _ => None) settings 10%nat pre [NoCanvas label; wifiPage]
           Hpre (or_intror (ex_intro _ [wifiPage] eq_refl))
           None initialState).
Defined.

Lemma processPdf_keeps_page_error_witness :
  let B := mockBrowser float wifiOnSmallFrame in
  let settings := tilingSettings false 300 in
  Forall (passed_over B settings 10) [blankPage]
  /\ fails B settings 10 (GrabThrows label)
  /\ Forall (quiet B settings 10) [blankPage]
  /\ scanResult B settings 10 (mockImage 300 300) = Return true
  /\ let '(c, st', _) :=
       processPdf B (fun _ => None) settings 10 true
         (PdfReadLoads
            (Document ([blankPage] ++ GrabThrows label
                         :: [blankPage] ++ wifiPage :: [])))
         None initialState in
     c = Normal
     /\ st_error st' = Some "Error processing page 2."%string
     /\ st_decodedData st' <> None.
Proof.
  intros B settings.
  assert (Hquiet : Forall (quiet B settings 10) [blankPage])
    by (constructor; [vm_compute; reflexivity|constructor]).
  assert (Hpre : Forall (passed_over B settings 10) [blankPage])
    by (constructor; [left; vm_compute; reflexivity|constructor]).
  assert (Hhit : scanResult B settings 10 (mockImage 300 300) = Return true)
    by (vm_compute; reflexivity).
  split; [exact Hpre|]. split; [exact I|]. split; [exact Hquiet|].
  split; [exact Hhit|].
  exact (@processPdf_keeps_page_error float binary64 label (Z * Z)%type
           B (fun _ => None) settings 10%nat [blankPage] [blankPage]
           (GrabThrows label) (mockImage 300 300)
           Hpre I Hquiet Hhit [] None initialState).
Defined.
(* ================================================================== *)
(** * The settings panel *)

Section ScaleCount.

Variable num : Type.
Context {NUM : JSNumber num}.
Variable scannerSettings : ScannerSettings num.

(** When the count is known, the scale loop makes that many rounds and
    its guard fails then. *)
Lemma scaleCount_spec :
  forall fuel scale n,
    scaleCount scannerSettings fuel scale = Some n ->
    in_range scannerSettings (scaleSeq scannerSettings n scale)
    /\ nleb (scaleAfter scannerSettings n scale) (maxScale scannerSettings)
       = false.
Proof.
  induction fuel as [|fuel IH]; intros scale n H; simpl in H;
    destruct (nleb scale (maxScale scannerSettings)) eqn:Eg;
    try discriminate.
  - injection H as <-. split; [intros s []|exact Eg].
  - destruct (scaleCount scannerSettings fuel
                (nadd scale (scaleStep scannerSettings))) as [n'|] eqn:En;
      [|discriminate].
    injection H as <-. destruct (IH _ _ En) as [Hin Hend].
    split; [|exact Hend].
    intros s [<-|Hs]; [exact Eg|apply Hin, Hs].
  - injection H as <-. split; [intros s []|exact Eg].
Qed.

Lemma scaleSeq_incl (n m : nat) :
  (n <= m)%nat ->
  forall scale,
    incl (scaleSeq scannerSettings n scale) (scaleSeq scannerSettings m scale).
Proof.
  revert m. induction n as [|n IH]; intros m Hle scale; [intros s []|].
  destruct m as [|m]; [lia|]. simpl.
  intros s [<-|Hs]; [left; reflexivity|right].
  apply (IH m); [lia|exact Hs].
Qed.

End ScaleCount.

(** What the panel cannot change stays as the component sets it, and the
    two scales are slider positions. *)
Lemma settingsAfter_fields (changes : list (Setting float)) :
  Forall fromPanel changes ->
  let s := settingsAfter changes in
  In (minScale s) minScaleSlider
  /\ In (maxScale s) maxScaleSlider
  /\ scaleStep s = 0.25%float
  /\ windowOverlap s = 0.25%float
  /\ windowSizes s = [300; 500].
Proof.
  unfold settingsAfter.
  induction changes as [|change changes IH] using rev_ind; intros Hall.
  { simpl. split; [do 4 right; left; reflexivity|].
    split; [do 2 right; left; reflexivity|]. auto. }
  apply Forall_app in Hall. destruct Hall as [Hall Hlast].
  inversion Hlast as [|? ? Hchange _]; subst.
  specialize (IH Hall). cbv zeta in IH.
  destruct IH as (Hmin & Hmax & Hstep & Hover & Hsizes).
  rewrite fold_left_app. simpl.
  destruct change; simpl in Hchange; try contradiction; simpl; auto 6.
Qed.

(** At each pair of slider positions, with the step of the component, the
    scale loop ends within 16 rounds. *)
Lemma slider_scales_end (s : ScannerSettings float) :
  In (minScale s) minScaleSlider ->
  In (maxScale s) maxScaleSlider ->
  scaleStep s = 0.25%float ->
  exists n, (n <= 16)%nat /\ scaleCount s 20 (minScale s) = Some n.
Proof.
  destruct s as [a d m M step overlap sizes].
  cbn [minScale maxScale scaleStep]. intros Hm HM ->.
  assert (H : match scaleCount
                      {| useAdvancedScanning := a; debugMode := d;
                         minScale := m; maxScale := M;
                         scaleStep := 0.25%float; windowOverlap := overlap;
                         windowSizes := sizes |} 20 m with
              | Some n => (n <=? 16)%nat
              | None => false
              end = true).
  { unfold minScaleSlider, maxScaleSlider in Hm, HM.
    repeat (destruct Hm as [<-|Hm]; [|try contradiction]);
      repeat (destruct HM as [<-|HM]; [|try contradiction]);
      vm_compute; reflexivity. }
  destruct (scaleCount _ 20 m) as [n|]; [|discriminate].
  exists n. split; [apply Nat.leb_le, H|reflexivity].
Qed.

Lemma panel_steps_advance (s : ScannerSettings float) :
  windowOverlap s = 0.25%float ->
  windowSizes s = [300; 500] ->
  steps_advance s.
Proof.
  intros Hover Hsizes windowSize Hin. rewrite Hsizes in Hin.
  unfold stepSizeOf. rewrite Hover.
  destruct Hin as [<-|[<-|[]]].
  - exists 225. split; [vm_compute; reflexivity|lia].
  - exists 375. split; [vm_compute; reflexivity|lia].
Qed.

(** X18. Under every configuration that the settings panel can produce
    (the two switches in any position, minScale and maxScale at any
    slider positions, through any series of changes), the scan of an image
    whose frames have finite sizes at the scales from minScale on ends:
    with enough fuel it returns or is left by the throw of the native
    decode, whatever the decoder finds. *)
Theorem panel_settings_terminate :
  forall (Pixels Bitmap : Type) (B : Browser float Pixels Bitmap)
         (imageData : ImageData Pixels) (changes : list (Setting float)),
    Forall fromPanel changes ->
    let scannerSettings := settingsAfter changes in
    dims_finite imageData
      (scaleSeq scannerSettings 16 (minScale scannerSettings)) ->
    exists F0, forall F, (F0 <= F)%nat ->
      forall debugCanvasRef : option (HTMLCanvasElement float Pixels),
        let r := scanWithSlidingWindow B imageData scannerSettings F
                                       debugCanvasRef in
        match fst r with
        | Return _ | Throw => True
        | Normal | Diverge | NonFinite => False
        end.
Proof.
  intros Pixels Bitmap B imageData changes Hall s Hdims.
  destruct (settingsAfter_fields Hall) as (Hmin & Hmax & Hstep & Hover & Hsizes).
  fold s in Hmin, Hmax, Hstep, Hover, Hsizes.
  destruct (slider_scales_end s Hmin Hmax Hstep) as (n & Hn & Hcount).
  destruct (scaleCount_spec s 20 (minScale s) Hcount) as [Hrange Hend].
  assert (Hfin : dims_finite imageData (scaleSeq s n (minScale s))).
  { intros scale Hin. apply Hdims. revert Hin.
    apply scaleSeq_incl. exact Hn. }
  pose proof (panel_steps_advance s Hover Hsizes) as Hsteps.
  destruct (jsQR B (data imageData) (width imageData) (height imageData))
    eqn:Enative.
  - exists 0%nat. intros F _ ref. unfold scanWithSlidingWindow.
    rewrite Enative. exact I.
  - destruct (useAdvancedScanning s) eqn:Eadv.
    + destruct (@scan_follows_order float binary64 Pixels Bitmap B imageData
                  s n Enative Eadv Hrange Hend Hfin Hsteps) as [F0 HF0].
      exists F0. intros F HF ref. specialize (HF0 F HF ref).
      cbv zeta in HF0. cbv zeta.
      destruct (firstSuccess B imageData
                  (probingOrder B imageData s (scaleSeq s n (minScale s))))
        as [[[pre site] p]|]; destruct HF0 as [-> _]; exact I.
    + exists 0%nat. intros F _ ref. unfold scanWithSlidingWindow.
      rewrite Enative, Eadv. exact I.
  - exists 0%nat. intros F _ ref. unfold scanWithSlidingWindow.
    rewrite Enative. exact I.
Qed.

Lemma panel_settings_terminate_witness :
  let changes := [MinScale 0.1%float; DebugMode true; MaxScale 4%float] in
  let scannerSettings := settingsAfter changes in
  Forall fromPanel changes
  /\ dims_finite (mockImage 600 600)
       (scaleSeq scannerSettings 16 (minScale scannerSettings))
  /\ exists F0, forall F, (F0 <= F)%nat ->
       forall ref,
         match fst (scanWithSlidingWindow (mockBrowser float twoCodes)
                      (mockImage 600 600) scannerSettings F ref) with
         | Return _ | Throw => True
         | Normal | Diverge | NonFinite => False
         end.
Proof.
  intros changes scannerSettings.
  assert (Hall : Forall fromPanel changes).
  { constructor; [left; reflexivity|].
    constructor; [exact I|].
    constructor; [|constructor]. do 6 right. left. reflexivity. }
  assert (Hdims : dims_finite (mockImage 600 600)
            (scaleSeq scannerSettings 16 (minScale scannerSettings))).
  { intros scale Hin. vm_compute in Hin.
    repeat (destruct Hin as [<-|Hin]; [vm_compute; discriminate|]).
    destruct Hin. }
  split; [exact Hall|]. split; [exact Hdims|].
  exact (@panel_settings_terminate label (Z * Z)%type
           (mockBrowser float twoCodes) (mockImage 600 600) changes
           Hall Hdims).
Defined.
